(** * Fragrance Finder server: note extraction, query synthesis, scraping

    A shallow embedding of the server's core functions ([parsePrice],
    [scrapeBasic], [ollamaNotesFromScene], [googleSearch],
    [buildPerfumeQueryFromNotes] and the suggestion assembly of the
    [/api/search] and [/api/find] routes), followed by the properties the
    specification states about them.

    JavaScript strings are sequences of UTF-16 code units, so that [length]
    is what [.length] returns and the currency signs are single units. *)

From Stdlib Require Import List NArith ZArith Bool Lia String Ascii.
Import ListNotations.

Set Implicit Arguments.

(* ================================================================== *)
(** * JavaScript values and the built-ins the server uses *)
(* ================================================================== *)

Module JS.

Local Open Scope N_scope.

(** A string is the list of its UTF-16 code units. *)
Definition jstring := list N.

(** A source literal made of Basic Latin characters. *)
Definition lit (s : string) : jstring :=
  map N_of_ascii (list_ascii_of_string s).

Definition jstring_eqb (a b : jstring) : bool :=
  if list_eq_dec N.eq_dec a b then true else false.

(** The units matched by [\s] in a regular expression and stripped by
    [String.prototype.trim]: WhiteSpace and LineTerminator. *)
Definition isWhiteSpace (c : N) : bool :=
  (9 <=? c) && (c <=? 13)
  || (c =? 32) || (c =? 160) || (c =? 5760)
  || (8192 <=? c) && (c <=? 8202)
  || (c =? 8232) || (c =? 8233) || (c =? 8239) || (c =? 8287)
  || (c =? 12288) || (c =? 65279).

(** [[0-9]] *)
Definition isDigit (c : N) : bool := (48 <=? c) && (c <=? 57).

Definition SPACE : N := 32.
Definition COMMA : N := 44.
Definition DOT : N := 46.
Definition NEWLINE : N := 10.

(** [s.replace(/\s+/g, ' ')]: [in_run] tells that the previous unit was
    white space, so that the current run has already been replaced. *)
Fixpoint collapse_from (in_run : bool) (s : jstring) : jstring :=
  match s with
  | [] => []
  | c :: r =>
      if isWhiteSpace c
      then (if in_run then collapse_from true r
            else SPACE :: collapse_from true r)
      else c :: collapse_from false r
  end.

Definition collapseWhitespace (s : jstring) : jstring := collapse_from false s.

Fixpoint trimStart (s : jstring) : jstring :=
  match s with
  | [] => []
  | c :: r => if isWhiteSpace c then trimStart r else s
  end.

Definition trimEnd (s : jstring) : jstring := rev (trimStart (rev s)).

(** [s.trim()] *)
Definition trim (s : jstring) : jstring := trimEnd (trimStart s).

(** [s.toLowerCase()] is the engine's: it follows the case mappings of
    Unicode, under which a letter can depend on its neighbours and can
    become two units, and which are not reproduced here. The functions
    that call it take it as [toLowerCase]. What the properties below need
    of it is stated in [LowerCase]: on a text of Basic Latin it lowers the
    letters A to Z and keeps every other unit, and a lower-cased text is
    still lower-cased once it is trimmed. *)
Definition isBasicLatin (c : N) : bool := c <? 128.

Definition lowerUnit (c : N) : N :=
  if (65 <=? c) && (c <=? 90) then c + 32 else c.

Record LowerCase (toLowerCase : jstring -> jstring) : Prop := mkLowerCase {
  lower_basicLatin :
    forall s, forallb isBasicLatin s = true -> toLowerCase s = map lowerUnit s;
  lower_trimmed :
    forall s, toLowerCase (trim (toLowerCase s)) = trim (toLowerCase s)
}.

(** [arr.join(sep)] on an array of strings. *)
Fixpoint join (sep : jstring) (l : list jstring) : jstring :=
  match l with
  | [] => []
  | [x] => x
  | x :: r => x ++ sep ++ join sep r
  end.

(** [arr.slice(0, n)] *)
Definition slice0 {A} (n : nat) (l : list A) : list A := firstn n l.

(** [arr.filter(Boolean)] on an array of strings: the empty string is the
    only falsy string. *)
Definition nonEmpty (s : jstring) : bool :=
  match s with [] => false | _ => true end.

Definition filterBoolean (l : list jstring) : list jstring := filter nonEmpty l.

(** [new Set(arr)]: a Set keeps its members in insertion order, and adding
    a member it already holds changes nothing. *)
Definition Set_has (s : list jstring) (x : jstring) : bool :=
  existsb (jstring_eqb x) s.

Definition Set_add (s : list jstring) (x : jstring) : list jstring :=
  if Set_has s x then s else s ++ [x].

(** [Array.from(new Set(arr))] *)
Definition uniq (arr : list jstring) : list jstring :=
  fold_left Set_add arr [].

(** [s.replace(a, b)] with a one-unit pattern [a]: the first occurrence
    only. *)
Fixpoint replaceFirst (a b : N) (s : jstring) : jstring :=
  match s with
  | [] => []
  | c :: r => if c =? a then b :: r else c :: replaceFirst a b r
  end.

(** [s.startsWith(p)] *)
Fixpoint startsWith (p s : jstring) : bool :=
  match p, s with
  | [], _ => true
  | _ :: _, [] => false
  | a :: p', c :: s' => (a =? c) && startsWith p' s'
  end.

(** [s.includes(p)] *)
Fixpoint includes (s p : jstring) : bool :=
  startsWith p s ||
  match s with
  | [] => false
  | _ :: r => includes r p
  end.

(** The values a parsed JSON document or a response body can be, and the
    built-in functions that reading a property of one of them can give.
    Numbers are kept as integers: the server only tests them for
    truthiness. A function is known by its [name] and by its [arity],
    which is what its [length] answers. *)
#[local] Unset Elimination Schemes.
Inductive JValue : Type :=
| JUndefined
| JNull
| JBool (b : bool)
| JNum (z : Z)
| JStr (s : jstring)
| JArr (items : list JValue)
| JObj (props : list (jstring * JValue))
| JFun (name : jstring) (arity : Z).
#[local] Set Elimination Schemes.

(** [!v] *)
Definition falsy (v : JValue) : bool :=
  match v with
  | JUndefined | JNull => true
  | JBool b => negb b
  | JNum z => Z.eqb z 0
  | JStr s => negb (nonEmpty s)
  | JArr _ | JObj _ | JFun _ _ => false
  end.

(** [typeof v === 'string'] *)
Definition isString (v : JValue) : bool :=
  match v with JStr _ => true | _ => false end.

(** A thrown [Error] object. *)
Record JError : Type := mkError { err_name : jstring; err_message : jstring }.

(** [String(e?.message || e)]: the message when there is one, otherwise
    [Error.prototype.toString], which for an empty message is the name. *)
Definition errorText (e : JError) : jstring :=
  if nonEmpty (err_message e) then err_message e else err_name e.

Definition TypeError (msg : string) : JError :=
  mkError (lit "TypeError") (lit msg).

(** The outcome of a computation that may throw. *)
Definition result (A : Type) : Type := (JError + A)%type.

Definition ret {A} (a : A) : result A := inr a.
Definition throw {A} (e : JError) : result A := inl e.
Definition bind {A B} (m : result A) (k : A -> result B) : result B :=
  match m with
  | inl e => inl e
  | inr a => k a
  end.

End JS.

Import JS.

Declare Scope js_scope.
Delimit Scope js_scope with js.
Notation "x <- m ;; k" := (bind m (fun x => k))
  (at level 61, m at next level, right associativity) : js_scope.

(* ================================================================== *)
(** * Property names *)
(* ================================================================== *)

Module Props.

(** The names under which the server and the page read a property of a
    value: [data?.response], [parsed.top], [it.link], [req.body.scene] and
    so on. *)
Inductive Key : Type :=
| KResponse | KTop | KMiddle | KBase
| KItems | KTitle | KLink | KSnippet
| KScene | KNotes | KSuggestions | KUrl | KPrice.

Definition keyName (k : Key) : string :=
  match k with
  | KResponse => "response"
  | KTop => "top"
  | KMiddle => "middle"
  | KBase => "base"
  | KItems => "items"
  | KTitle => "title"
  | KLink => "link"
  | KSnippet => "snippet"
  | KScene => "scene"
  | KNotes => "notes"
  | KSuggestions => "suggestions"
  | KUrl => "url"
  | KPrice => "price"
  end.

Definition keys : list Key :=
  [ KResponse; KTop; KMiddle; KBase; KItems; KTitle; KLink; KSnippet;
    KScene; KNotes; KSuggestions; KUrl; KPrice ].

Definition keyOf (s : string) : option Key :=
  find (fun k => String.eqb (keyName k) s) keys.

Definition parseKey (b : list Byte.byte) : option Key :=
  keyOf (string_of_list_byte b).

Definition printKey (k : Key) : list Byte.byte :=
  list_byte_of_string (keyName k).

End Props.

Import Props.

(** A name is written as in the source: ["link"] is [KLink]. *)
Declare Scope key_scope.
Delimit Scope key_scope with key.
Bind Scope key_scope with Key.
String Notation Key parseKey printKey : key_scope.

(* ================================================================== *)
(** * Regular expressions *)
(* ================================================================== *)

Module Regex.

(** The part of the syntax the server's expressions are written in.
    Quantifiers are greedy and give back what they took when the rest of
    the expression does not match, as in JavaScript. *)
Inductive regex : Type :=
| Cls (p : N -> bool)      (** one unit of a class, or a literal unit *)
| Seq (r1 r2 : regex)      (** [r1 r2] *)
| Alt (r1 r2 : regex)      (** [r1|r2] *)
| Opt (r : regex)          (** [r?] *)
| Star (p : N -> bool)     (** [[class]*] *)
| Plus (p : N -> bool)     (** [[class]+] *)
| Group (r : regex)        (** [(r)] *)
| Eos.                     (** [$], without the [m] flag *)

(** What remains to be done once a part of the expression has matched:
    it is given the rest of the input, the text matched so far inside the
    innermost open group (last unit first) and the groups already closed. *)
Definition cont (A : Type) : Type :=
  jstring -> jstring -> list jstring -> option A.

(** [[class]*] against [s]: the longest run first, then shorter ones. *)
Fixpoint star {A} (p : N -> bool) (s acc : jstring)
              (k : jstring -> jstring -> option A) : option A :=
  match s with
  | c :: s' =>
      if p c
      then match star p s' (c :: acc) k with
           | Some x => Some x
           | None => k s acc
           end
      else k s acc
  | [] => k s acc
  end.

Fixpoint run {A} (r : regex) (s acc : jstring) (caps : list jstring)
             (k : cont A) : option A :=
  match r with
  | Cls p =>
      match s with
      | c :: s' => if p c then k s' (c :: acc) caps else None
      | [] => None
      end
  | Seq r1 r2 => run r1 s acc caps (fun s1 acc1 caps1 => run r2 s1 acc1 caps1 k)
  | Alt r1 r2 =>
      match run r1 s acc caps k with
      | Some x => Some x
      | None => run r2 s acc caps k
      end
  | Opt r1 =>
      match run r1 s acc caps k with
      | Some x => Some x
      | None => k s acc caps
      end
  | Star p => star p s acc (fun s1 acc1 => k s1 acc1 caps)
  | Plus p =>
      match s with
      | c :: s' =>
          if p c then star p s' (c :: acc) (fun s1 acc1 => k s1 acc1 caps)
          else None
      | [] => None
      end
  | Group r1 =>
      run r1 s [] caps
          (fun s1 acc1 caps1 => k s1 (acc1 ++ acc) (caps1 ++ [rev acc1]))
  | Eos =>
      match s with
      | [] => k s acc caps
      | _ :: _ => None
      end
  end.

(** The match that begins at the head of [s]: the array [m], with the
    whole match at index 0 and the groups after it. The expressions of
    the server have no group inside a group, so that the groups close in
    the order of their numbers. *)
Definition matchAt (r : regex) (s : jstring) : option (list jstring) :=
  run r s [] [] (fun _ acc caps => Some (rev acc :: caps)).

(** [s.match(r)] without the [g] flag: the match at the leftmost position
    that has one. *)
Fixpoint exec (r : regex) (s : jstring) : option (list jstring) :=
  match matchAt r s with
  | Some m => Some m
  | None =>
      match s with
      | [] => None
      | _ :: s' => exec r s'
      end
  end.

End Regex.

(* ================================================================== *)
(** * Price extraction *)
(* ================================================================== *)

Module Price.

Local Open Scope N_scope.

(** The signs group 1 matches: dollar, euro, pound. *)
Definition DOLLAR : N := 36.
Definition EURO : N := 8364.
Definition POUND : N := 163.

Definition isCurrency (c : N) : bool :=
  (c =? DOLLAR) || (c =? EURO) || (c =? POUND).

(** [[.,]] *)
Definition isSeparator (c : N) : bool := (c =? DOT) || (c =? COMMA).

(** [/(\$|E|L)\s?([0-9]+(?:[.,][0-9]{2})?)/], with E the euro sign and L
    the pound sign. *)
Definition priceRegex : Regex.regex :=
  Regex.Seq
    (Regex.Group
       (Regex.Alt (Regex.Cls (fun c => c =? DOLLAR))
                  (Regex.Alt (Regex.Cls (fun c => c =? EURO))
                             (Regex.Cls (fun c => c =? POUND)))))
    (Regex.Seq
       (Regex.Opt (Regex.Cls isWhiteSpace))
       (Regex.Group
          (Regex.Seq
             (Regex.Plus isDigit)
             (Regex.Opt
                (Regex.Seq (Regex.Cls isSeparator)
                           (Regex.Seq (Regex.Cls isDigit)
                                      (Regex.Cls isDigit))))))).

Definition parsePrice (text : jstring) : option jstring :=
  if negb (nonEmpty text) then None
  else
    match Regex.exec priceRegex (collapseWhitespace text) with
    | None => None
    | Some m => Some (replaceFirst COMMA DOT (nth 1 m [] ++ nth 2 m []))
    end.

End Price.

Import Price.


(* ================================================================== *)
(** * Note extraction *)
(* ================================================================== *)

Module Notes.

Local Open Scope N_scope.
Local Open Scope js_scope.

(** The Note Set [ollamaNotesFromScene] returns. *)
Record NoteSet : Type := mkNoteSet {
  top : list jstring;
  middle : list jstring;
  base : list jstring
}.

Definition LBRACE : N := 123.
Definition RBRACE : N := 125.

(** The own property [k] of an object. *)
Fixpoint lookupProp (props : list (jstring * JValue)) (k : jstring) : JValue :=
  match props with
  | [] => JUndefined
  | (k', v) :: r => if jstring_eqb k' k then v else lookupProp r k
  end.

(** [String.prototype.link]: of the names the program reads, [link] is the
    only one a value inherits from its prototype, and strings are the
    values that inherit it. *)
Definition String_link : JValue := JFun (lit "link") 1.

(** What a value other than [null] and [undefined] answers for the name
    [k]: an object its own property; a string the method of that name; a
    number, a boolean, an array or a function nothing, since none of them
    has or inherits a property of one of these names. *)
Definition property (v : JValue) (k : Key) : JValue :=
  match v with
  | JObj props => lookupProp props (lit (keyName k))
  | JStr _ =>
      match k with
      | KLink => String_link
      | _ => JUndefined
      end
  | _ => JUndefined
  end.

(** [v.k] on a value that may be [null] or [undefined]: those throw,
    every other value answers, with [undefined] when it has no such
    property. *)
Definition getProp (v : JValue) (k : Key) : result JValue :=
  match v with
  | JUndefined | JNull =>
      throw (TypeError "Cannot read properties of undefined")
  | _ => ret (property v k)
  end.

(** [v?.k] *)
Definition optProp (v : JValue) (k : Key) : JValue :=
  match v with
  | JUndefined | JNull => JUndefined
  | _ => property v k
  end.

(** [a || b] on values. *)
Definition orValue (a b : JValue) : JValue := if falsy a then b else a.

(** The prompt sent to the model. *)
Definition promptFor (sceneDescription : jstring) : jstring :=
  lit "Extract 5-8 concise fragrance notes (top/middle/base) that match this scenic description. Return JSON with keys: top, middle, base (arrays of notes, lowercase). Keep common perfume taxonomy words only (e.g., bergamot, lemon, rose, jasmine, vetiver, amber, musk). No commentary."
  ++ [NEWLINE; NEWLINE] ++ lit "Scene:" ++ [NEWLINE] ++ sceneDescription.

(** [/\{[\s\S]*\}$/] *)
Definition jsonRegex : Regex.regex :=
  Regex.Seq (Regex.Cls (fun c => c =? LBRACE))
            (Regex.Seq (Regex.Star (fun _ => true))
                       (Regex.Seq (Regex.Cls (fun c => c =? RBRACE))
                                  Regex.Eos)).

(** [text.match(jsonRegex)], and [jsonMatch[0]] when there is a match. *)
Definition jsonMatch (text : jstring) : option jstring :=
  match Regex.exec jsonRegex text with
  | Some m => Some (nth 0 m [])
  | None => None
  end.

(** [s.split(/\n+/)] *)
Fixpoint splitLines_from (in_run : bool) (s : jstring) : list jstring :=
  match s with
  | [] => [[]]
  | c :: r =>
      if c =? NEWLINE
      then (if in_run then splitLines_from true r
            else [] :: splitLines_from true r)
      else match splitLines_from false r with
           | h :: t => (c :: h) :: t
           | [] => [[c]]
           end
  end.

Definition splitLines (s : jstring) : list jstring := splitLines_from false s.

(** [s.split(',')] *)
Fixpoint splitUnit (sep : N) (s : jstring) : list jstring :=
  match s with
  | [] => [[]]
  | c :: r =>
      if c =? sep then [] :: splitUnit sep r
      else match splitUnit sep r with
           | h :: t => (c :: h) :: t
           | [] => [[c]]
           end
  end.

(** [lines.slice(lines.findIndex(p) + 1)], or nothing when no line
    satisfies [p]. *)
Fixpoint afterFirst (p : jstring -> bool) (lines : list jstring)
  : option (list jstring) :=
  match lines with
  | [] => None
  | l :: r => if p l then Some r else afterFirst p r
  end.

(** The units [replace(/[^a-z, ]/g, '')] keeps. *)
Definition keptUnit (c : N) : bool :=
  (97 <=? c) && (c <=? 122) || (c =? COMMA) || (c =? SPACE).

(** The fallback's [bucket(k)]. *)
Definition bucket (lines : list jstring) (k : string) : list jstring :=
  match afterFirst (fun l => includes l (lit k)) lines with
  | None => []
  | Some after =>
      let rest := filter keptUnit (join [SPACE] after) in
      slice0 6 (filterBoolean (map trim (splitUnit COMMA rest)))
  end.

Definition strings (l : list jstring) : JValue := JArr (map JStr l).

(** [arr.map(f)] with an [f] that may throw. *)
Fixpoint mapM {A B} (f : A -> result B) (l : list A) : result (list B) :=
  match l with
  | [] => ret []
  | x :: r => y <- f x ;; ys <- mapM f r ;; ret (y :: ys)
  end.

Section Model.

(** [String.prototype.toLowerCase] *)
Variable toLowerCase : jstring -> jstring.
(** The completion service: the body of its reply to a prompt. *)
Variable ollama_generate : jstring -> result JValue.
(** [JSON.parse] *)
Variable JSON_parse : jstring -> result JValue.

(** The [catch] of the parsing: the line scan. *)
Definition fallbackParse (text : jstring) : JValue :=
  let lines := splitLines (toLowerCase text) in
  JObj [ (lit "top", strings (bucket lines "top"));
         (lit "middle", strings (bucket lines "middle"));
         (lit "base", strings (bucket lines "base")) ].

(** [s => s.toLowerCase().trim()] applied to an array element. *)
Definition lowerTrim (s : JValue) : result jstring :=
  match s with
  | JStr x => ret (trim (toLowerCase x))
  | _ => throw (TypeError "s.toLowerCase is not a function")
  end.

(** [norm]: what is not an array has no [map]. *)
Definition norm (arr : JValue) : result (list jstring) :=
  match orValue arr (JArr []) with
  | JArr items =>
      l <- mapM lowerTrim items ;;
      ret (slice0 8 (filterBoolean (uniq l)))
  | _ => throw (TypeError "map is not a function")
  end.

(** The [try] block and its [catch]. *)
Definition parseReply (text : jstring) : JValue :=
  let attempt :=
    match jsonMatch text with
    | Some block => JSON_parse block
    | None => JSON_parse text
    end in
  match attempt with
  | inr parsed => parsed
  | inl _ => fallbackParse text
  end.

Definition ollamaNotesFromScene (sceneDescription : jstring) : result NoteSet :=
  data <- ollama_generate (promptFor sceneDescription) ;;
  text <- match orValue (optProp data "response") (JStr []) with
          | JStr t => ret (trim t)
          | _ => throw (TypeError "text.trim is not a function")
          end ;;
  let parsed := parseReply text in
  ptop <- getProp parsed "top" ;;
  ntop <- norm ptop ;;
  pmid <- getProp parsed "middle" ;;
  nmid <- norm pmid ;;
  pbase <- getProp parsed "base" ;;
  nbase <- norm pbase ;;
  ret (mkNoteSet ntop nmid nbase).

End Model.

End Notes.

(* ================================================================== *)
(** * Query synthesis and the search client *)
(* ================================================================== *)

Module Query.

Local Open Scope js_scope.

(** The [notes] argument of [buildPerfumeQueryFromNotes]: a bucket the
    object does not have is [None]. *)
Record NotesArg : Type := mkNotesArg {
  arg_top : option (list jstring);
  arg_middle : option (list jstring);
  arg_base : option (list jstring)
}.

Definition ofNoteSet (n : Notes.NoteSet) : NotesArg :=
  mkNotesArg (Some (Notes.top n)) (Some (Notes.middle n)) (Some (Notes.base n)).

(** [b || []]: an array is truthy, empty or not. *)
Definition orEmpty (b : option (list jstring)) : list jstring :=
  match b with Some l => l | None => [] end.

(** [a || b] on buckets. *)
Definition orBucket (a b : option (list jstring)) : option (list jstring) :=
  match a with Some _ => a | None => b end.

(** The string built first, at lines 183-184. *)
Definition mainQuery (notes : NotesArg) : jstring :=
  let top := join [SPACE] (slice0 3 (orEmpty (arg_top notes))) in
  let mid := join [SPACE] (slice0 3 (orEmpty (arg_middle notes))) in
  let base := join [SPACE] (slice0 3 (orEmpty (arg_base notes))) in
  trim (collapseWhitespace
          (top ++ lit " " ++ mid ++ lit " " ++ base ++ lit " perfume with price")).

(** The replacement of line 185. *)
Definition fallbackQuery (notes : NotesArg) : jstring :=
  join [SPACE]
       (orEmpty (orBucket (arg_middle notes)
                          (orBucket (arg_top notes) (arg_base notes))))
  ++ lit " perfume".

Definition buildPerfumeQueryFromNotes (notes : NotesArg) : jstring :=
  let q := mainQuery notes in
  if (List.length q <? 10)%nat then fallbackQuery notes else q.

(** The environment the process starts in. *)
Record Env : Type := mkEnv {
  env_GOOGLE_API_KEY : option jstring;
  env_GOOGLE_CSE_CX : option jstring;
  env_SEARCH_DOMAINS : option jstring
}.

(** [process.env.X || d] *)
Definition orDefault (v : option jstring) (d : jstring) : jstring :=
  match v with
  | Some s => if nonEmpty s then s else d
  | None => d
  end.

Definition GOOGLE_API_KEY (env : Env) : jstring :=
  orDefault (env_GOOGLE_API_KEY env) [].
Definition GOOGLE_CSE_CX (env : Env) : jstring :=
  orDefault (env_GOOGLE_CSE_CX env) [].
Definition SEARCH_DOMAINS (env : Env) : list jstring :=
  filterBoolean
    (map trim
       (Notes.splitUnit COMMA
          (orDefault (env_SEARCH_DOMAINS env)
                     (lit "fragrantica.com,parfumo.net,basenotes.com")))).

Definition buildSiteQuery (env : Env) (query : jstring) : jstring :=
  match SEARCH_DOMAINS env with
  | [] => query
  | domains =>
      let sites := join (lit " OR ") (map (fun d => lit "site:" ++ d) domains) in
      query ++ lit " (" ++ sites ++ lit ")"
  end.

(** A Search Result; the fields are whatever the provider sent. *)
Record SearchResult : Type := mkSearchResult {
  title : JValue;
  link : JValue;
  snippet : JValue
}.

(** The parameters of the one request [googleSearch] makes. *)
Record SearchRequest : Type := mkSearchRequest {
  req_key : jstring;
  req_cx : jstring;
  req_q : jstring;
  req_num : Z;
  req_safe : jstring;
  req_lr : jstring
}.

Definition missingCredentials : JError :=
  mkError (lit "Error")
          (lit "Missing GOOGLE_API_KEY or GOOGLE_CSE_CX in environment.").

Definition toSearchResult (it : JValue) : result SearchResult :=
  t <- Notes.getProp it "title" ;;
  l <- Notes.getProp it "link" ;;
  s <- Notes.getProp it "snippet" ;;
  ret (mkSearchResult t l s).

Section Model.

Variable env : Env.
(** The search provider: the body of its reply to a request. *)
Variable customsearch : SearchRequest -> result JValue.

(** [googleSearch] with the requests it has issued, oldest first. *)
Definition googleSearch (query : jstring) (num : Z)
  : list SearchRequest * result (list SearchResult) :=
  if negb (nonEmpty (GOOGLE_API_KEY env)) || negb (nonEmpty (GOOGLE_CSE_CX env))
  then ([], throw missingCredentials)
  else
    let q := buildSiteQuery env query in
    let req := mkSearchRequest (GOOGLE_API_KEY env) (GOOGLE_CSE_CX env) q num
                               (lit "active") (lit "lang_en") in
    ([req],
     data <- customsearch req ;;
     items <- Notes.getProp data "items" ;;
     match Notes.orValue items (JArr []) with
     | JArr its => Notes.mapM toSearchResult its
     | _ => throw (TypeError "map is not a function")
     end).

End Model.

End Query.

(* ================================================================== *)
(** * Page scraping *)
(* ================================================================== *)

Module Scrape.

Local Open Scope js_scope.

(** The selectors [scrapeBasic] queries the document with. *)
Inductive Selector : Type :=
| MetaOgTitle          (** [meta] with [property] og:title *)
| TitleTag             (** [title] *)
| MetaDescription      (** [meta] with [name] description *)
| MetaOgDescription    (** [meta] with [property] og:description *)
| ItempropOffers       (** [itemprop] is offers *)
| ItempropPrice        (** [itemprop] is price *)
| ClassHasPrice        (** [class] contains price *)
| IdHasPrice           (** [id] contains price *)
| BodyTag              (** [body] *)
| Css (sel : string)   (** a note selector, as written *).

(** What the scraper reads of a matched element. *)
Record Element : Type := mkElement {
  el_text : jstring;              (** [$(el).text()] *)
  el_content : option jstring     (** [$(el).attr('content')] *)
}.

(** A loaded document: the elements a selector matches, in document
    order. *)
Definition Page : Type := Selector -> list Element.

(** [$(sel).text()]: the texts of all matched elements, concatenated. *)
Definition textOf (els : list Element) : jstring :=
  List.concat (map el_text els).

(** [$(sel).first().text()] *)
Definition firstTextOf (els : list Element) : jstring :=
  match els with
  | e :: _ => el_text e
  | [] => []
  end.

(** [$(sel).attr('content')]: of the first matched element. *)
Definition contentOf (els : list Element) : option jstring :=
  match els with
  | e :: _ => el_content e
  | [] => None
  end.

(** [a || b] where [a] is a string or [undefined]. *)
Definition orString (a : option jstring) (b : jstring) : jstring :=
  match a with
  | Some s => if nonEmpty s then s else b
  | None => b
  end.

(** The price candidates, in the order of the array literal. *)
Definition candidates (page : Page) : list jstring :=
  filterBoolean
    [ textOf (page ItempropOffers);
      textOf (page ItempropPrice);
      firstTextOf (page ClassHasPrice);
      firstTextOf (page IdHasPrice);
      textOf (page BodyTag) ].

(** [for (const t of candidates) { ... if (p) { price = p; break; } }] *)
Fixpoint priceLoop (cands : list jstring) : option jstring :=
  match cands with
  | [] => None
  | t :: r =>
      match parsePrice t with
      | Some p => if nonEmpty p then Some p else priceLoop r
      | None => priceLoop r
      end
  end.

Definition noteSelectors : list string :=
  [ "div#pyramid div.pyramid__note";
    "div#pyramid div.note";
    "div.notes";
    "div.accords";
    "ul.notes li";
    "div#notes li";
    "div.basenotes" ]%string.

(** The callback of [.each]: one element, pushed onto [notes] or not. *)
Definition pushNote (notes : list jstring) (el : Element) : list jstring :=
  let t := trim (el_text el) in
  if nonEmpty t && (List.length t <? 60)%nat then notes ++ [t] else notes.

(** [for (const sel of noteSelectors) { ...; if (notes.length) break; }] *)
Fixpoint notesLoop (page : Page) (sels : list string) (notes : list jstring)
  : list jstring :=
  match sels with
  | [] => notes
  | sel :: r =>
      let notes' := fold_left pushNote (page (Css sel)) notes in
      match notes' with
      | [] => notesLoop page r notes'
      | _ :: _ => notes'
      end
  end.

Definition pageNotes (page : Page) : list jstring :=
  slice0 20 (uniq (notesLoop page noteSelectors [])).

(** A Scrape Result. A field the object does not have, or that holds
    [null], is [None]. *)
Record ScrapeResult : Type := mkScrapeResult {
  url : JValue;
  ok : bool;
  title : option jstring;
  desc : option jstring;
  price : option jstring;
  notes : option (list jstring);
  error : option jstring
}.

(** What [scrapeBasic] reads of the reply to [axios.get]. *)
Record Response : Type := mkResponse {
  data : JValue;
  responseUrl : option jstring    (** [request?.res?.responseUrl] *)
}.

Definition pageTitle (page : Page) : jstring :=
  orString (contentOf (page MetaOgTitle)) (trim (textOf (page TitleTag))).

Definition pageDesc (page : Page) : jstring :=
  orString (contentOf (page MetaDescription))
           (orString (contentOf (page MetaOgDescription)) []).

Definition pagePrice (page : Page) : option jstring :=
  priceLoop (candidates page).

(** [try { ... } catch (e) { handler }] *)
Definition tryCatch {A} (body : result A) (handler : JError -> result A)
  : result A :=
  match body with
  | inl e => handler e
  | inr a => inr a
  end.

Section Model.

(** [axios.get] with [validateStatus: () => true]: any status answers. *)
Variable axios_get : JValue -> result Response.
(** [cheerio.load] *)
Variable cheerioLoad : jstring -> result Page.

(** The [try] block. *)
Definition scrapeBody (u : JValue) : result ScrapeResult :=
  resp <- axios_get u ;;
  if falsy (data resp) || negb (isString (data resp))
  then ret (mkScrapeResult u false None None None None None)
  else
    page <- cheerioLoad (match data resp with JStr html => html | _ => [] end) ;;
    ret (mkScrapeResult
           (match responseUrl resp with
            | Some r => if nonEmpty r then JStr r else u
            | None => u
            end)
           true
           (Some (pageTitle page))
           (Some (pageDesc page))
           (pagePrice page)
           (Some (pageNotes page))
           None).

(** The promise [scrapeBasic(url)] returns, settled. *)
Definition scrapeBasic (u : JValue) : result ScrapeResult :=
  tryCatch (scrapeBody u)
           (fun e => ret (mkScrapeResult u false None None None None
                                         (Some (errorText e)))).

End Model.

End Scrape.

(* ================================================================== *)
(** * Suggestion assembly and the routes *)
(* ================================================================== *)

Module Routes.

Local Open Scope js_scope.

Record Suggestion : Type := mkSuggestion {
  title : JValue;
  url : JValue;
  snippet : JValue;
  price : option jstring;
  sourceTitle : option jstring;
  notes : list jstring
}.

(** [arr.map((r, i) => f(r, i))] *)
Fixpoint mapi_from {A B} (i : nat) (f : A -> nat -> B) (l : list A) : list B :=
  match l with
  | [] => []
  | x :: r => f x i :: mapi_from (S i) f r
  end.

Definition mapi {A B} (f : A -> nat -> B) (l : list A) : list B :=
  mapi_from 0 f l.

(** [scraped[i]?.field || null] for a string field. *)
Definition orNull (scraped : list Scrape.ScrapeResult) (i : nat)
                  (field : Scrape.ScrapeResult -> option jstring)
  : option jstring :=
  match nth_error scraped i with
  | Some s =>
      match field s with
      | Some v => if nonEmpty v then Some v else None
      | None => None
      end
  | None => None
  end.

(** [scraped[i]?.notes || []] *)
Definition notesOrEmpty (scraped : list Scrape.ScrapeResult) (i : nat)
  : list jstring :=
  match nth_error scraped i with
  | Some s => Query.orEmpty (Scrape.notes s)
  | None => []
  end.

(** [results.map((r, i) => ({ ... }))] *)
Definition assemble (results : list Query.SearchResult)
                    (scraped : list Scrape.ScrapeResult) : list Suggestion :=
  mapi (fun r i =>
          mkSuggestion (Query.title r) (Query.link r) (Query.snippet r)
                       (orNull scraped i Scrape.price)
                       (orNull scraped i Scrape.title)
                       (notesOrEmpty scraped i))
       results.

(** [Promise.all]: the values in the order of the promises, or the
    rejection of one of them. *)
Fixpoint Promise_all {A} (ps : list (result A)) : result (list A) :=
  match ps with
  | [] => ret []
  | p :: r => a <- p ;; rest <- Promise_all r ;; ret (a :: rest)
  end.

Section Model.

Variable env : Query.Env.
Variable customsearch : Query.SearchRequest -> result JValue.
Variable axios_get : JValue -> result Scrape.Response.
Variable cheerioLoad : jstring -> result Scrape.Page.
Variable toLowerCase : jstring -> jstring.
Variable ollama_generate : jstring -> result JValue.
Variable JSON_parse : jstring -> result JValue.

(** Scraping every result and assembling the suggestions: lines 215-225
    of [/api/search], and the same again in [/api/find]. *)
Definition suggestionsFor (results : list Query.SearchResult)
  : result (list Suggestion) :=
  scraped <- Promise_all
               (map (fun r => Scrape.scrapeBasic axios_get cheerioLoad
                                                 (Query.link r))
                    results) ;;
  ret (assemble results scraped).

(** The body of [/api/search], past the check of the request. *)
Definition searchRoute (notes : Query.NotesArg)
  : result (jstring * list Suggestion) :=
  let query := Query.buildPerfumeQueryFromNotes notes in
  results <- snd (Query.googleSearch env customsearch query 6) ;;
  suggestions <- suggestionsFor results ;;
  ret (query, suggestions).

(** The body of [/api/find], past the check of the request. *)
Definition findRoute (scene : jstring)
  : result (Notes.NoteSet * jstring * list Suggestion) :=
  notes <- Notes.ollamaNotesFromScene toLowerCase ollama_generate JSON_parse
                                      scene ;;
  let query := Query.buildPerfumeQueryFromNotes (Query.ofNoteSet notes) in
  results <- snd (Query.googleSearch env customsearch query 6) ;;
  suggestions <- suggestionsFor results ;;
  ret (notes, query, suggestions).

End Model.

End Routes.

(* ================================================================== *)
(** * Sample pages, replies and environments *)
(* ================================================================== *)

Module Examples.

Import Scrape.

(** A reply of the model in plain words, which only the line scan can
    read. *)
Definition plainReply : JValue :=
  JObj [(lit "response",
         JStr (lit "Top:" ++ [NEWLINE] ++ lit "Rose, rose , Jasmine"))].

(** The [toLowerCase] of an engine on texts of Basic Latin, which the
    texts of the samples are. *)
Definition basicLower (s : jstring) : jstring := map lowerUnit s.

(** A [JSON.parse] that rejects every text. *)
Definition noJSON (text : jstring) : result JValue :=
  inl (mkError (lit "SyntaxError") (lit "Unexpected token")).

(** A string literal of a JSON text. *)
Definition quoted (s : string) : jstring := [34%N] ++ lit s ++ [34%N].

(** A JSON object after a few words of commentary, and a [JSON.parse] that
    reads that object and rejects every other text. *)
Definition sampleJSON : jstring :=
  lit "{" ++ quoted "top" ++ lit ":[" ++ quoted "Rose" ++ lit ","
  ++ quoted " rose " ++ lit "," ++ quoted "ROSE" ++ lit "]}".

Definition jsonReply : JValue :=
  JObj [(lit "response", JStr (lit "Here you go: " ++ sampleJSON))].

Definition parseSample (text : jstring) : result JValue :=
  if jstring_eqb text sampleJSON
  then inr (JObj [(lit "top",
                   JArr [JStr (lit "Rose"); JStr (lit " rose ");
                         JStr (lit "ROSE")])])
  else inl (mkError (lit "SyntaxError") (lit "Unexpected token")).

Definition textElement (s : string) : Element := mkElement (lit s) None.

(** A product page with a social-preview title, a price element and a
    note pyramid. *)
Definition rosePage : Page := fun sel =>
  match sel with
  | MetaOgTitle => [mkElement [] (Some (lit "X"))]
  | TitleTag => [textElement " Rose Eau de Parfum | Shop "]
  | ClassHasPrice => [textElement "$20"; textElement "$25"]
  | BodyTag => [textElement "Rose Eau de Parfum  $20  shipping $5"]
  | Css s =>
      if String.eqb s "div#pyramid div.note"
      then [textElement " Rose "; textElement "musk"; textElement "Rose"]
      else []
  | _ => []
  end.

(** A page with a body and nothing else: no title of either kind. *)
Definition plainPage : Page := fun sel =>
  match sel with
  | BodyTag => [textElement "Out of stock"]
  | _ => []
  end.

(** A page whose notes container holds one long text, and whose notes are
    also listed item by item. *)
Definition containerPage : Page := fun sel =>
  match sel with
  | TitleTag => [textElement "Notes"]
  | Css s =>
      if String.eqb s "div.notes"
      then [textElement
              "Top notes: bergamot, lemon, grapefruit, pink pepper, mandarin"]
      else if String.eqb s "ul.notes li"
      then [textElement "rose"; textElement "musk"]
      else []
  | _ => []
  end.

Definition roseUrl : jstring := lit "https://shop.example/rose".
Definition plainUrl : jstring := lit "https://shop.example/plain".
Definition notesUrl : jstring := lit "https://shop.example/notes".
Definition dataUrl : jstring := lit "https://api.example/data".
Definition downUrl : jstring := lit "https://down.example/".

Definition refused : JError :=
  mkError (lit "Error") (lit "connect ECONNREFUSED").

(** A network in which three pages answer with text, one address answers
    with a JSON document and every other address refuses the connection. *)
Definition shopGet (u : JValue) : result Response :=
  match u with
  | JStr a =>
      if jstring_eqb a roseUrl
      then inr (mkResponse (JStr (lit "<html>rose</html>"))
                           (Some (lit "https://shop.example/rose-edp")))
      else if jstring_eqb a plainUrl
      then inr (mkResponse (JStr (lit "<html>plain</html>")) None)
      else if jstring_eqb a notesUrl
      then inr (mkResponse (JStr (lit "<html>notes</html>")) None)
      else if jstring_eqb a dataUrl
      then inr (mkResponse (JObj []) None)
      else inl refused
  | _ => inl (TypeError "Invalid URL")
  end.

Definition shopLoad (html : jstring) : result Page :=
  if jstring_eqb html (lit "<html>rose</html>") then inr rosePage
  else if jstring_eqb html (lit "<html>notes</html>") then inr containerPage
  else inr plainPage.

Definition hit (t : string) (l : jstring) : Query.SearchResult :=
  Query.mkSearchResult (JStr (lit t)) (JStr l) (JStr (lit "...")).

(** Six search results: the second and the fourth cannot be scraped. *)
Definition sixResults : list Query.SearchResult :=
  [ hit "Rose EdP" roseUrl;
    hit "Gone" downUrl;
    hit "Plain" plainUrl;
    hit "Feed" dataUrl;
    hit "Notes" notesUrl;
    hit "Rose again" roseUrl ].

(** An environment with both credentials, and one without the key. *)
Definition fullEnv : Query.Env :=
  Query.mkEnv (Some (lit "k-123")) (Some (lit "cx-456")) None.

Definition keylessEnv : Query.Env :=
  Query.mkEnv None (Some (lit "cx-456")) None.

(** A search provider that answers with two items. *)
Definition twoItems (req : Query.SearchRequest) : result JValue :=
  inr (JObj [(lit "items",
              JArr [ JObj [(lit "title", JStr (lit "Rose EdP"));
                           (lit "link", JStr roseUrl);
                           (lit "snippet", JStr (lit "..."))];
                     JObj [(lit "title", JStr (lit "Plain"));
                           (lit "link", JStr plainUrl);
                           (lit "snippet", JStr (lit "..."))] ])]).

(** A Note Set whose one note is written with two spaces. *)
Definition spacedNotes : Query.NotesArg :=
  Query.mkNotesArg (Some [lit "ylang  ylang"]) (Some []) (Some []).

(** The Note Set of the specification's example, and the empty one. *)
Definition citrusNotes : Query.NotesArg :=
  Query.mkNotesArg (Some [lit "bergamot"; lit "lemon"]) (Some [])
                   (Some [lit "musk"]).

Definition noNotes : Query.NotesArg :=
  Query.mkNotesArg (Some []) (Some []) (Some []).

End Examples.

(* ================================================================== *)
(** * Vocabulary of the statements *)
(* ================================================================== *)

Module Spec.

Local Open Scope N_scope.

(** The price expression read off as a function, part by part.

    [[0-9]+], greedy: the longest run of digits and what follows it. *)
Fixpoint digitRun (s : jstring) : jstring * jstring :=
  match s with
  | [] => ([], [])
  | c :: r =>
      if isDigit c
      then let (ds, rest) := digitRun r in (c :: ds, rest)
      else ([], s)
  end.

(** [(?:[.,][0-9]{2})?], greedy: a separator and two digits when they are
    there, nothing otherwise. *)
Definition decimals (s : jstring) : jstring :=
  match s with
  | sep :: d1 :: d2 :: _ =>
      if isSeparator sep && isDigit d1 && isDigit d2 then [sep; d1; d2] else []
  | _ => []
  end.

(** Group 2, [([0-9]+(?:[.,][0-9]{2})?)], anchored at the head of [s]. *)
Definition amount (s : jstring) : option jstring :=
  let (ds, rest) := digitRun s in
  match ds with
  | [] => None
  | _ => Some (ds ++ decimals rest)
  end.

(** [\s?] followed by group 2: the white-space unit is taken first, and
    given back when the amount does not follow it. *)
Definition spaceAmount (s : jstring) : option jstring :=
  match s with
  | c :: r =>
      if isWhiteSpace c
      then match amount r with
           | Some a => Some a
           | None => amount s
           end
      else amount s
  | [] => amount s
  end.

(** The whole expression anchored at the head of [s]: groups 1 and 2. *)
Definition matchHere (s : jstring) : option (N * jstring) :=
  match s with
  | c :: r =>
      if isCurrency c
      then match spaceAmount r with
           | Some a => Some (c, a)
           | None => None
           end
      else None
  | [] => None
  end.

(** [text.match(priceRegex)] without the [g] flag: the match at the
    leftmost position that has one. *)
Fixpoint matchPrice (s : jstring) : option (N * jstring) :=
  match matchHere s with
  | Some m => Some m
  | None =>
      match s with
      | [] => None
      | _ :: r => matchPrice r
      end
  end.

(** Whether white space was last seen once [x] has been read, [b] telling
    it for what came before [x]. *)
Definition endsInSpace (b : bool) (x : jstring) : bool :=
  match rev x with
  | [] => b
  | c :: _ => isWhiteSpace c
  end.

Section Lowered.

Variable toLowerCase : jstring -> jstring.

(** A normalized bucket of a Note Set: no entry twice, at most eight
    entries, each of them non-empty, in lower case and trimmed. *)
Definition normalizedEntry (e : jstring) : Prop :=
  e <> [] /\ toLowerCase e = e /\ trim e = e.

Definition normalized (l : list jstring) : Prop :=
  NoDup l /\ (List.length l <= 8)%nat /\ Forall normalizedEntry l.

(** The normalized form of a note. *)
Definition lowered (x : jstring) : jstring := trim (toLowerCase x).

(** [norm] on an array of strings, without the checks of the types: the
    distinct non-empty normalized forms in the order of their first
    occurrence, eight at most. *)
Definition normStrings (l : list jstring) : list jstring :=
  slice0 8 (filterBoolean (uniq (map lowered l))).

End Lowered.

(** The text the [try] block hands to [JSON.parse]: the match of the
    expression when there is one, the whole reply otherwise. *)
Definition parsedText (text : jstring) : jstring :=
  match Notes.jsonMatch text with
  | Some block => block
  | None => text
  end.

(** Whether [s] begins with a digit. *)
Definition headDigit (s : jstring) : bool :=
  match s with
  | c :: _ => isDigit c
  | [] => false
  end.

(** The decimal part as [parsePrice] returns it: with a dot. *)
Definition dotted (dec : jstring) : jstring := replaceFirst COMMA DOT dec.

(** A returned price: a currency sign, a run of digits, and then nothing
    or a dot and two digits. *)
Definition priceShape (p : jstring) : bool :=
  match p with
  | sym :: rest =>
      isCurrency sym &&
      (let (ds, tail) := digitRun rest in
       nonEmpty ds &&
       match tail with
       | [] => true
       | [dot; d1; d2] => N.eqb dot DOT && isDigit d1 && isDigit d2
       | _ => false
       end)
  | [] => false
  end.

(** The texts the price is looked for in, in the order of the source,
    before the empty ones are filtered out. *)
Definition rawCandidates (page : Scrape.Page) : list jstring :=
  [ Scrape.textOf (page Scrape.ItempropOffers);
    Scrape.textOf (page Scrape.ItempropPrice);
    Scrape.firstTextOf (page Scrape.ClassHasPrice);
    Scrape.firstTextOf (page Scrape.IdHasPrice);
    Scrape.textOf (page Scrape.BodyTag) ].

(** The Price Extractor run over the texts in order, stopping at the
    first result that is not absent. *)
Fixpoint firstPrice (texts : list jstring) : option jstring :=
  match texts with
  | [] => None
  | t :: r =>
      match parsePrice t with
      | Some p => Some p
      | None => firstPrice r
      end
  end.

(** The result of a scrape that failed without an error. *)
Definition failedScrape (u : JValue) : Scrape.ScrapeResult :=
  Scrape.mkScrapeResult u false None None None None None.

(** The result of a scrape that failed with the error [e]. *)
Definition erroredScrape (u : JValue) (e : JError) : Scrape.ScrapeResult :=
  Scrape.mkScrapeResult u false None None None None (Some (errorText e)).

(** The result of scraping the loaded document [page]. *)
Definition scrapedPage (u : JValue) (resp : Scrape.Response)
                       (page : Scrape.Page) : Scrape.ScrapeResult :=
  Scrape.mkScrapeResult
    (match Scrape.responseUrl resp with
     | Some r => if nonEmpty r then JStr r else u
     | None => u
     end)
    true
    (Some (Scrape.pageTitle page))
    (Some (Scrape.pageDesc page))
    (Scrape.pagePrice page)
    (Some (Scrape.pageNotes page))
    None.

(** The test of the [.each] callback on a trimmed text. *)
Definition keptText (t : jstring) : bool :=
  nonEmpty t && (List.length t <? 60)%nat.

(** The texts one selector contributes: trimmed, non-empty, shorter than
    60 units. *)
Definition keptTexts (els : list Scrape.Element) : list jstring :=
  filter keptText (map (fun e => trim (Scrape.el_text e)) els).

(** The contribution of the first selector that contributes anything. *)
Fixpoint firstKept (page : Scrape.Page) (sels : list string) : list jstring :=
  match sels with
  | [] => []
  | sel :: r =>
      match keptTexts (page (Scrape.Css sel)) with
      | [] => firstKept page r
      | l => l
      end
  end.

(** The elements of the first selector that matches at least one
    element. *)
Fixpoint firstMatching (page : Scrape.Page) (sels : list string)
  : list Scrape.Element :=
  match sels with
  | [] => []
  | sel :: r =>
      match page (Scrape.Css sel) with
      | [] => firstMatching page r
      | els => els
      end
  end.

(** The notes when they are taken from the first selector that matches
    at least one element. *)
Definition notesOfFirstMatching (page : Scrape.Page) : list jstring :=
  slice0 20 (uniq (keptTexts (firstMatching page Scrape.noteSelectors))).

(** The Scrape Result the promise of [scrapeBasic] is fulfilled with. *)
Definition scrapeOf (axios_get : JValue -> result Scrape.Response)
                    (cheerioLoad : jstring -> result Scrape.Page)
                    (u : JValue) : Scrape.ScrapeResult :=
  match Scrape.scrapeBasic axios_get cheerioLoad u with
  | inr r => r
  | inl _ => failedScrape u
  end.

(** [v || null] on a string field: the empty string counts as absent. *)
Definition truthy (v : option jstring) : option jstring :=
  match v with
  | Some t => if nonEmpty t then Some t else None
  | None => None
  end.

(** The notes [buildPerfumeQueryFromNotes] reads: the first three of
    each bucket. *)
Definition queryNotes (notes : Query.NotesArg) : list jstring :=
  slice0 3 (Query.orEmpty (Query.arg_top notes))
  ++ slice0 3 (Query.orEmpty (Query.arg_middle notes))
  ++ slice0 3 (Query.orEmpty (Query.arg_base notes)).

(** All the notes of the argument. *)
Definition allNotes (notes : Query.NotesArg) : list jstring :=
  Query.orEmpty (Query.arg_top notes)
  ++ Query.orEmpty (Query.arg_middle notes)
  ++ Query.orEmpty (Query.arg_base notes).

End Spec.

Import Spec.


(* ================================================================== *)
(** * The page in the browser *)
(* ================================================================== *)

Module Client.

Import Notes.
Local Open Scope N_scope.

Definition AMP : N := 38.
Definition LT : N := 60.
Definition GT : N := 62.
Definition QUOTE : N := 34.

(** The class of the expression of [escapeHtml]: ampersand, less-than,
    greater-than and double quote. *)
Definition isSpecial (c : N) : bool :=
  (c =? AMP) || (c =? LT) || (c =? GT) || (c =? QUOTE).

(** The callback of [escapeHtml] on a match [s]: the property [s] of the
    table of entities, as the text [replace] puts in; a match that is no
    key of the table gives [undefined]. *)
Definition entityOf (s : jstring) : jstring :=
  if jstring_eqb s [AMP] then lit "&amp;"
  else if jstring_eqb s [LT] then lit "&lt;"
  else if jstring_eqb s [GT] then lit "&gt;"
  else if jstring_eqb s [QUOTE] then lit "&quot;"
  else lit "undefined".

(** What stands for the run of special units read so far, last unit
    first. *)
Definition flush (run : jstring) : jstring :=
  match run with
  | [] => []
  | _ :: _ => entityOf (rev run)
  end.

(** [str.replace(/[class]+/g, callback)]: every longest run of special
    units is one match. *)
Fixpoint escapeFrom (run : jstring) (s : jstring) : jstring :=
  match s with
  | [] => flush run
  | c :: r =>
      if isSpecial c then escapeFrom (c :: run) r
      else flush run ++ c :: escapeFrom [] r
  end.

(** [escapeHtml] on a string. *)
Definition escapeHtml (str : jstring) : jstring := escapeFrom [] str.

(** The items [for ... of] takes from a string: its code points, a pair
    of surrogates being one item. *)
Definition isHighSurrogate (c : N) : bool := (55296 <=? c) && (c <=? 56319).
Definition isLowSurrogate (c : N) : bool := (56320 <=? c) && (c <=? 57343).

Fixpoint codePoints (s : jstring) : list jstring :=
  match s with
  | [] => []
  | c :: r =>
      match r with
      | d :: r' =>
          if isHighSurrogate c && isLowSurrogate d
          then [c; d] :: codePoints r'
          else [c] :: codePoints r
      | [] => [[c]]
      end
  end.

(** A child of a notes container. *)
Inductive Pill : Type :=
| Head (label : jstring)      (** the pill of the label *)
| Item (text : JValue).       (** a pill, with the value given as its text *)

Inductive Container : Type :=
| NotesTop        (** [#notes-top] *)
| NotesMiddle     (** [#notes-middle] *)
| NotesBase.      (** [#notes-base] *)

(** What the script reads and writes of the document, and the requests it
    has sent, oldest first. *)
Record View : Type := mkView {
  scene : jstring;              (** [#scene.value] *)
  status : jstring;             (** [#status.textContent] *)
  status_hidden : bool;
  notes_top : list Pill;
  notes_middle : list Pill;
  notes_base : list Pill;
  notes_hidden : bool;          (** [#notes.hidden] *)
  cards : list jstring;         (** the [innerHTML] of the children of [#cards] *)
  results_hidden : bool;        (** [#results.hidden] *)
  extract_disabled : bool;
  find_disabled : bool;
  sent : list (jstring * jstring)
}.

(** A step of the script: it changes the view and returns or throws. *)
Definition act (A : Type) : Type := View -> View * result A.

Definition pure {A} (a : A) : act A := fun v => (v, inr a).
Definition raise {A} (e : JError) : act A := fun v => (v, inl e).
Definition andThen {A B} (m : act A) (k : A -> act B) : act B :=
  fun v =>
    match m v with
    | (v', inr a) => k a v'
    | (v', inl e) => (v', inl e)
    end.
Definition lift {A} (r : result A) : act A := fun v => (v, r).
Definition update (f : View -> View) : act unit := fun v => (f v, inr tt).

(** [try { body } catch (e) { handler }] *)
Definition catching {A} (body : act A) (handler : JError -> act A) : act A :=
  fun v =>
    match body v with
    | (v', inl e) => handler e v'
    | done => done
    end.

(** [try { body } finally { last }], with a [last] that does not throw. *)
Definition finally {A} (body : act A) (last : View -> View) : act A :=
  fun v => let (v', r) := body v in (last v', r).

Definition setStatus (msg : jstring) (hidden : bool) (v : View) : View :=
  mkView (scene v) msg hidden (notes_top v) (notes_middle v) (notes_base v)
         (notes_hidden v) (cards v) (results_hidden v)
         (extract_disabled v) (find_disabled v) (sent v).

Definition setPills (c : Container) (ps : list Pill) (v : View) : View :=
  mkView (scene v) (status v) (status_hidden v)
         (match c with NotesTop => ps | _ => notes_top v end)
         (match c with NotesMiddle => ps | _ => notes_middle v end)
         (match c with NotesBase => ps | _ => notes_base v end)
         (notes_hidden v) (cards v) (results_hidden v)
         (extract_disabled v) (find_disabled v) (sent v).

Definition pillsOf (c : Container) (v : View) : list Pill :=
  match c with
  | NotesTop => notes_top v
  | NotesMiddle => notes_middle v
  | NotesBase => notes_base v
  end.

Definition setNotesHidden (h : bool) (v : View) : View :=
  mkView (scene v) (status v) (status_hidden v)
         (notes_top v) (notes_middle v) (notes_base v)
         h (cards v) (results_hidden v)
         (extract_disabled v) (find_disabled v) (sent v).

Definition setCards (cs : list jstring) (v : View) : View :=
  mkView (scene v) (status v) (status_hidden v)
         (notes_top v) (notes_middle v) (notes_base v)
         (notes_hidden v) cs (results_hidden v)
         (extract_disabled v) (find_disabled v) (sent v).

Definition setResultsHidden (h : bool) (v : View) : View :=
  mkView (scene v) (status v) (status_hidden v)
         (notes_top v) (notes_middle v) (notes_base v)
         (notes_hidden v) (cards v) h
         (extract_disabled v) (find_disabled v) (sent v).

Definition setDisabled (extract find : bool) (v : View) : View :=
  mkView (scene v) (status v) (status_hidden v)
         (notes_top v) (notes_middle v) (notes_base v)
         (notes_hidden v) (cards v) (results_hidden v)
         extract find (sent v).

Definition record (url body : jstring) (v : View) : View :=
  mkView (scene v) (status v) (status_hidden v)
         (notes_top v) (notes_middle v) (notes_base v)
         (notes_hidden v) (cards v) (results_hidden v)
         (extract_disabled v) (find_disabled v) (sent v ++ [(url, body)]).

(** [showStatus]: an empty message hides the line. *)
Definition showStatus (msg : jstring) : act unit :=
  update (fun v => setStatus msg (negb (nonEmpty msg)) v).

Definition notIterable : JError := TypeError "arr is not iterable".

(** [pills]: the container is emptied first; the label is appended before
    the items are gone through. *)
Definition pills (c : Container) (arr : JValue) (label : string) : act unit :=
  andThen (update (setPills c []))
    (fun _ =>
       match arr with
       | JArr items =>
           match items with
           | [] => pure tt
           | _ :: _ => update (setPills c (Head (lit label) :: map Item items))
           end
       | JStr s =>
           match s with
           | [] => pure tt
           | _ :: _ =>
               update (setPills c (Head (lit label)
                                   :: map (fun p => Item (JStr p)) (codePoints s)))
           end
       | JObj props =>
           if falsy (lookupProp props (lit "length")) then pure tt
           else andThen (update (setPills c [Head (lit label)]))
                        (fun _ => raise notIterable)
       | JFun _ arity =>
           if Z.eqb arity 0 then pure tt
           else andThen (update (setPills c [Head (lit label)]))
                        (fun _ => raise notIterable)
       | _ => pure tt
       end).

(** [renderNotes] *)
Definition renderNotes (notes : JValue) : act unit :=
  andThen (lift (getProp notes "top")) (fun t =>
  andThen (pills NotesTop t "Top") (fun _ =>
  andThen (lift (getProp notes "middle")) (fun m =>
  andThen (pills NotesMiddle m "Middle") (fun _ =>
  andThen (lift (getProp notes "base")) (fun b =>
  andThen (pills NotesBase b "Base") (fun _ =>
  update (setNotesHidden false))))))).

(** What the script reads of the answer to [fetch]. *)
Record FetchResponse : Type := mkFetchResponse {
  res_ok : bool;
  res_statusText : jstring;
  res_text : result jstring;     (** [await res.text()] *)
  res_json : result JValue       (** [await res.json()] *)
}.

Section Model.

(** [fetch(url, { method: 'POST', ..., body })] *)
Variable fetch : jstring -> jstring -> result FetchResponse.
(** [JSON.stringify] *)
Variable JSON_stringify : JValue -> jstring.
(** [String(v)], also the text a template puts in for [v]. *)
Variable toText : JValue -> jstring.

(** [postJSON] *)
Definition postJSON (url : string) (body : JValue) : act JValue :=
  andThen (update (record (lit url) (JSON_stringify body))) (fun _ =>
  lift (bind (fetch (lit url) (JSON_stringify body)) (fun res =>
          if negb (res_ok res)
          then bind (res_text res) (fun text =>
                 throw (mkError (lit "Error")
                                (if nonEmpty text then text
                                 else res_statusText res)))
          else res_json res))).

(** The [innerHTML] given to the card of a suggestion. *)
Definition cardOf (s : JValue) : result jstring :=
  bind (getProp s "title") (fun title =>
  bind (getProp s "snippet") (fun snippet =>
  bind (getProp s "url") (fun url =>
  bind (getProp s "price") (fun price =>
    ret ([NEWLINE] ++ lit "      <h3>"
         ++ escapeHtml (toText (orValue title (JStr (lit "Result"))))
         ++ lit "</h3>" ++ [NEWLINE] ++ lit "      <p>"
         ++ escapeHtml (toText (orValue snippet (JStr [])))
         ++ lit "</p>" ++ [NEWLINE] ++ lit "      <div class=" ++ [QUOTE]
         ++ lit "meta" ++ [QUOTE] ++ lit ">" ++ [NEWLINE]
         ++ lit "        <a href=" ++ [QUOTE] ++ toText url ++ [QUOTE]
         ++ lit " target=" ++ [QUOTE] ++ lit "_blank" ++ [QUOTE]
         ++ lit " rel=" ++ [QUOTE] ++ lit "noopener noreferrer" ++ [QUOTE]
         ++ lit ">Open</a>" ++ [NEWLINE] ++ lit "        <span>"
         ++ (if falsy price then [] else escapeHtml (toText price))
         ++ lit "</span>" ++ [NEWLINE] ++ lit "      </div>" ++ [NEWLINE]
         ++ lit "    "))))).

(** The loop of [renderResults]: a card is appended for each item until
    one throws. *)
Fixpoint appendCards (items : list JValue) : act unit :=
  match items with
  | [] => pure tt
  | s :: r =>
      andThen (lift (cardOf s)) (fun html =>
      andThen (update (fun v => setCards (cards v ++ [html]) v)) (fun _ =>
      appendCards r))
  end.

(** [renderResults] *)
Definition renderResults (suggestions : JValue) : act unit :=
  andThen (update (setCards [])) (fun _ =>
  andThen (match suggestions with
           | JArr items => appendCards items
           | JStr s => appendCards (map JStr (codePoints s))
           | _ => raise (TypeError "suggestions is not iterable")
           end) (fun _ =>
  update (setResultsHidden false))).

Definition sceneBody (s : jstring) : JValue := JObj [(lit "scene", JStr s)].
Definition notesBody (notes : JValue) : JValue := JObj [(lit "notes", notes)].

(** [onExtract] *)
Definition onExtract : act unit :=
  fun v =>
    let s := trim (scene v) in
    if negb (nonEmpty s) then showStatus (lit "Enter a scene description.") v
    else
      andThen (showStatus (lit "Extracting notes locally...")) (fun _ =>
      catching
        (andThen (postJSON "/api/extract-notes" (sceneBody s)) (fun reply =>
         andThen (lift (getProp reply "notes")) (fun notes =>
         andThen (renderNotes notes) (fun _ =>
         showStatus (lit "Notes extracted. You can now search.")))))
        (fun e => showStatus (lit "Error: " ++ err_message e))) v.

(** [onFind] *)
Definition onFind : act unit :=
  fun v =>
    let s := trim (scene v) in
    if negb (nonEmpty s) then showStatus (lit "Enter a scene description.") v
    else
      andThen (update (setDisabled true true)) (fun _ =>
      finally
        (catching
           (andThen (showStatus (lit "Extracting notes locally...")) (fun _ =>
            andThen (postJSON "/api/extract-notes" (sceneBody s)) (fun reply =>
            andThen (lift (getProp reply "notes")) (fun notes =>
            andThen (renderNotes notes) (fun _ =>
            andThen (showStatus (lit "Searching fragrances...")) (fun _ =>
            catching
              (andThen (postJSON "/api/search" (notesBody notes)) (fun found =>
               andThen (lift (getProp found "suggestions")) (fun suggestions =>
               andThen (renderResults suggestions) (fun _ =>
               showStatus (lit "Done.")))))
              (fun searchErr =>
                 showStatus (lit "Notes extracted. Search error: "
                             ++ err_message searchErr))))))))
           (fun e =>
              showStatus (lit "Error during note extraction: "
                          ++ err_message e)))
        (setDisabled false false)) v.

End Model.

End Client.

(* ================================================================== *)
(** * The routes of the server *)
(* ================================================================== *)

Module Server.

Import Notes.
Local Open Scope js_scope.

(** What a route answers with. *)
Inductive Reply (A : Type) : Type :=
| Json (body : A)                        (** [res.json(body)] *)
| Status (code : Z) (error : jstring).   (** [res.status(code).json({ error })] *)

Arguments Json {A} body.
Arguments Status {A} code error.

(** The [try] of a route with its [catch], which answers 500 with the text
    of the error. *)
Definition answer {A} (handler : result (Reply A)) : Reply A :=
  match handler with
  | inr r => r
  | inl e => Status 500 (errorText e)
  end.

(** [const { k } = req.body || {}] *)
Definition field (body : JValue) (k : Key) : JValue :=
  optProp (orValue body (JObj [])) k.

(** [!scene || typeof scene !== 'string' || scene.length < 5] *)
Definition sceneRejected (scene : JValue) : bool :=
  falsy scene || negb (isString scene)
  || match scene with
     | JStr s => (List.length s <? 5)%nat
     | _ => false
     end.

(** [typeof v === 'object'] *)
Definition isObject (v : JValue) : bool :=
  match v with
  | JNull | JArr _ | JObj _ => true
  | _ => false
  end.

(** [!notes || typeof notes !== 'object'] *)
Definition notesRejected (notes : JValue) : bool :=
  falsy notes || negb (isObject notes).

Definition sceneText (scene : JValue) : jstring :=
  match scene with
  | JStr s => s
  | _ => []
  end.

Definition sceneMessage : jstring :=
  lit "Provide a scene description (min 5 chars).".

Definition notesMessage : jstring := lit "Provide notes {top, middle, base}.".

Section Model.

Variable env : Query.Env.
Variable customsearch : Query.SearchRequest -> result JValue.
Variable axios_get : JValue -> result Scrape.Response.
Variable cheerioLoad : jstring -> result Scrape.Page.
Variable toLowerCase : jstring -> jstring.
Variable ollama_generate : jstring -> result JValue.
Variable JSON_parse : jstring -> result JValue.
(** The text [Array.prototype.join] gives an element of an array. *)
Variable elementText : JValue -> jstring.

(** [(v || []).slice(0, 3).join(' ')]: a string can be sliced but not
    joined, and what is neither an array nor a string cannot be sliced. *)
Definition firstThree (v : JValue) : result jstring :=
  match orValue v (JArr []) with
  | JArr items => ret (join [SPACE] (map elementText (slice0 3 items)))
  | JStr _ => throw (TypeError "slice(...).join is not a function")
  | _ => throw (TypeError "slice is not a function")
  end.

(** [v.join(' ')] *)
Definition joined (v : JValue) : result jstring :=
  match v with
  | JArr items => ret (join [SPACE] (map elementText items))
  | _ => throw (TypeError "join is not a function")
  end.

(** [buildPerfumeQueryFromNotes] on the value of the request, as
    [/api/search] calls it. *)
Definition buildPerfumeQueryFromNotes (notes : JValue) : result jstring :=
  ptop <- getProp notes "top" ;;
  top <- firstThree ptop ;;
  pmid <- getProp notes "middle" ;;
  mid <- firstThree pmid ;;
  pbase <- getProp notes "base" ;;
  base <- firstThree pbase ;;
  let q := trim (collapseWhitespace
                   (top ++ lit " " ++ mid ++ lit " " ++ base
                    ++ lit " perfume with price")) in
  if (List.length q <? 10)%nat
  then
    all <- joined (orValue pmid (orValue ptop (orValue pbase (JArr [])))) ;;
    ret (all ++ lit " perfume")
  else ret q.

(** [app.post('/api/extract-notes', ...)] *)
Definition apiExtractNotes (body : JValue) : Reply NoteSet :=
  answer
    (let scene := field body "scene" in
     if sceneRejected scene then ret (Status 400 sceneMessage)
     else
       notes <- ollamaNotesFromScene toLowerCase ollama_generate JSON_parse
                                     (sceneText scene) ;;
       ret (Json notes)).

(** [app.post('/api/search', ...)] *)
Definition apiSearch (body : JValue)
  : Reply (jstring * list Routes.Suggestion) :=
  answer
    (let notes := field body "notes" in
     if notesRejected notes then ret (Status 400 notesMessage)
     else
       query <- buildPerfumeQueryFromNotes notes ;;
       results <- snd (Query.googleSearch env customsearch query 6) ;;
       suggestions <- Routes.suggestionsFor axios_get cheerioLoad results ;;
       ret (Json (query, suggestions))).

(** [app.post('/api/find', ...)] *)
Definition apiFind (body : JValue)
  : Reply (NoteSet * jstring * list Routes.Suggestion) :=
  answer
    (let scene := field body "scene" in
     if sceneRejected scene then ret (Status 400 sceneMessage)
     else
       found <- Routes.findRoute env customsearch axios_get cheerioLoad
                                 toLowerCase ollama_generate JSON_parse
                                 (sceneText scene) ;;
       ret (Json found)).

End Model.

End Server.

(* ================================================================== *)
(** * Further samples *)
(* ================================================================== *)

Module Samples.

(** A reply whose JSON object has a string where the array of top notes
    should be, and a [JSON.parse] that reads it. *)
Definition looseJSON : jstring :=
  lit "{" ++ Examples.quoted "top" ++ lit ":" ++ Examples.quoted "rose"
  ++ lit "}".

Definition looseReply : JValue := JObj [(lit "response", JStr looseJSON)].

Definition parseLoose (text : jstring) : result JValue :=
  if jstring_eqb text looseJSON
  then inr (JObj [(lit "top", JStr (lit "rose"))])
  else inl (mkError (lit "SyntaxError") (lit "Unexpected token")).

(** A reply in plain words with the three labels, each on its own line
    and followed by its notes. *)
Definition labelledReply : JValue :=
  JObj [(lit "response",
         JStr (lit "Top: " ++ [NEWLINE] ++ lit "Bergamot, Lemon" ++ [NEWLINE]
               ++ lit "Middle:" ++ [NEWLINE] ++ lit "Rose" ++ [NEWLINE]
               ++ lit "Base:" ++ [NEWLINE] ++ lit "Musk, Amber"))].

(** The text [join] gives a string element, and the one it gives [null]
    and [undefined]. *)
Definition stringText (v : JValue) : jstring :=
  match v with
  | JStr s => s
  | _ => []
  end.

(** What the page shows when it is loaded, with a scene typed in. *)
Definition startView : Client.View :=
  Client.mkView (lit "  a rainy garden ") [] true [] [] [] true [] true
                false false [].

(** A stand-in for [JSON.stringify]: the name of the property sent. *)
Definition bodyText (body : JValue) : jstring :=
  match body with
  | JObj ((k, _) :: _) => k
  | _ => []
  end.

Definition notesAnswer : JValue :=
  JObj [(lit "notes",
         JObj [(lit "top", Notes.strings [lit "bergamot"]);
               (lit "middle", Notes.strings []);
               (lit "base", Notes.strings [lit "musk"])])].

Definition suggestionsAnswer : JValue :=
  JObj [(lit "suggestions",
         JArr [JObj [(lit "title", JStr (lit "Rose & Musk"));
                     (lit "url", JStr Examples.roseUrl);
                     (lit "snippet", JStr (lit "..."));
                     (lit "price", JStr (lit "$20"))]])].

(** A server that is not there, one whose search fails, and one that
    answers both requests. *)
Definition fetchNothing (url body : jstring) : result Client.FetchResponse :=
  inl (mkError (lit "TypeError") (lit "Failed to fetch")).

Definition fetchNotesOnly (url body : jstring) : result Client.FetchResponse :=
  if jstring_eqb url (lit "/api/extract-notes")
  then inr (Client.mkFetchResponse true (lit "OK") (inr []) (inr notesAnswer))
  else inr (Client.mkFetchResponse false (lit "Internal Server Error")
                                   (inr []) (inr JNull)).

Definition fetchAll (url body : jstring) : result Client.FetchResponse :=
  if jstring_eqb url (lit "/api/extract-notes")
  then inr (Client.mkFetchResponse true (lit "OK") (inr []) (inr notesAnswer))
  else inr (Client.mkFetchResponse true (lit "OK") (inr [])
                                   (inr suggestionsAnswer)).


End Samples.

(* ================================================================== *)
(** * Vocabulary of the further properties *)
(* ================================================================== *)

Module More.

Local Open Scope N_scope.

(** Whether the last unit of [s] is [c]. *)
Fixpoint lastIs (c : N) (s : jstring) : bool :=
  match s with
  | [] => false
  | [x] => x =? c
  | _ :: r => lastIs c r
  end.

(** [s] from its first [c] on. *)
Fixpoint fromFirst (c : N) (s : jstring) : option jstring :=
  match s with
  | [] => None
  | x :: r => if x =? c then Some s else fromFirst c r
  end.

(** A text in which white space is only the single space, never twice
    in a row, [prev] telling whether white space comes just before. *)
Fixpoint collapsedFrom (prev : bool) (s : jstring) : bool :=
  match s with
  | [] => true
  | c :: r =>
      if isWhiteSpace c
      then (c =? SPACE) && negb prev && collapsedFrom true r
      else collapsedFrom false r
  end.

(** The units the line scan lets through into a note: small letters and
    the space. *)
Definition noteUnit (c : N) : bool := (97 <=? c) && (c <=? 122) || (c =? SPACE).

(** The text [jsonMatch] hands to [JSON.parse], read directly: from the
    first opening brace to the end, when the text ends with a closing
    brace. *)
Definition jsonBlock (text : jstring) : option jstring :=
  if lastIs Notes.RBRACE text then fromFirst Notes.LBRACE text else None.

(** An array all of whose elements are strings. *)
Definition stringArray (v : JValue) : bool :=
  match v with
  | JArr items => forallb isString items
  | _ => false
  end.

(** A bucket [norm] accepts: a falsy value or an array of strings. *)
Definition bucketOk (parsed : JValue) (k : Key) : bool :=
  match parsed with
  | JUndefined | JNull => false
  | _ => falsy (Notes.optProp parsed k) || stringArray (Notes.optProp parsed k)
  end.

(** The Search Result made of an item of the provider's reply. *)
Definition resultOf (it : JValue) : Query.SearchResult :=
  Query.mkSearchResult (Notes.optProp it "title") (Notes.optProp it "link")
                       (Notes.optProp it "snippet").

(** Neither [null] nor [undefined]. *)
Definition defined (v : JValue) : bool :=
  match v with
  | JUndefined | JNull => false
  | _ => true
  end.

(** The request [googleSearch] sends. *)
Definition requestFor (env : Query.Env) (query : jstring) (num : Z)
  : Query.SearchRequest :=
  Query.mkSearchRequest (Query.GOOGLE_API_KEY env) (Query.GOOGLE_CSE_CX env)
                        (Query.buildSiteQuery env query) num
                        (lit "active") (lit "lang_en").

(** The allow-list when [SEARCH_DOMAINS] is not set. *)
Definition defaultDomains : list jstring :=
  [lit "fragrantica.com"; lit "parfumo.net"; lit "basenotes.com"].

(** The object a client sends for a Note Set argument: a property for
    each bucket there is, holding the array of its notes. *)
Definition bucketProps (k : string) (b : option (list jstring))
  : list (jstring * JValue) :=
  match b with
  | Some l => [(lit k, Notes.strings l)]
  | None => []
  end.

Definition notesValue (arg : Query.NotesArg) : JValue :=
  JObj (bucketProps "top" (Query.arg_top arg)
        ++ bucketProps "middle" (Query.arg_middle arg)
        ++ bucketProps "base" (Query.arg_base arg)).

(** The value of a bucket of that object. *)
Definition bucketValue (b : option (list jstring)) : JValue :=
  match b with
  | Some l => Notes.strings l
  | None => JUndefined
  end.

(** A scene the routes accept: a string of five units or more. *)
Definition sceneAccepted (scene : JValue) (s : jstring) : Prop :=
  scene = JStr s /\ (5 <= List.length s)%nat.

(** A unit that cannot open or close a tag or an attribute value. *)
Definition inert (c : N) : bool :=
  negb ((c =? Client.LT) || (c =? Client.GT) || (c =? Client.QUOTE)).

(** The entity of a special unit, and every other unit as it is. *)
Definition encodeUnit (c : N) : jstring :=
  if Client.isSpecial c then Client.entityOf [c] else [c].

(** A text in which no two special units are neighbours, [prev] telling
    whether a special unit comes just before. *)
Fixpoint isolatedFrom (prev : bool) (s : jstring) : bool :=
  match s with
  | [] => true
  | c :: r =>
      if Client.isSpecial c then negb prev && isolatedFrom true r
      else isolatedFrom false r
  end.

(** A text that is empty or ends with a unit that is not special, and
    one that is empty or begins with such a unit. *)
Definition endsPlain (a : jstring) : Prop :=
  a = [] \/ exists a' c, a = a' ++ [c] /\ Client.isSpecial c = false.

Definition beginsPlain (b : jstring) : Prop :=
  b = [] \/ exists c b', b = c :: b' /\ Client.isSpecial c = false.

(** What [postJSON] returns or throws for a request: the answer of the
    server read as JSON, or an error with the text of a failed answer. *)
Definition replyTo (fetch : jstring -> jstring -> result Client.FetchResponse)
                   (JSON_stringify : JValue -> jstring)
                   (url : string) (body : JValue) : result JValue :=
  bind (fetch (lit url) (JSON_stringify body)) (fun res =>
    if negb (Client.res_ok res)
    then bind (Client.res_text res) (fun text =>
           throw (mkError (lit "Error")
                          (if nonEmpty text then text
                           else Client.res_statusText res)))
    else Client.res_json res).

(** The two requests of the page, as [sent] records them. *)
Definition extractRequest (JSON_stringify : JValue -> jstring) (s : jstring)
  : jstring * jstring :=
  (lit "/api/extract-notes", JSON_stringify (Client.sceneBody s)).

Definition searchRequest (JSON_stringify : JValue -> jstring) (notes : JValue)
  : jstring * jstring :=
  (lit "/api/search", JSON_stringify (Client.notesBody notes)).

(** Everything of the view but the pills of the notes and whether the
    notes are shown. *)
Definition besidesNotes (v v' : Client.View) : Prop :=
  Client.scene v' = Client.scene v
  /\ Client.status v' = Client.status v
  /\ Client.status_hidden v' = Client.status_hidden v
  /\ Client.cards v' = Client.cards v
  /\ Client.results_hidden v' = Client.results_hidden v
  /\ Client.extract_disabled v' = Client.extract_disabled v
  /\ Client.find_disabled v' = Client.find_disabled v
  /\ Client.sent v' = Client.sent v.

(** Everything of the view but the cards and whether the results are
    shown. *)
Definition besidesResults (v v' : Client.View) : Prop :=
  Client.scene v' = Client.scene v
  /\ Client.status v' = Client.status v
  /\ Client.status_hidden v' = Client.status_hidden v
  /\ Client.notes_top v' = Client.notes_top v
  /\ Client.notes_middle v' = Client.notes_middle v
  /\ Client.notes_base v' = Client.notes_base v
  /\ Client.notes_hidden v' = Client.notes_hidden v
  /\ Client.extract_disabled v' = Client.extract_disabled v
  /\ Client.find_disabled v' = Client.find_disabled v
  /\ Client.sent v' = Client.sent v.

(** A bucket on which [pills] throws: an object with a truthy [length]. *)
Definition pillsThrow (arr : JValue) : bool :=
  match arr with
  | JObj props => negb (falsy (Notes.lookupProp props (lit "length")))
  | JFun _ arity => negb (Z.eqb arity 0)
  | _ => false
  end.

(** Notes that [renderNotes] can show. *)
Definition renderable (notes : JValue) : bool :=
  defined notes
  && negb (pillsThrow (Notes.optProp notes "top"))
  && negb (pillsThrow (Notes.optProp notes "middle"))
  && negb (pillsThrow (Notes.optProp notes "base")).

(** The inner [try] of [onFind] with its [catch]: searching with the
    notes and showing the results. *)
Definition searchStage (fetch : jstring -> jstring -> result Client.FetchResponse)
                       (JSON_stringify toText : JValue -> jstring)
                       (notes : JValue) : Client.act unit :=
  Client.catching
    (Client.andThen
       (Client.postJSON fetch JSON_stringify "/api/search"
                        (Client.notesBody notes))
       (fun found =>
          Client.andThen (Client.lift (Notes.getProp found "suggestions"))
            (fun suggestions =>
               Client.andThen (Client.renderResults toText suggestions)
                 (fun _ => Client.showStatus (lit "Done.")))))
    (fun searchErr =>
       Client.showStatus (lit "Notes extracted. Search error: "
                          ++ err_message searchErr)).

(** The outer [try] of [onFind], without its [catch]. *)
Definition extractStage (fetch : jstring -> jstring -> result Client.FetchResponse)
                        (JSON_stringify toText : JValue -> jstring)
                        (s : jstring) : Client.act unit :=
  Client.andThen (Client.showStatus (lit "Extracting notes locally..."))
    (fun _ =>
       Client.andThen
         (Client.postJSON fetch JSON_stringify "/api/extract-notes"
                          (Client.sceneBody s))
         (fun reply =>
            Client.andThen (Client.lift (Notes.getProp reply "notes"))
              (fun notes =>
                 Client.andThen (Client.renderNotes notes)
                   (fun _ =>
                      Client.andThen
                        (Client.showStatus (lit "Searching fragrances..."))
                        (fun _ =>
                           searchStage fetch JSON_stringify toText notes))))).

(** The pills [pills] leaves in its container for an array: nothing for
    an empty one, otherwise the label and one pill per item, in order. *)
Definition pillsFor (items : list JValue) (label : string) : list Client.Pill :=
  match items with
  | [] => []
  | _ :: _ => Client.Head (lit label) :: map Client.Item items
  end.

(** The pills [pills] leaves in its container for a bucket on which it
    does not throw: those of an array; for a string that is not empty the
    label and one pill per code point; nothing for any other value. *)
Definition pillsShown (arr : JValue) (label : string) : list Client.Pill :=
  match arr with
  | JArr items => pillsFor items label
  | JStr [] => []
  | JStr s =>
      Client.Head (lit label)
      :: map (fun p => Client.Item (JStr p)) (Client.codePoints s)
  | _ => []
  end.


End More.

Import More.

(* ================================================================== *)
(** * Properties of the built-ins *)
(* ================================================================== *)

Unset Implicit Arguments.

Section Strings.

Local Open Scope N_scope.

Lemma nonEmpty_true (s : jstring) : nonEmpty s = true <-> s <> [].
Proof. destruct s; simpl; split; congruence. Qed.

Lemma nonEmpty_false (s : jstring) : nonEmpty s = false <-> s = [].
Proof. destruct s; simpl; split; congruence. Qed.

Lemma jstring_eqb_eq (a b : jstring) : jstring_eqb a b = true <-> a = b.
Proof.
  unfold jstring_eqb. destruct (list_eq_dec N.eq_dec a b); split; congruence.
Qed.

(** ** [trimStart], [trimEnd], [trim] *)

Lemma trimStart_keeps (P : jstring) (c : N) (R : jstring) :
  isWhiteSpace c = false ->
  exists P', trimStart (P ++ c :: R) = P' ++ c :: R.
Proof.
  intros Hc. induction P as [|x P IH]; simpl.
  - rewrite Hc. now exists [].
  - destruct (isWhiteSpace x).
    + exact IH.
    + now exists (x :: P).
Qed.

Lemma trimStart_split (s : jstring) :
  exists P, s = P ++ trimStart s /\ forallb isWhiteSpace P = true.
Proof.
  induction s as [|c s IH]; simpl.
  - now exists [].
  - destruct (isWhiteSpace c) eqn:Hc.
    + destruct IH as [P [HP HW]]. exists (c :: P). simpl.
      rewrite Hc, HW. split; [now f_equal | reflexivity].
    + now exists [].
Qed.

Lemma trimStart_head (s : jstring) (c : N) (r : jstring) :
  trimStart s = c :: r -> isWhiteSpace c = false.
Proof.
  induction s as [|x s IH]; simpl; [discriminate|].
  destruct (isWhiteSpace x) eqn:Hx; [exact IH|].
  intros H; injection H as <- _. exact Hx.
Qed.

Lemma trimStart_idem (s : jstring) : trimStart (trimStart s) = trimStart s.
Proof.
  destruct (trimStart s) as [|c r] eqn:E; [reflexivity|].
  simpl. now rewrite (trimStart_head _ _ _ E).
Qed.

Lemma trimEnd_snoc (L : jstring) (c : N) :
  isWhiteSpace c = false -> trimEnd (L ++ [c]) = L ++ [c].
Proof.
  intros Hc. unfold trimEnd. rewrite rev_app_distr. simpl. rewrite Hc.
  simpl. now rewrite rev_involutive.
Qed.

Lemma trimEnd_keeps (L : jstring) (c : N) (Q : jstring) :
  isWhiteSpace c = false ->
  exists Q', trimEnd (L ++ c :: Q) = L ++ c :: Q'.
Proof.
  intros Hc. unfold trimEnd.
  rewrite rev_app_distr. simpl. rewrite <- app_assoc. simpl.
  destruct (trimStart_keeps (rev Q) c (rev L) Hc) as [P' HP'].
  rewrite HP'. exists (rev P').
  rewrite rev_app_distr. simpl. rewrite rev_involutive.
  now rewrite <- app_assoc.
Qed.

Lemma trimEnd_split (s : jstring) :
  exists Q, s = trimEnd s ++ Q /\ forallb isWhiteSpace Q = true.
Proof.
  unfold trimEnd. destruct (trimStart_split (rev s)) as [P [HP HW]].
  exists (rev P). split.
  - rewrite <- rev_app_distr, <- HP. now rewrite rev_involutive.
  - rewrite forallb_forall in *. intros x Hx. apply HW. now apply in_rev.
Qed.

Lemma trimEnd_idem (s : jstring) : trimEnd (trimEnd s) = trimEnd s.
Proof.
  unfold trimEnd. now rewrite rev_involutive, trimStart_idem.
Qed.

Lemma trimEnd_last (s L : jstring) (c : N) :
  trimEnd s = L ++ [c] -> isWhiteSpace c = false.
Proof.
  unfold trimEnd. intros H.
  apply (f_equal (@rev N)) in H.
  rewrite rev_involutive, rev_app_distr in H. simpl in H.
  exact (trimStart_head _ _ _ H).
Qed.

Lemma trimStart_trimEnd (s : jstring) :
  trimStart (trimEnd (trimStart s)) = trimEnd (trimStart s).
Proof.
  destruct (trimStart s) as [|c r] eqn:E; [reflexivity|].
  pose proof (trimStart_head _ _ _ E) as Hc.
  destruct (trimEnd_keeps [] c r Hc) as [Q' HQ]. simpl in HQ.
  rewrite HQ. simpl. now rewrite Hc.
Qed.

Lemma trim_idem (s : jstring) : trim (trim s) = trim s.
Proof.
  unfold trim. now rewrite trimStart_trimEnd, trimEnd_idem.
Qed.

Lemma trim_split (s : jstring) :
  exists P Q, s = P ++ trim s ++ Q.
Proof.
  destruct (trimStart_split s) as [P [HP _]].
  destruct (trimEnd_split (trimStart s)) as [Q [HQ _]].
  exists P, Q. unfold trim. now rewrite <- HQ.
Qed.

Lemma trim_head (s : jstring) (c : N) (r : jstring) :
  trim s = c :: r -> isWhiteSpace c = false.
Proof.
  intros H. apply (trimStart_head (trim s) c r).
  unfold trim in *. now rewrite trimStart_trimEnd.
Qed.

Lemma trim_last (s L : jstring) (c : N) :
  trim s = L ++ [c] -> isWhiteSpace c = false.
Proof. unfold trim. apply trimEnd_last. Qed.

Lemma trim_keeps (P K Q : jstring) (h z : N) (K0 K1 : jstring) :
  K = h :: K1 -> K = K0 ++ [z] ->
  isWhiteSpace h = false -> isWhiteSpace z = false ->
  exists P' Q', trim (P ++ K ++ Q) = P' ++ K ++ Q'.
Proof.
  intros Hh Hz Wh Wz. unfold trim.
  assert (E1 : P ++ K ++ Q = P ++ h :: (K1 ++ Q)) by now rewrite Hh.
  destruct (trimStart_keeps P h (K1 ++ Q) Wh) as [P' HP'].
  rewrite E1, HP'.
  assert (E2 : P' ++ h :: K1 ++ Q = (P' ++ K0) ++ z :: Q).
  { change (h :: K1 ++ Q) with ((h :: K1) ++ Q).
    rewrite <- Hh, Hz, <- !app_assoc. reflexivity. }
  destruct (trimEnd_keeps (P' ++ K0) z Q Wz) as [Q' HQ'].
  rewrite E2, HQ'.
  exists P', Q'. rewrite Hz, <- !app_assoc. reflexivity.
Qed.

Lemma trim_Forall (P : N -> Prop) (s : jstring) :
  Forall P s -> Forall P (trim s).
Proof.
  intros H. destruct (trim_split s) as [A [B E]].
  rewrite E in H. apply Forall_app in H as [_ H].
  now apply Forall_app in H as [H _].
Qed.

(** ** [toLowerCase] *)

Lemma lowerUnit_idem (c : N) : lowerUnit (lowerUnit c) = lowerUnit c.
Proof.
  unfold lowerUnit.
  destruct ((65 <=? c) && (c <=? 90)) eqn:E; [|now rewrite E].
  apply andb_true_iff in E as [E1 E2].
  apply N.leb_le in E1, E2.
  replace (c + 32 <=? 90) with false by (symmetry; apply N.leb_gt; lia).
  now rewrite andb_false_r.
Qed.

(** The lowering of Basic Latin has the two properties asked of
    [toLowerCase]. *)
Lemma basicLower_LowerCase : LowerCase Examples.basicLower.
Proof.
  split; [reflexivity|]. intros x.
  assert (H : Forall (fun c => lowerUnit c = c)
                     (trim (Examples.basicLower x))).
  { apply trim_Forall. unfold Examples.basicLower. apply Forall_forall.
    intros c Hc. apply in_map_iff in Hc as [d [<- _]]. apply lowerUnit_idem. }
  unfold Examples.basicLower at 1.
  induction H as [|c l Hc _ IH]; simpl; [reflexivity|].
  now rewrite Hc, IH.
Qed.

(** ** [collapseWhitespace] *)

Lemma endsInSpace_cons (b : bool) (c : N) (x : jstring) :
  endsInSpace b (c :: x) = endsInSpace (isWhiteSpace c) x.
Proof.
  unfold endsInSpace. simpl.
  destruct (rev x) as [|y r] eqn:E; simpl; reflexivity.
Qed.

Lemma collapse_from_app (b : bool) (x y : jstring) :
  collapse_from b (x ++ y)
  = collapse_from b x ++ collapse_from (endsInSpace b x) y.
Proof.
  revert b. induction x as [|c x IH]; intros b; simpl.
  - reflexivity.
  - rewrite endsInSpace_cons.
    destruct (isWhiteSpace c) eqn:Hc.
    + destruct b; rewrite IH; reflexivity.
    + rewrite IH. reflexivity.
Qed.

Lemma collapse_from_nonws (b : bool) (c : N) (r : jstring) :
  isWhiteSpace c = false ->
  collapse_from b (c :: r) = c :: collapse_from false r.
Proof. intros Hc. simpl. now rewrite Hc. Qed.

Lemma collapse_from_last (b : bool) (L : jstring) (z : N) :
  isWhiteSpace z = false ->
  exists L', collapse_from b (L ++ [z]) = L' ++ [z].
Proof.
  intros Hz. rewrite collapse_from_app. simpl. rewrite Hz.
  now exists (collapse_from b L).
Qed.

(** ** [includes] *)

Lemma startsWith_app (p y : jstring) : startsWith p (p ++ y) = true.
Proof.
  induction p as [|a p IH]; simpl; [reflexivity|].
  now rewrite N.eqb_refl, IH.
Qed.

Lemma includes_unfold (s p : jstring) :
  includes s p
  = startsWith p s || match s with [] => false | _ :: r => includes r p end.
Proof. destruct s; reflexivity. Qed.

Lemma includes_infix (x p y : jstring) : includes (x ++ p ++ y) p = true.
Proof.
  induction x as [|c x IH]; simpl.
  - rewrite includes_unfold, startsWith_app. reflexivity.
  - rewrite IH. apply orb_true_r.
Qed.

Lemma startsWith_true (p s : jstring) :
  startsWith p s = true -> exists y, s = p ++ y.
Proof.
  revert s. induction p as [|a p IH]; intros s H; simpl in *.
  - now exists s.
  - destruct s as [|c s]; [discriminate|].
    apply andb_true_iff in H as [H1 H2]. apply N.eqb_eq in H1. subst c.
    destruct (IH _ H2) as [y ->]. now exists y.
Qed.

Lemma includes_true (s p : jstring) :
  includes s p = true -> exists x y, s = x ++ p ++ y.
Proof.
  induction s as [|c s IH]; simpl; intros H.
  - rewrite orb_false_r in H. destruct (startsWith_true _ _ H) as [y Hy].
    exists [], y. exact Hy.
  - apply orb_true_iff in H as [H|H].
    + destruct (startsWith_true _ _ H) as [y Hy]. now exists [], y.
    + destruct (IH H) as [x [y ->]]. now exists (c :: x), y.
Qed.

(** ** [uniq] *)

Lemma Set_has_In (s : list jstring) (x : jstring) :
  Set_has s x = true <-> In x s.
Proof.
  unfold Set_has. rewrite existsb_exists. split.
  - intros [y [Hy E]]. apply jstring_eqb_eq in E. now subst.
  - intros H. exists x. split; [exact H | now apply jstring_eqb_eq].
Qed.

Lemma Set_add_NoDup (s : list jstring) (x : jstring) :
  NoDup s -> NoDup (Set_add s x).
Proof.
  intros H. unfold Set_add. destruct (Set_has s x) eqn:E; [exact H|].
  apply NoDup_app; [exact H | repeat constructor; intros [] | ].
  intros y Hy [<-|[]].
  apply Set_has_In in Hy. congruence.
Qed.

Lemma Set_add_In (s : list jstring) (x y : jstring) :
  In y (Set_add s x) <-> In y s \/ y = x.
Proof.
  unfold Set_add. destruct (Set_has s x) eqn:E.
  - apply Set_has_In in E. split; [now left | intros [H| ->]; assumption].
  - rewrite in_app_iff. simpl. intuition congruence.
Qed.

Lemma fold_Set_add_NoDup (arr s : list jstring) :
  NoDup s -> NoDup (fold_left Set_add arr s).
Proof.
  revert s. induction arr as [|x arr IH]; intros s H; simpl; [exact H|].
  apply IH. now apply Set_add_NoDup.
Qed.

Lemma fold_Set_add_In (arr s : list jstring) (y : jstring) :
  In y (fold_left Set_add arr s) <-> In y s \/ In y arr.
Proof.
  revert s. induction arr as [|x arr IH]; intros s; simpl; [tauto|].
  rewrite IH, Set_add_In. intuition congruence.
Qed.

Lemma uniq_NoDup (arr : list jstring) : NoDup (uniq arr).
Proof. apply fold_Set_add_NoDup. constructor. Qed.

Lemma uniq_In (arr : list jstring) (y : jstring) : In y (uniq arr) <-> In y arr.
Proof. unfold uniq. rewrite fold_Set_add_In. simpl. tauto. Qed.

End Strings.

(* ================================================================== *)
(** * Note Set normalization *)
(* ================================================================== *)

Section NoteSets.

Import Notes.

Lemma NoDup_firstn {A} (n : nat) (l : list A) : NoDup l -> NoDup (firstn n l).
Proof.
  intros H. rewrite <- (firstn_skipn n l) in H.
  exact (NoDup_app_remove_r _ _ H).
Qed.

Lemma In_firstn {A} (n : nat) (l : list A) (x : A) :
  In x (firstn n l) -> In x l.
Proof.
  intros H. rewrite <- (firstn_skipn n l). apply in_or_app. now left.
Qed.

Variable toLowerCase : jstring -> jstring.

Local Abbreviation lowerTrim := (Notes.lowerTrim toLowerCase).
Local Abbreviation norm := (Notes.norm toLowerCase).
Local Abbreviation lowered := (Spec.lowered toLowerCase).
Local Abbreviation normStrings := (Spec.normStrings toLowerCase).
Local Abbreviation normalized := (Spec.normalized toLowerCase).

Lemma mapM_lowerTrim_strings (l : list jstring) :
  mapM lowerTrim (map JStr l) = inr (map lowered l).
Proof.
  induction l as [|x l IH]; simpl; [reflexivity|].
  rewrite IH. reflexivity.
Qed.

Lemma mapM_lowerTrim_inv (items : list JValue) (l : list jstring) :
  mapM lowerTrim items = inr l ->
  exists xs, items = map JStr xs /\ l = map lowered xs.
Proof.
  revert l. induction items as [|v items IH]; intros l H; simpl in H.
  - injection H as <-. now exists [].
  - destruct v; simpl in H; try discriminate.
    destruct (mapM lowerTrim items) as [e|ys] eqn:E; simpl in H; [discriminate|].
    injection H as <-.
    destruct (IH ys eq_refl) as [xs [-> ->]].
    now exists (s :: xs).
Qed.

Lemma normStrings_normalized (xs : list jstring) :
  LowerCase toLowerCase -> normalized (normStrings xs).
Proof.
  intros [_ Hfixed].
  unfold Spec.normalized, Spec.normStrings, slice0, filterBoolean.
  repeat split.
  - apply NoDup_firstn, NoDup_filter, uniq_NoDup.
  - apply firstn_le_length.
  - apply Forall_forall. intros e He.
    apply In_firstn in He. apply filter_In in He as [He Hne].
    apply (proj1 (uniq_In _ _)) in He. apply in_map_iff in He as [x [<- _]].
    repeat split.
    + now apply nonEmpty_true.
    + apply Hfixed.
    + apply trim_idem.
Qed.

Lemma normStrings_from (xs : list jstring) (e : jstring) :
  In e (normStrings xs) -> exists x, In x xs /\ e = lowered x.
Proof.
  unfold Spec.normStrings, slice0, filterBoolean. intros He.
  apply In_firstn in He. apply filter_In in He as [He _].
  apply (proj1 (uniq_In _ _)) in He. apply in_map_iff in He as [x [<- Hx]].
  now exists x.
Qed.

(** A normalized form that is not in the result is empty, or the result
    is full. *)
Lemma normStrings_holds (xs : list jstring) (x : jstring) :
  In x xs -> lowered x <> [] ->
  In (lowered x) (normStrings xs) \/ List.length (normStrings xs) = 8%nat.
Proof.
  intros Hx Hne. unfold Spec.normStrings, slice0.
  set (l := filterBoolean (uniq (map lowered xs))).
  assert (Hin : In (lowered x) l).
  { apply filter_In. split.
    - apply uniq_In. now apply in_map.
    - destruct (lowered x); [contradiction | reflexivity]. }
  destruct (Nat.le_gt_cases (List.length l) 8) as [Hle|Hgt].
  - left. now rewrite firstn_all2.
  - right. apply firstn_length_le. lia.
Qed.

Lemma norm_strings (xs : list jstring) :
  norm (strings xs) = inr (normStrings xs).
Proof.
  unfold Notes.norm, strings, orValue. simpl.
  rewrite mapM_lowerTrim_strings. reflexivity.
Qed.

Lemma norm_inv (arr : JValue) (l : list jstring) :
  norm arr = inr l ->
  exists xs, l = normStrings xs /\ (arr = strings xs \/ (falsy arr = true /\ xs = [])).
Proof.
  unfold Notes.norm, orValue. intros H.
  destruct (falsy arr) eqn:F.
  - simpl in H. injection H as <-. exists []. split; [reflexivity|]. now right.
  - destruct arr; try discriminate.
    destruct (mapM lowerTrim items) as [e|ys] eqn:E; simpl in H; [discriminate|].
    injection H as <-.
    destruct (mapM_lowerTrim_inv _ _ E) as [xs [-> ->]].
    exists xs. split; [reflexivity|]. now left.
Qed.

Lemma norm_normalized (arr : JValue) (l : list jstring) :
  LowerCase toLowerCase -> norm arr = inr l -> normalized l.
Proof.
  intros HL H. destruct (norm_inv _ _ H) as [xs [-> _]].
  now apply normStrings_normalized.
Qed.

End NoteSets.

(** One step of a computation in [result]: a [bind] whose first part has
    settled. *)
Ltac step := cbv beta iota zeta delta [bind ret].

Section ExtractNotes.

Import Notes.

Variable toLowerCase : jstring -> jstring.
Variable ollama_generate : jstring -> result JValue.
Variable JSON_parse : jstring -> result JValue.

Local Abbreviation norm := (Notes.norm toLowerCase).
Local Abbreviation normStrings := (Spec.normStrings toLowerCase).
Local Abbreviation normalized := (Spec.normalized toLowerCase).
Local Abbreviation fallbackParse := (Notes.fallbackParse toLowerCase).
Local Abbreviation parseReply := (Notes.parseReply toLowerCase JSON_parse).
Local Abbreviation ollamaNotesFromScene :=
  (Notes.ollamaNotesFromScene toLowerCase ollama_generate JSON_parse).

Lemma fallbackParse_top (text : jstring) :
  getProp (fallbackParse text) "top"
  = inr (strings (bucket (splitLines (toLowerCase text)) "top")).
Proof. reflexivity. Qed.

Lemma fallbackParse_middle (text : jstring) :
  getProp (fallbackParse text) "middle"
  = inr (strings (bucket (splitLines (toLowerCase text)) "middle")).
Proof. reflexivity. Qed.

Lemma fallbackParse_base (text : jstring) :
  getProp (fallbackParse text) "base"
  = inr (strings (bucket (splitLines (toLowerCase text)) "base")).
Proof. reflexivity. Qed.

Lemma parseReply_fallback (text : jstring) :
  (exists e, JSON_parse (parsedText text) = inl e) ->
  parseReply text = fallbackParse text.
Proof.
  intros [e H]. unfold Notes.parseReply, parsedText in *.
  destruct (jsonMatch text) as [block|]; now rewrite H.
Qed.

(** When [JSON.parse] rejects what it is handed, the line scan always
    produces a Note Set. *)
Lemma ollamaNotesFromScene_fallback (scene : jstring) (data : JValue) (t : jstring) :
  ollama_generate (promptFor scene) = inr data ->
  orValue (optProp data "response") (JStr []) = JStr t ->
  (exists e, JSON_parse (parsedText (trim t)) = inl e) ->
  let lines := splitLines (toLowerCase (trim t)) in
  ollamaNotesFromScene scene
  = inr (mkNoteSet (normStrings (bucket lines "top"))
                   (normStrings (bucket lines "middle"))
                   (normStrings (bucket lines "base"))).
Proof.
  intros Hd Ht HJ lines. unfold Notes.ollamaNotesFromScene.
  rewrite Hd. step. rewrite Ht. step.
  rewrite (parseReply_fallback _ HJ).
  rewrite fallbackParse_top. step. rewrite norm_strings. step.
  rewrite fallbackParse_middle. step. rewrite norm_strings. step.
  rewrite fallbackParse_base. step. rewrite norm_strings. step.
  reflexivity.
Qed.

(** A returned Note Set holds what [norm] makes of the three buckets of
    what was parsed. *)
Lemma ollamaNotesFromScene_inv (scene : jstring) (ns : NoteSet) :
  ollamaNotesFromScene scene = inr ns ->
  exists data t,
    ollama_generate (promptFor scene) = inr data
    /\ orValue (optProp data "response") (JStr []) = JStr t
    /\ norm (optProp (parseReply (trim t)) "top") = inr (top ns)
    /\ norm (optProp (parseReply (trim t)) "middle") = inr (middle ns)
    /\ norm (optProp (parseReply (trim t)) "base") = inr (base ns).
Proof.
  unfold Notes.ollamaNotesFromScene, bind. intros H.
  destruct (ollama_generate (promptFor scene)) as [e|data]; [discriminate|].
  exists data.
  destruct (orValue (optProp data "response") (JStr [])) as [| | | |t| | |];
    try discriminate.
  exists t. cbv beta iota delta [ret] in H.
  set (parsed := Notes.parseReply toLowerCase JSON_parse (trim t)) in *.
  assert (Hcase : (exists e, forall k, getProp parsed k = inl e)
                  \/ (forall k, getProp parsed k = inr (optProp parsed k))).
  { destruct parsed; try (right; reflexivity); left; eexists; reflexivity. }
  destruct Hcase as [[e He]|Hg]; [rewrite He in H; discriminate|].
  rewrite !Hg in H. cbv beta iota in H.
  destruct (Notes.norm toLowerCase (optProp parsed "top")) as [e|ntop];
    [discriminate|].
  cbv beta iota in H.
  destruct (Notes.norm toLowerCase (optProp parsed "middle")) as [e|nmid];
    [discriminate|].
  cbv beta iota in H.
  destruct (Notes.norm toLowerCase (optProp parsed "base")) as [e|nbase];
    [discriminate|].
  injection H as <-. simpl. repeat split.
Qed.

Lemma ollamaNotesFromScene_normalized (scene : jstring) (ns : NoteSet) :
  LowerCase toLowerCase ->
  ollamaNotesFromScene scene = inr ns ->
  normalized (top ns) /\ normalized (middle ns) /\ normalized (base ns).
Proof.
  intros HL H.
  destruct (ollamaNotesFromScene_inv _ _ H) as [data [t [_ [_ [H1 [H2 H3]]]]]].
  repeat split; eapply norm_normalized; eassumption.
Qed.

End ExtractNotes.

(** C2. Every bucket of the Note Set [ollamaNotesFromScene] returns is
    normalized, whichever way the reply was parsed: it is what [norm]
    makes of the bucket of what was parsed. The result of [norm] on an
    array of strings is exactly the distinct non-empty lower-cased,
    trimmed forms of its elements in the order of their first occurrence,
    cut after the eighth: no entry occurs twice, there are at most eight,
    each entry is non-empty, trimmed and the form of an element, and the
    form of an element is left out only when it is empty or eight entries
    come before it. When [JSON.parse] rejects what it is handed the line
    scan still produces a Note Set. [toLowerCase] is the engine's. Given
    the two properties of [LowerCase], each entry is also its own
    lower-cased form, and the array ["Rose", " rose ", "ROSE"] is
    normalized to the single entry "rose". *)
Theorem extractNotes_buckets_normalized :
  forall toLowerCase,
    (forall ollama_generate JSON_parse scene ns,
        Notes.ollamaNotesFromScene toLowerCase ollama_generate JSON_parse scene
        = inr ns ->
        exists data t,
          ollama_generate (Notes.promptFor scene) = inr data
          /\ Notes.orValue (Notes.optProp data "response") (JStr []) = JStr t
          /\ let parsed := Notes.parseReply toLowerCase JSON_parse (trim t) in
             Notes.norm toLowerCase (Notes.optProp parsed "top")
             = inr (Notes.top ns)
             /\ Notes.norm toLowerCase (Notes.optProp parsed "middle")
                = inr (Notes.middle ns)
             /\ Notes.norm toLowerCase (Notes.optProp parsed "base")
                = inr (Notes.base ns))
    /\ (forall arr l,
           Notes.norm toLowerCase arr = inr l ->
           NoDup l
           /\ (List.length l <= 8)%nat
           /\ (forall e, In e l -> e <> [] /\ trim e = e)
           /\ exists xs,
                (arr = Notes.strings xs \/ (falsy arr = true /\ xs = []))
                /\ l = slice0 8 (filterBoolean
                                   (uniq (map (lowered toLowerCase) xs)))
                /\ (forall e, In e l ->
                      exists x, In x xs /\ e = trim (toLowerCase x))
                /\ (forall x, In x xs -> trim (toLowerCase x) <> [] ->
                      In (trim (toLowerCase x)) l \/ List.length l = 8%nat))
    /\ (forall ollama_generate JSON_parse scene data t,
           ollama_generate (Notes.promptFor scene) = inr data ->
           Notes.orValue (Notes.optProp data "response") (JStr []) = JStr t ->
           (exists e, JSON_parse (parsedText (trim t)) = inl e) ->
           exists ns,
             Notes.ollamaNotesFromScene toLowerCase ollama_generate JSON_parse
                                        scene = inr ns)
    /\ (LowerCase toLowerCase ->
        (forall ollama_generate JSON_parse scene ns,
            Notes.ollamaNotesFromScene toLowerCase ollama_generate JSON_parse
                                       scene = inr ns ->
            normalized toLowerCase (Notes.top ns)
            /\ normalized toLowerCase (Notes.middle ns)
            /\ normalized toLowerCase (Notes.base ns))
        /\ (forall arr l,
               Notes.norm toLowerCase arr = inr l -> normalized toLowerCase l)
        /\ Notes.norm toLowerCase
                      (Notes.strings [lit "Rose"; lit " rose "; lit "ROSE"])
           = inr [lit "rose"]).
Proof.
  intros toLowerCase.
  split; [|split; [|split]].
  - intros og jp scene ns H.
    destruct (ollamaNotesFromScene_inv _ _ _ _ _ H)
      as [data [t [Hd [Ht Hn]]]].
    exists data, t. repeat split; tauto.
  - intros arr l H.
    destruct (norm_inv _ _ _ H) as [xs [-> Harr]].
    split; [apply NoDup_firstn, NoDup_filter, uniq_NoDup|].
    split; [apply firstn_le_length|]. split.
    + intros e He. destruct (normStrings_from _ _ _ He) as [x [_ ->]].
      split; [|apply trim_idem].
      apply In_firstn in He. apply filter_In in He as [_ Hne].
      now apply nonEmpty_true.
    + exists xs. split; [exact Harr|]. split; [reflexivity|]. split.
      * intros e He. exact (normStrings_from _ _ _ He).
      * intros x Hx Hne. exact (normStrings_holds _ _ _ Hx Hne).
  - intros og jp scene data t Hd Ht HJ. eexists.
    eapply ollamaNotesFromScene_fallback; eassumption.
  - intros HL. split; [|split].
    + intros og jp scene ns H.
      eapply ollamaNotesFromScene_normalized; eassumption.
    + intros arr l H. eapply norm_normalized; eassumption.
    + rewrite norm_strings. unfold normStrings, lowered. simpl map.
      rewrite (lower_basicLatin HL (lit "Rose") eq_refl).
      rewrite (lower_basicLatin HL (lit " rose ") eq_refl).
      rewrite (lower_basicLatin HL (lit "ROSE") eq_refl).
      reflexivity.
Qed.

Lemma extractNotes_buckets_normalized_witness :
  normalized Examples.basicLower [lit "rose"; lit "jasmine"]
  /\ normalized Examples.basicLower []
  /\ normalized Examples.basicLower [].
Proof.
  apply (proj1 (proj2 (proj2 (proj2 (extractNotes_buckets_normalized
                                       Examples.basicLower)))
                      basicLower_LowerCase)
               (fun _ => inr Examples.plainReply)
               Examples.noJSON
               (lit "a walk in a garden")
               (Notes.mkNoteSet [lit "rose"; lit "jasmine"] [] [])).
  vm_compute. reflexivity.
Defined.

(** A reply that ends with a JSON object is read through [JSON.parse];
    a bucket the object does not have is empty. *)
Example extractNotes_json_reply :
  Notes.ollamaNotesFromScene Examples.basicLower
                             (fun _ => inr Examples.jsonReply)
                             Examples.parseSample (lit "a walk in a garden")
  = inr (Notes.mkNoteSet [lit "rose"] [] []).
Proof. vm_compute. reflexivity. Qed.

(* ================================================================== *)
(** * Price extraction *)
(* ================================================================== *)

Section Prices.

Local Open Scope N_scope.

Lemma currency_not_digit (c : N) : isCurrency c = true -> isDigit c = false.
Proof.
  unfold isCurrency, DOLLAR, EURO, POUND. intros H.
  repeat (apply orb_true_iff in H as [H|H]); apply N.eqb_eq in H; subst; reflexivity.
Qed.

Lemma currency_not_space (c : N) : isCurrency c = true -> isWhiteSpace c = false.
Proof.
  unfold isCurrency, DOLLAR, EURO, POUND. intros H.
  repeat (apply orb_true_iff in H as [H|H]); apply N.eqb_eq in H; subst; reflexivity.
Qed.

Lemma currency_not_comma (c : N) : isCurrency c = true -> (c =? COMMA) = false.
Proof.
  unfold isCurrency, DOLLAR, EURO, POUND. intros H.
  repeat (apply orb_true_iff in H as [H|H]); apply N.eqb_eq in H; subst; reflexivity.
Qed.

Lemma digit_bounds (c : N) : isDigit c = true <-> 48 <= c <= 57.
Proof.
  unfold isDigit. rewrite andb_true_iff, !N.leb_le. tauto.
Qed.

Lemma digit_not_space (c : N) : isDigit c = true -> isWhiteSpace c = false.
Proof.
  intros H. apply digit_bounds in H. unfold isWhiteSpace.
  repeat (apply orb_false_iff; split);
    try (apply andb_false_iff; left; apply N.leb_gt; lia);
    try (apply andb_false_iff; right; apply N.leb_gt; lia);
    apply N.eqb_neq; lia.
Qed.

Lemma space_not_digit (c : N) : isWhiteSpace c = true -> isDigit c = false.
Proof.
  intros H. destruct (isDigit c) eqn:E; [|reflexivity].
  apply digit_not_space in E. congruence.
Qed.

Lemma digit_not_comma (c : N) : isDigit c = true -> (c =? COMMA) = false.
Proof.
  intros H. apply digit_bounds in H. apply N.eqb_neq. unfold COMMA. lia.
Qed.

Lemma separator_not_digit (c : N) : isSeparator c = true -> isDigit c = false.
Proof.
  unfold isSeparator, DOT, COMMA. intros H.
  apply orb_true_iff in H as [H|H]; apply N.eqb_eq in H; subst; reflexivity.
Qed.

Lemma separator_not_space (c : N) : isSeparator c = true -> isWhiteSpace c = false.
Proof.
  unfold isSeparator, DOT, COMMA. intros H.
  apply orb_true_iff in H as [H|H]; apply N.eqb_eq in H; subst; reflexivity.
Qed.

(** ** The digit run and the amount *)

Lemma digitRun_app (ds tail : jstring) :
  forallb isDigit ds = true -> headDigit tail = false ->
  digitRun (ds ++ tail) = (ds, tail).
Proof.
  intros Hd Ht. induction ds as [|d ds IH]; simpl in *.
  - destruct tail as [|c r]; [reflexivity|]. simpl in *. now rewrite Ht.
  - apply andb_true_iff in Hd as [H1 H2]. rewrite H1, (IH H2). reflexivity.
Qed.

Lemma digitRun_spec (s : jstring) :
  s = fst (digitRun s) ++ snd (digitRun s)
  /\ forallb isDigit (fst (digitRun s)) = true
  /\ headDigit (snd (digitRun s)) = false.
Proof.
  induction s as [|c s IH]; simpl.
  - repeat split.
  - destruct (isDigit c) eqn:Hc.
    + destruct (digitRun s) as [ds rest]. simpl in *.
      destruct IH as [E [Hd Hr]]. rewrite Hc, Hd. repeat split; [now f_equal|assumption].
    + simpl. rewrite Hc. repeat split.
Qed.

Lemma decimals_cases (s : jstring) :
  decimals s = []
  \/ exists sep d1 d2 r,
       s = sep :: d1 :: d2 :: r /\ decimals s = [sep; d1; d2]
       /\ isSeparator sep = true /\ isDigit d1 = true /\ isDigit d2 = true.
Proof.
  destruct s as [|sep [|d1 [|d2 r]]]; try (now left).
  simpl. destruct (isSeparator sep && isDigit d1 && isDigit d2) eqn:E; [|now left].
  right. apply andb_true_iff in E as [E E3]. apply andb_true_iff in E as [E1 E2].
  exists sep, d1, d2, r. repeat split; assumption.
Qed.

Lemma amount_digits (ds tail : jstring) :
  ds <> [] -> forallb isDigit ds = true -> headDigit tail = false ->
  amount (ds ++ tail) = Some (ds ++ decimals tail).
Proof.
  intros Hne Hd Ht. unfold amount. rewrite (digitRun_app _ _ Hd Ht).
  destruct ds; [contradiction | reflexivity].
Qed.

Lemma amount_None (s : jstring) : headDigit s = false -> amount s = None.
Proof.
  intros H. unfold amount. destruct s as [|c r]; [reflexivity|].
  simpl in *. rewrite H. reflexivity.
Qed.

Lemma amount_Some (s a : jstring) :
  amount s = Some a ->
  headDigit s = true
  /\ exists ds, ds <> [] /\ forallb isDigit ds = true
                /\ a = ds ++ decimals (snd (digitRun s)).
Proof.
  unfold amount. intros H.
  destruct (digitRun_spec s) as [E [Hd Hr]].
  destruct (digitRun s) as [ds rest]. simpl in *.
  destruct ds as [|d ds]; [discriminate|]. injection H as <-.
  split.
  - rewrite E. simpl. simpl in Hd. now apply andb_true_iff in Hd as [Hd _].
  - exists (d :: ds). repeat split; [discriminate | assumption].
Qed.

Lemma spaceAmount_Some (s a : jstring) :
  spaceAmount s = Some a ->
  exists ds dec, ds <> [] /\ forallb isDigit ds = true /\ a = ds ++ dec
                 /\ (dec = [] \/ exists sep d1 d2,
                        dec = [sep; d1; d2] /\ isSeparator sep = true
                        /\ isDigit d1 = true /\ isDigit d2 = true).
Proof.
  assert (G : forall x, amount x = Some a ->
    exists ds dec, ds <> [] /\ forallb isDigit ds = true /\ a = ds ++ dec
                 /\ (dec = [] \/ exists sep d1 d2,
                        dec = [sep; d1; d2] /\ isSeparator sep = true
                        /\ isDigit d1 = true /\ isDigit d2 = true)).
  { intros x Hx. apply amount_Some in Hx as [_ [ds [H1 [H2 H3]]]].
    exists ds, (decimals (snd (digitRun x))). repeat split; try assumption.
    destruct (decimals_cases (snd (digitRun x))) as [->|[sep [d1 [d2 [r [_ [-> H]]]]]]].
    - now left.
    - right. now exists sep, d1, d2. }
  unfold spaceAmount. destruct s as [|c r]; [apply G|].
  destruct (isWhiteSpace c); [|apply G].
  destruct (amount r) eqn:E.
  - intros H. injection H as <-. now apply (G r).
  - apply G.
Qed.

Lemma spaceAmount_app_None (a : jstring) (c : N) (r : jstring) :
  isDigit c = false -> isWhiteSpace c = false ->
  spaceAmount a = None -> spaceAmount (a ++ c :: r) = None.
Proof.
  intros Hd Hw H.
  assert (Hc : amount (c :: r) = None) by (apply amount_None; exact Hd).
  destruct a as [|w a]; simpl.
  - rewrite Hw. exact Hc.
  - simpl in H.
    assert (Hw' : amount (w :: a) = None).
    { destruct (isWhiteSpace w); [destruct (amount a); [discriminate|]|]; exact H. }
    assert (Hh : isDigit w = false).
    { destruct (isDigit w) eqn:E; [|reflexivity].
      unfold amount in Hw'. simpl in Hw'. rewrite E in Hw'.
      destruct (digitRun a); discriminate. }
    assert (Hfull : amount (w :: a ++ c :: r) = None) by (apply amount_None; exact Hh).
    destruct (isWhiteSpace w); [|exact Hfull].
    assert (Ha : amount a = None) by (destruct (amount a); [discriminate|reflexivity]).
    assert (Hha : headDigit a = false).
    { destruct (headDigit a) eqn:E; [|reflexivity].
      destruct a as [|d a']; [discriminate|]. simpl in E.
      unfold amount in Ha. simpl in Ha. rewrite E in Ha.
      destruct (digitRun a'); discriminate. }
    rewrite amount_None; [exact Hfull|].
    destruct a as [|d a']; simpl in *; assumption.
Qed.

Lemma matchPrice_unfold (s : jstring) :
  matchPrice s
  = match matchHere s with
    | Some m => Some m
    | None => match s with [] => None | _ :: r => matchPrice r end
    end.
Proof. destruct s; reflexivity. Qed.

Lemma matchPrice_skip (a : jstring) (c : N) (r : jstring) :
  isDigit c = false -> isWhiteSpace c = false ->
  matchPrice a = None -> matchPrice (a ++ c :: r) = matchPrice (c :: r).
Proof.
  intros Hd Hw. induction a as [|x a IH]; intros H; [reflexivity|].
  rewrite matchPrice_unfold in H.
  destruct (matchHere (x :: a)) as [m|] eqn:E; [discriminate|].
  change ((x :: a) ++ c :: r) with (x :: (a ++ c :: r)).
  rewrite matchPrice_unfold.
  replace (matchHere (x :: a ++ c :: r)) with (@None (N * jstring)).
  - apply IH. exact H.
  - symmetry. simpl in *. destruct (isCurrency x); [|reflexivity].
    destruct (spaceAmount a) eqn:Es; [discriminate|].
    now rewrite (spaceAmount_app_None a c r Hd Hw Es).
Qed.

Lemma matchPrice_no_currency (s : jstring) :
  forallb (fun c => negb (isCurrency c)) s = true -> matchPrice s = None.
Proof.
  induction s as [|c s IH]; intros H; [reflexivity|].
  simpl in H. apply andb_true_iff in H as [H1 H2].
  rewrite matchPrice_unfold. simpl.
  apply negb_true_iff in H1. rewrite H1. now apply IH.
Qed.

Lemma matchPrice_Some (s : jstring) (m1 : N) (m2 : jstring) :
  matchPrice s = Some (m1, m2) ->
  isCurrency m1 = true
  /\ exists ds dec, ds <> [] /\ forallb isDigit ds = true /\ m2 = ds ++ dec
                 /\ (dec = [] \/ exists sep d1 d2,
                        dec = [sep; d1; d2] /\ isSeparator sep = true
                        /\ isDigit d1 = true /\ isDigit d2 = true).
Proof.
  induction s as [|c s IH]; rewrite matchPrice_unfold; simpl; [discriminate|].
  destruct (isCurrency c) eqn:Hc; [|exact IH].
  destruct (spaceAmount s) as [a|] eqn:Es; [|exact IH].
  intros H. injection H as <- <-. split; [exact Hc|].
  now apply (spaceAmount_Some s).
Qed.

End Prices.

(* ================================================================== *)
(** * The price expression *)
(* ================================================================== *)

Section PriceExpression.

Local Open Scope N_scope.
Import Regex.

Local Abbreviation Dec :=
  (Seq (Cls isSeparator) (Seq (Cls isDigit) (Cls isDigit))).
Local Abbreviation Amount := (Group (Seq (Plus isDigit) (Opt Dec))).
Local Abbreviation SpaceAmount := (Seq (Opt (Cls isWhiteSpace)) Amount).

(** The last continuation of [matchAt]. *)
Local Abbreviation done := (fun (_ : jstring) acc caps => Some (rev acc :: caps)).

Lemma star_digits {A} (k : jstring -> jstring -> option A) :
  (forall s acc, k s acc <> None) ->
  forall s acc,
    star isDigit s acc k
    = k (snd (digitRun s)) (rev (fst (digitRun s)) ++ acc).
Proof.
  intros Hk. induction s as [|c s IH]; intros acc; simpl; [reflexivity|].
  destruct (isDigit c) eqn:Hc; [|reflexivity].
  rewrite IH. destruct (digitRun s) as [ds rest]. simpl.
  rewrite <- app_assoc. simpl.
  destruct (k rest (rev ds ++ c :: acc)) eqn:E; [reflexivity|].
  exfalso. exact (Hk _ _ E).
Qed.

Lemma run_decimals {A} (k : cont A) :
  (forall s s' acc caps, k s acc caps = k s' acc caps) ->
  (forall s acc caps, k s acc caps <> None) ->
  forall s acc caps,
    run (Opt Dec) s acc caps k = k s (rev (decimals s) ++ acc) caps.
Proof.
  intros Hrest Hk s acc caps.
  destruct s as [|c1 [|c2 [|c3 r]]]; simpl.
  - reflexivity.
  - now destruct (isSeparator c1).
  - destruct (isSeparator c1); [destruct (isDigit c2)|]; reflexivity.
  - destruct (isSeparator c1); [destruct (isDigit c2); [destruct (isDigit c3)|]|];
      simpl; try reflexivity.
    rewrite (Hrest r (c1 :: c2 :: c3 :: r)).
    destruct (k (c1 :: c2 :: c3 :: r) (c3 :: c2 :: c1 :: acc) caps) eqn:E;
      [reflexivity|].
    exfalso. exact (Hk _ _ _ E).
Qed.

Lemma run_Amount_cons (c : N) (s acc : jstring) (caps : list jstring) :
  run Amount (c :: s) acc caps done
  = if isDigit c
    then star isDigit s [c]
              (fun s1 acc1 =>
                 run (Opt Dec) s1 acc1 caps
                     (fun _ a c0 => Some (rev (a ++ acc) :: c0 ++ [rev a])))
    else None.
Proof. reflexivity. Qed.

Lemma run_amount (s acc : jstring) (caps : list jstring) :
  option_map (@tl jstring) (run Amount s acc caps done)
  = option_map (fun a => caps ++ [a]) (amount s).
Proof.
  destruct s as [|c s]; [reflexivity|].
  rewrite run_Amount_cons. unfold amount. simpl digitRun.
  destruct (isDigit c) eqn:Hc; [|reflexivity].
  rewrite star_digits.
  - rewrite run_decimals; [|reflexivity|discriminate].
    destruct (digitRun s) as [ds rest]. simpl.
    rewrite !rev_app_distr, rev_involutive. simpl.
    rewrite rev_involutive. reflexivity.
  - intros s0 acc0. rewrite run_decimals; [|reflexivity|]; discriminate.
Qed.

Lemma option_map_tl_None {A} (x : option (list A)) :
  option_map (@tl A) x = None -> x = None.
Proof. now destruct x. Qed.

Lemma run_SpaceAmount_cons (c : N) (r acc : jstring) (caps : list jstring) :
  run SpaceAmount (c :: r) acc caps done
  = if isWhiteSpace c
    then match run Amount r (c :: acc) caps done with
         | Some x => Some x
         | None => run Amount (c :: r) acc caps done
         end
    else run Amount (c :: r) acc caps done.
Proof. simpl. destruct (isWhiteSpace c); reflexivity. Qed.

Lemma run_spaceAmount (s acc : jstring) (caps : list jstring) :
  option_map (@tl jstring) (run SpaceAmount s acc caps done)
  = option_map (fun a => caps ++ [a]) (spaceAmount s).
Proof.
  destruct s as [|c r]; [reflexivity|].
  rewrite run_SpaceAmount_cons. unfold spaceAmount.
  destruct (isWhiteSpace c); [|apply run_amount].
  pose proof (run_amount r (c :: acc) caps) as H1.
  destruct (amount r) as [a|].
  - destruct (run Amount r (c :: acc) caps done); [exact H1 | discriminate].
  - apply option_map_tl_None in H1. rewrite H1. apply run_amount.
Qed.

Lemma matchAt_cons (c : N) (r : jstring) :
  matchAt priceRegex (c :: r)
  = if isCurrency c then run SpaceAmount r [c] [[c]] done else None.
Proof.
  unfold isCurrency.
  change (matchAt priceRegex (c :: r))
    with (match (if c =? DOLLAR then run SpaceAmount r [c] [[c]] done
                 else None) with
          | Some x => Some x
          | None =>
              match (if c =? EURO then run SpaceAmount r [c] [[c]] done
                     else None) with
              | Some x => Some x
              | None => if c =? POUND then run SpaceAmount r [c] [[c]] done
                        else None
              end
          end).
  destruct (c =? DOLLAR), (c =? EURO), (c =? POUND); simpl orb; cbv iota;
    try reflexivity;
    destruct (run SpaceAmount r [c] [[c]] done); reflexivity.
Qed.

Lemma matchAt_matchHere (s : jstring) :
  option_map (@tl jstring) (matchAt priceRegex s)
  = option_map (fun m => [[fst m]; snd m]) (matchHere s).
Proof.
  destruct s as [|c r]; [reflexivity|].
  rewrite matchAt_cons. simpl matchHere.
  destruct (isCurrency c); [|reflexivity].
  rewrite run_spaceAmount. now destruct (spaceAmount r).
Qed.

Lemma exec_matchPrice (s : jstring) :
  option_map (fun m => nth 1 m [] ++ nth 2 m []) (exec priceRegex s)
  = option_map (fun m => fst m :: snd m) (matchPrice s).
Proof.
  induction s as [|c s IH].
  - reflexivity.
  - rewrite matchPrice_unfold.
    change (exec priceRegex (c :: s))
      with (match matchAt priceRegex (c :: s) with
            | Some m => Some m
            | None => exec priceRegex s
            end).
    pose proof (matchAt_matchHere (c :: s)) as H.
    destruct (matchHere (c :: s)) as [[m1 m2]|].
    + destruct (matchAt priceRegex (c :: s)) as [[|w t]|]; try discriminate.
      simpl in H. injection H as ->. reflexivity.
    + apply option_map_tl_None in H. rewrite H. exact IH.
Qed.

(** [parsePrice] in terms of the expression read as a function. *)
Lemma parsePrice_unfold (text : jstring) :
  parsePrice text
  = if negb (nonEmpty text) then None
    else match matchPrice (collapseWhitespace text) with
         | None => None
         | Some (m1, m2) => Some (replaceFirst COMMA DOT (m1 :: m2))
         end.
Proof.
  unfold parsePrice. destruct (negb (nonEmpty text)); [reflexivity|].
  pose proof (exec_matchPrice (collapseWhitespace text)) as H.
  destruct (exec priceRegex (collapseWhitespace text)) as [m|];
    destruct (matchPrice (collapseWhitespace text)) as [[m1 m2]|];
    try discriminate; [|reflexivity].
  unfold option_map in H. injection H as H. cbv beta in H.
  simpl fst in H. simpl snd in H. do 2 f_equal. exact H.
Qed.

End PriceExpression.

Section PriceFirst.

Local Open Scope N_scope.

(** ** Collapsing white space around a price *)

Lemma collapse_spaces (b : bool) (gap : jstring) :
  forallb isWhiteSpace gap = true ->
  collapse_from b gap
  = match gap with [] => [] | _ :: _ => if b then [] else [SPACE] end
  /\ endsInSpace b gap = match gap with [] => b | _ :: _ => true end.
Proof.
  revert b. induction gap as [|w g IH]; intros b H; [now split|].
  simpl in H. apply andb_true_iff in H as [Hw Hg].
  destruct (IH true Hg) as [E1 E2].
  rewrite endsInSpace_cons, Hw. simpl. rewrite Hw, E1, E2.
  split; [|now destruct g].
  destruct b, g; reflexivity.
Qed.

Lemma collapse_digits (b : bool) (ds tail : jstring) :
  ds <> [] -> forallb isDigit ds = true ->
  collapse_from b (ds ++ tail) = ds ++ collapse_from false tail.
Proof.
  revert b. induction ds as [|d ds IH]; intros b Hne Hd; [contradiction|].
  simpl in Hd. apply andb_true_iff in Hd as [H1 H2].
  simpl. rewrite (digit_not_space _ H1). f_equal.
  destruct ds as [|d' ds']; [reflexivity|].
  apply IH; [discriminate | exact H2].
Qed.

Lemma headDigit_collapse (tail : jstring) :
  headDigit (collapse_from false tail) = headDigit tail.
Proof.
  destruct tail as [|c r]; [reflexivity|]. simpl.
  destruct (isWhiteSpace c) eqn:E; [|reflexivity].
  simpl. now rewrite (space_not_digit _ E).
Qed.

Lemma decimals_bad1 (c : N) (r : jstring) :
  isSeparator c = false -> decimals (c :: r) = [].
Proof. intros H. destruct r as [|d1 [|d2 r]]; simpl; now rewrite ?H. Qed.

Lemma decimals_bad2 (c d1 : N) (r : jstring) :
  isDigit d1 = false -> decimals (c :: d1 :: r) = [].
Proof.
  intros H. destruct r as [|d2 r]; simpl; [reflexivity|].
  now rewrite H, andb_false_r.
Qed.

Lemma decimals_bad3 (c d1 d2 : N) (r : jstring) :
  isDigit d2 = false -> decimals (c :: d1 :: d2 :: r) = [].
Proof. intros H. simpl. now rewrite H, andb_false_r. Qed.

Lemma space_not_separator (c : N) : isWhiteSpace c = true -> isSeparator c = false.
Proof.
  intros H. destruct (isSeparator c) eqn:E; [|reflexivity].
  apply separator_not_space in E. congruence.
Qed.

Lemma decimals_collapse (tail : jstring) :
  decimals (collapse_from false tail) = decimals tail.
Proof.
  destruct tail as [|c1 t1]; [reflexivity|]. simpl collapse_from.
  destruct (isWhiteSpace c1) eqn:W1.
  { rewrite (decimals_bad1 c1 t1 (space_not_separator _ W1)).
    now apply decimals_bad1. }
  destruct t1 as [|c2 t2]; [reflexivity|]. simpl collapse_from.
  destruct (isWhiteSpace c2) eqn:W2.
  { rewrite (decimals_bad2 c1 c2 t2 (space_not_digit _ W2)).
    now apply decimals_bad2. }
  destruct t2 as [|c3 t3]; [reflexivity|]. simpl collapse_from.
  destruct (isWhiteSpace c3) eqn:W3.
  { rewrite (decimals_bad3 c1 c2 c3 t3 (space_not_digit _ W3)).
    now apply decimals_bad3. }
  reflexivity.
Qed.

Lemma replaceFirst_digits (ds x : jstring) :
  forallb isDigit ds = true ->
  replaceFirst COMMA DOT (ds ++ x) = ds ++ replaceFirst COMMA DOT x.
Proof.
  intros H. induction ds as [|d ds IH]; [reflexivity|].
  simpl in H. apply andb_true_iff in H as [H1 H2].
  simpl. rewrite (digit_not_comma _ H1). f_equal. now apply IH.
Qed.

Lemma spaceAmount_digits (ds t : jstring) :
  ds <> [] -> forallb isDigit ds = true -> headDigit t = false ->
  spaceAmount (ds ++ t) = Some (ds ++ decimals t)
  /\ spaceAmount (SPACE :: ds ++ t) = Some (ds ++ decimals t).
Proof.
  intros Hne Hd Ht. pose proof (amount_digits ds t Hne Hd Ht) as Ha.
  split.
  - destruct ds as [|d ds]; [contradiction|].
    simpl in Hd. apply andb_true_iff in Hd as [H1 _].
    unfold spaceAmount.
    change ((d :: ds) ++ t) with (d :: (ds ++ t)) in *.
    cbv iota beta. now rewrite (digit_not_space _ H1).
  - unfold spaceAmount. change (isWhiteSpace SPACE) with true.
    cbv iota. now rewrite Ha.
Qed.

Lemma parsePrice_None (text : jstring) :
  parsePrice text = None -> matchPrice (collapseWhitespace text) = None.
Proof.
  rewrite parsePrice_unfold. destruct text as [|c r]; [reflexivity|].
  simpl negb. cbv iota.
  destruct (matchPrice (collapseWhitespace (c :: r))) as [[m1 m2]|];
    [discriminate | reflexivity].
Qed.

Lemma parsePrice_no_currency (text : jstring) :
  forallb (fun c => negb (isCurrency c)) text = true -> parsePrice text = None.
Proof.
  intros H. rewrite parsePrice_unfold. destruct (negb (nonEmpty text)); [reflexivity|].
  rewrite matchPrice_no_currency; [reflexivity|].
  unfold collapseWhitespace. generalize false.
  induction text as [|c r IH]; intros b; [reflexivity|].
  simpl in H. apply andb_true_iff in H as [H1 H2]. simpl.
  destruct (isWhiteSpace c); [destruct b|]; simpl; rewrite ?H1; now apply IH.
Qed.

(** The first price of a text: nothing that precedes the sign yields a
    price, white space may stand between the sign and the digits, and
    [ds] is the whole run of digits. *)
Lemma parsePrice_at_first (pre : jstring) (sym : N) (gap ds tail : jstring) :
  parsePrice pre = None ->
  isCurrency sym = true ->
  forallb isWhiteSpace gap = true ->
  ds <> [] -> forallb isDigit ds = true ->
  headDigit tail = false ->
  parsePrice (pre ++ sym :: gap ++ ds ++ tail)
  = Some (sym :: ds ++ dotted (decimals tail)).
Proof.
  intros Hpre Hsym Hgap Hne Hds Htail.
  rewrite parsePrice_unfold.
  replace (nonEmpty (pre ++ sym :: gap ++ ds ++ tail)) with true
    by (now destruct pre).
  simpl negb. cbv iota.
  unfold collapseWhitespace.
  rewrite collapse_from_app.
  rewrite (collapse_from_nonws _ sym _ (currency_not_space _ Hsym)).
  rewrite (matchPrice_skip _ sym _ (currency_not_digit _ Hsym)
             (currency_not_space _ Hsym) (parsePrice_None _ Hpre)).
  rewrite collapse_from_app.
  destruct (collapse_spaces false gap Hgap) as [-> _].
  rewrite (collapse_digits _ ds tail Hne Hds).
  assert (Ht' : headDigit (collapse_from false tail) = false)
    by now rewrite headDigit_collapse.
  destruct (spaceAmount_digits ds _ Hne Hds Ht') as [S1 S2].
  rewrite matchPrice_unfold. unfold matchHere. rewrite Hsym.
  assert (E : forall g : jstring,
             spaceAmount ((match g with [] => [] | _ :: _ => [SPACE] end)
                          ++ ds ++ collapse_from false tail)
             = Some (ds ++ decimals (collapse_from false tail)))
    by (intros [|? ?]; assumption).
  destruct gap as [|g0 gap]; cbv beta iota; rewrite (E []) || rewrite (E [g0]);
    rewrite decimals_collapse; simpl; rewrite (currency_not_comma _ Hsym);
    unfold dotted; now rewrite replaceFirst_digits.
Qed.

End PriceFirst.

Section PriceShape.

Local Open Scope N_scope.

Lemma dotted_decimals (sep d1 d2 : N) :
  isSeparator sep = true -> isDigit d1 = true -> isDigit d2 = true ->
  dotted [sep; d1; d2] = [DOT; d1; d2].
Proof.
  intros Hs H1 H2. unfold dotted. simpl.
  destruct (sep =? COMMA) eqn:E; [reflexivity|].
  unfold isSeparator in Hs. rewrite E, orb_false_r in Hs.
  apply N.eqb_eq in Hs. subst sep.
  now rewrite (digit_not_comma _ H1), (digit_not_comma _ H2).
Qed.

Lemma priceShape_plain (sym : N) (ds : jstring) :
  isCurrency sym = true -> ds <> [] -> forallb isDigit ds = true ->
  priceShape (sym :: ds ++ []) = true.
Proof.
  intros Hs Hne Hd. unfold priceShape.
  rewrite Hs, (digitRun_app ds [] Hd eq_refl).
  destruct ds; [contradiction | reflexivity].
Qed.

Lemma priceShape_decimal (sym : N) (ds : jstring) (d1 d2 : N) :
  isCurrency sym = true -> ds <> [] -> forallb isDigit ds = true ->
  isDigit d1 = true -> isDigit d2 = true ->
  priceShape (sym :: ds ++ [DOT; d1; d2]) = true.
Proof.
  intros Hs Hne Hd H1 H2. unfold priceShape.
  rewrite Hs, (digitRun_app ds [DOT; d1; d2] Hd eq_refl).
  destruct ds; [contradiction|]. simpl. now rewrite H1, H2.
Qed.

Lemma parsePrice_shape (text p : jstring) :
  parsePrice text = Some p -> priceShape p = true.
Proof.
  rewrite parsePrice_unfold. destruct (negb (nonEmpty text)); [discriminate|].
  destruct (matchPrice (collapseWhitespace text)) as [[m1 m2]|] eqn:E;
    [|discriminate].
  intros H. injection H as <-.
  destruct (matchPrice_Some _ _ _ E) as [Hs [ds [dec [Hne [Hd [-> Hdec]]]]]].
  simpl. rewrite (currency_not_comma _ Hs), (replaceFirst_digits _ _ Hd).
  destruct Hdec as [->|[sep [d1 [d2 [-> [H0 [H1 H2]]]]]]].
  - now apply priceShape_plain.
  - fold (dotted [sep; d1; d2]). rewrite (dotted_decimals _ _ _ H0 H1 H2).
    now apply priceShape_decimal.
Qed.

Lemma parsePrice_result_nonEmpty (text p : jstring) :
  parsePrice text = Some p -> nonEmpty p = true.
Proof.
  intros H. apply parsePrice_shape in H. now destruct p.
Qed.

End PriceShape.

(** C3. [parsePrice] collapses the white space of a text and returns its
    first price: when nothing before a currency sign yields a price, and
    the sign is followed, after white space or none, by a run of digits,
    the result is the sign, the digits and, when a dot or comma and two
    digits follow, a dot and those two digits. Whatever it returns has
    that shape. A text whose first price is "$12.50" yields "$12.50", one
    whose first price is the euro sign with "9,99" yields the euro sign
    with "9.99", whatever follows; a text without a currency sign yields
    nothing. *)
Theorem parsePrice_first_currency_amount :
  (forall pre sym gap ds tail,
      parsePrice pre = None ->
      isCurrency sym = true ->
      forallb isWhiteSpace gap = true ->
      ds <> [] -> forallb isDigit ds = true ->
      headDigit tail = false ->
      parsePrice (pre ++ sym :: gap ++ ds ++ tail)
      = Some (sym :: ds ++ dotted (decimals tail)))
  /\ (forall text p, parsePrice text = Some p -> priceShape p = true)
  /\ (forall pre post,
         parsePrice pre = None ->
         parsePrice (pre ++ lit "$12.50" ++ post) = Some (lit "$12.50"))
  /\ (forall pre post,
         parsePrice pre = None ->
         parsePrice (pre ++ EURO :: lit "9,99" ++ post)
         = Some (EURO :: lit "9.99"))
  /\ (forall text,
         forallb (fun c => negb (isCurrency c)) text = true ->
         parsePrice text = None)
  /\ parsePrice (lit "from $12.50 to $30") = Some (lit "$12.50").
Proof.
  split; [exact parsePrice_at_first|].
  split; [exact parsePrice_shape|].
  split; [|split; [|split; [exact parsePrice_no_currency | reflexivity]]].
  - intros pre post Hpre.
    exact (parsePrice_at_first pre DOLLAR [] (lit "12") (lit ".50" ++ post)
             Hpre eq_refl eq_refl ltac:(discriminate) eq_refl eq_refl).
  - intros pre post Hpre.
    exact (parsePrice_at_first pre EURO [] (lit "9") (lit ",99" ++ post)
             Hpre eq_refl eq_refl ltac:(discriminate) eq_refl eq_refl).
Qed.

Lemma parsePrice_first_currency_amount_witness :
  parsePrice (lit "now $ 12,50 each, was $30") = Some (lit "$12.50").
Proof.
  exact (proj1 parsePrice_first_currency_amount
           (lit "now ") DOLLAR (lit " ") (lit "12") (lit ",50 each, was $30")
           eq_refl eq_refl eq_refl ltac:(discriminate) eq_refl eq_refl).
Defined.

(** C10. A thousands separator is read as a decimal separator: "$1,234.56"
    yields "$1.23". In general, a currency sign followed by a run of
    digits, a dot or comma and two digits yields the sign, the run, a dot
    and the two digits, whatever comes after them. *)
Theorem parsePrice_thousands_separator :
  parsePrice (lit "$1,234.56") = Some (lit "$1.23")
  /\ (forall sym ds sep d1 d2 rest,
         isCurrency sym = true ->
         ds <> [] -> forallb isDigit ds = true ->
         isSeparator sep = true -> isDigit d1 = true -> isDigit d2 = true ->
         parsePrice (sym :: ds ++ sep :: d1 :: d2 :: rest)
         = Some (sym :: ds ++ [DOT; d1; d2])).
Proof.
  split; [reflexivity|].
  intros sym ds sep d1 d2 rest Hs Hne Hd H0 H1 H2.
  pose proof (parsePrice_at_first [] sym [] ds (sep :: d1 :: d2 :: rest)
                eq_refl Hs eq_refl Hne Hd (separator_not_digit _ H0)) as H.
  simpl app in H. rewrite H. do 3 f_equal.
  simpl decimals. rewrite H0, H1, H2. simpl.
  now apply dotted_decimals.
Qed.

Lemma parsePrice_thousands_separator_witness :
  parsePrice (lit "$1,234.56") = Some (lit "$1.23").
Proof.
  exact (proj2 parsePrice_thousands_separator
           DOLLAR (lit "1") COMMA 50%N 51%N (lit "4.56")
           eq_refl ltac:(discriminate) eq_refl eq_refl eq_refl eq_refl).
Defined.

(* ================================================================== *)
(** * Page scraping *)
(* ================================================================== *)

Section Scraping.

Import Scrape.

Lemma priceLoop_filter (texts : list jstring) :
  priceLoop (filterBoolean texts) = firstPrice texts.
Proof.
  induction texts as [|t r IH]; [reflexivity|].
  unfold filterBoolean in *. simpl filter.
  destruct (nonEmpty t) eqn:Ht.
  - simpl. destruct (parsePrice t) as [p|] eqn:Ep; [|exact IH].
    now rewrite (parsePrice_result_nonEmpty _ _ Ep).
  - apply nonEmpty_false in Ht. subst t. exact IH.
Qed.

Lemma pagePrice_firstPrice (page : Page) :
  pagePrice page = firstPrice (rawCandidates page).
Proof. unfold pagePrice, candidates. apply priceLoop_filter. Qed.

Lemma firstPrice_None (texts : list jstring) :
  firstPrice texts = None <-> forall t, In t texts -> parsePrice t = None.
Proof.
  induction texts as [|t r IH]; simpl.
  - split; [intros _ t [] | reflexivity].
  - destruct (parsePrice t) as [p|] eqn:E.
    + split; [discriminate|]. intros H. rewrite <- E. apply H. now left.
    + rewrite IH. split.
      * intros H x [<-|Hx]; [exact E | now apply H].
      * intros H x Hx. apply H. now right.
Qed.

Lemma firstPrice_Some (texts : list jstring) (p : jstring) :
  firstPrice texts = Some p <->
  exists before t after,
    texts = before ++ t :: after
    /\ (forall x, In x before -> parsePrice x = None)
    /\ parsePrice t = Some p.
Proof.
  induction texts as [|t r IH]; simpl.
  - split; [discriminate|]. intros [b [t [a [H _]]]]. now destruct b.
  - destruct (parsePrice t) as [q|] eqn:E.
    + split.
      * intros H. injection H as <-. exists [], t, r. repeat split; [|exact E].
        intros x [].
      * intros [b [t' [a [H [Hb Ht]]]]]. destruct b as [|x b].
        -- injection H as <- _. congruence.
        -- injection H as <- _. rewrite (Hb t (or_introl eq_refl)) in E.
           discriminate.
    + rewrite IH. split.
      * intros [b [t' [a [-> [Hb Ht]]]]]. exists (t :: b), t', a.
        repeat split; [|exact Ht]. intros x [<-|Hx]; [exact E | now apply Hb].
      * intros [b [t' [a [H [Hb Ht]]]]]. destruct b as [|x b].
        -- injection H as <- _. congruence.
        -- injection H as <- ->. exists b, t', a. repeat split; [|exact Ht].
           intros y Hy. apply Hb. now right.
Qed.

Variable axios_get : JValue -> result Response.
Variable cheerioLoad : jstring -> result Page.

Lemma scrapeBasic_fetch_throws (u : JValue) (e : JError) :
  axios_get u = inl e ->
  scrapeBasic axios_get cheerioLoad u = inr (erroredScrape u e).
Proof.
  intros H. unfold scrapeBasic, scrapeBody, tryCatch. rewrite H. reflexivity.
Qed.

Lemma scrapeBasic_no_text (u : JValue) (resp : Response) :
  axios_get u = inr resp ->
  falsy (data resp) || negb (isString (data resp)) = true ->
  scrapeBasic axios_get cheerioLoad u = inr (failedScrape u).
Proof.
  intros H Hd. unfold scrapeBasic, scrapeBody, tryCatch. rewrite H. step.
  rewrite Hd. reflexivity.
Qed.

Lemma text_body (html : jstring) :
  html <> [] -> falsy (JStr html) || negb (isString (JStr html)) = false.
Proof. intros H. destruct html; [contradiction | reflexivity]. Qed.

Lemma scrapeBasic_parse_throws (u : JValue) (resp : Response)
                               (html : jstring) (e : JError) :
  axios_get u = inr resp -> data resp = JStr html -> html <> [] ->
  cheerioLoad html = inl e ->
  scrapeBasic axios_get cheerioLoad u = inr (erroredScrape u e).
Proof.
  intros H Hd Hne Hp. unfold scrapeBasic, scrapeBody, tryCatch. rewrite H. step.
  rewrite Hd, (text_body _ Hne), Hp. reflexivity.
Qed.

Lemma scrapeBasic_success (u : JValue) (resp : Response)
                          (html : jstring) (page : Page) :
  axios_get u = inr resp -> data resp = JStr html -> html <> [] ->
  cheerioLoad html = inr page ->
  scrapeBasic axios_get cheerioLoad u = inr (scrapedPage u resp page).
Proof.
  intros H Hd Hne Hp. unfold scrapeBasic, scrapeBody, tryCatch. rewrite H. step.
  rewrite Hd, (text_body _ Hne), Hp. reflexivity.
Qed.

(** Every scrape settles with one of the three results. *)
Lemma scrapeBasic_cases (u : JValue) :
  (exists e, scrapeBasic axios_get cheerioLoad u = inr (erroredScrape u e))
  \/ scrapeBasic axios_get cheerioLoad u = inr (failedScrape u)
  \/ (exists resp page,
         scrapeBasic axios_get cheerioLoad u = inr (scrapedPage u resp page)).
Proof.
  destruct (axios_get u) as [e|resp] eqn:H.
  - left. exists e. now apply scrapeBasic_fetch_throws.
  - destruct (falsy (data resp) || negb (isString (data resp))) eqn:Hd.
    + right. left. now apply (scrapeBasic_no_text u resp).
    + destruct (data resp) as [| |b|z|html|items|props|name arity] eqn:Ed;
        simpl in Hd; rewrite ?orb_true_r in Hd; try discriminate.
      assert (Hne : html <> []) by (intros ->; discriminate).
      destruct (cheerioLoad html) as [e|page] eqn:Hp.
      * left. exists e. now apply (scrapeBasic_parse_throws u resp html).
      * right. right. exists resp, page.
        now apply (scrapeBasic_success u resp html).
Qed.

End Scraping.

(** C7. The price of a scraped page is the result of the Price Extractor
    on the first of these texts, in this order, for which it is not
    absent: the text of the offers elements, the text of the price
    elements, the text of the first element whose class contains price,
    the text of the first element whose id contains price, the text of the
    body; it is absent when the extractor finds nothing in any of them.
    This is the price field of the result of every successful scrape. *)
Theorem scrape_price_candidates_in_order :
  forall axios_get cheerioLoad u resp html page,
    axios_get u = inr resp ->
    Scrape.data resp = JStr html -> html <> [] ->
    cheerioLoad html = inr page ->
    exists r,
      Scrape.scrapeBasic axios_get cheerioLoad u = inr r
      /\ Scrape.price r = firstPrice (rawCandidates page)
      /\ (forall p,
             Scrape.price r = Some p <->
             exists before t after,
               rawCandidates page = before ++ t :: after
               /\ (forall x, In x before -> parsePrice x = None)
               /\ parsePrice t = Some p)
      /\ (Scrape.price r = None <->
          forall t, In t (rawCandidates page) -> parsePrice t = None).
Proof.
  intros ag cl u resp html page H Hd Hne Hp.
  exists (scrapedPage u resp page).
  split; [now apply (scrapeBasic_success ag cl u resp html)|].
  simpl. rewrite pagePrice_firstPrice.
  split; [reflexivity|].
  split; [intros p; apply firstPrice_Some | apply firstPrice_None].
Qed.

Lemma scrape_price_candidates_in_order_witness :
  exists r,
    Scrape.scrapeBasic Examples.shopGet Examples.shopLoad (JStr Examples.roseUrl)
    = inr r
    /\ Scrape.price r = Some (lit "$20").
Proof.
  destruct (scrape_price_candidates_in_order
              Examples.shopGet Examples.shopLoad (JStr Examples.roseUrl)
              (Scrape.mkResponse (JStr (lit "<html>rose</html>"))
                                 (Some (lit "https://shop.example/rose-edp")))
              (lit "<html>rose</html>") Examples.rosePage
              eq_refl eq_refl ltac:(discriminate) eq_refl)
    as [r [H1 [H2 _]]].
  exists r. split; [exact H1 | exact H2].
Defined.

Section PageNotes.

Import Scrape.

Lemma fold_pushNote (els : list Element) (notes : list jstring) :
  fold_left pushNote els notes = notes ++ keptTexts els.
Proof.
  revert notes. induction els as [|e els IH]; intros notes; simpl.
  - now rewrite app_nil_r.
  - rewrite IH. unfold pushNote, keptTexts. simpl. unfold keptText at 2.
    destruct (nonEmpty (trim (el_text e))
              && (List.length (trim (el_text e)) <? 60)%nat).
    + now rewrite <- app_assoc.
    + reflexivity.
Qed.

Lemma notesLoop_firstKept (page : Page) (sels : list string) :
  notesLoop page sels [] = firstKept page sels.
Proof.
  induction sels as [|sel r IH]; [reflexivity|].
  simpl. rewrite fold_pushNote. simpl.
  destruct (keptTexts (page (Css sel))); [exact IH | reflexivity].
Qed.

Lemma pageNotes_firstKept (page : Page) :
  pageNotes page = slice0 20 (uniq (firstKept page noteSelectors)).
Proof. unfold pageNotes. now rewrite notesLoop_firstKept. Qed.

Lemma keptTexts_kept (els : list Element) (t : jstring) :
  In t (keptTexts els) ->
  t <> [] /\ (List.length t < 60)%nat /\ trim t = t
  /\ exists e, In e els /\ t = trim (el_text e).
Proof.
  unfold keptTexts. intros H. apply filter_In in H as [Hin Hk].
  apply in_map_iff in Hin as [e [<- He]].
  unfold keptText in Hk. apply andb_true_iff in Hk as [H1 H2].
  repeat split.
  - now apply nonEmpty_true.
  - now apply Nat.ltb_lt.
  - apply trim_idem.
  - now exists e.
Qed.

Lemma firstKept_from (page : Page) (sels : list string) (t : jstring) :
  In t (firstKept page sels) ->
  exists sel, In sel sels /\ In t (keptTexts (page (Css sel)))
              /\ firstKept page sels = keptTexts (page (Css sel)).
Proof.
  induction sels as [|sel r IH]; simpl; [intros []|].
  destruct (keptTexts (page (Css sel))) as [|k ks] eqn:E.
  - intros H. destruct (IH H) as [s [Hs [Ht Hf]]].
    exists s. repeat split; [now right | exact Ht | exact Hf].
  - intros H. exists sel. rewrite E. repeat split; [now left | exact H].
Qed.

(** Once a selector has contributed, what the later ones match is never
    looked at. *)
Lemma firstKept_stops (page page' : Page) (pre : list string) (sel : string)
                      (post post' : list string) :
  keptTexts (page (Css sel)) <> [] ->
  (forall s, In s (pre ++ [sel]) -> page' (Css s) = page (Css s)) ->
  firstKept page' (pre ++ sel :: post') = firstKept page (pre ++ sel :: post).
Proof.
  intros Hk Hsame. induction pre as [|s pre IH]; simpl.
  - rewrite (Hsame sel (or_introl eq_refl)).
    destruct (keptTexts (page (Css sel))); [contradiction | reflexivity].
  - rewrite (Hsame s (or_introl eq_refl)).
    rewrite IH; [reflexivity|].
    intros x Hx. apply Hsame. now right.
Qed.

End PageNotes.


(** C6, as the code has it. The notes of a page come from the first
    selector of the priority list that contributes a text, a text being
    contributed when, trimmed, it is non-empty and shorter than 60 units;
    a selector whose elements contribute nothing is passed over. The
    contributed texts are deduplicated and capped at 20. What the
    selectors after the contributing one match has no influence on the
    result. These are the notes of every successful scrape. *)
Theorem scrape_notes_first_contributing_selector :
  forall page,
    Scrape.pageNotes page
    = slice0 20 (uniq (firstKept page Scrape.noteSelectors))
    /\ NoDup (Scrape.pageNotes page)
    /\ (List.length (Scrape.pageNotes page) <= 20)%nat
    /\ (forall t, In t (Scrape.pageNotes page) ->
          t <> [] /\ (List.length t < 60)%nat /\ trim t = t
          /\ exists sel e,
               In sel Scrape.noteSelectors /\ In e (page (Scrape.Css sel))
               /\ t = trim (Scrape.el_text e)
               /\ firstKept page Scrape.noteSelectors
                  = keptTexts (page (Scrape.Css sel)))
    /\ (forall page' pre sel post,
          Scrape.noteSelectors = pre ++ sel :: post ->
          keptTexts (page (Scrape.Css sel)) <> [] ->
          (forall s, In s (pre ++ [sel]) ->
                     page' (Scrape.Css s) = page (Scrape.Css s)) ->
          Scrape.pageNotes page' = Scrape.pageNotes page)
    /\ (forall axios_get cheerioLoad u resp html,
          axios_get u = inr resp ->
          Scrape.data resp = JStr html -> html <> [] ->
          cheerioLoad html = inr page ->
          exists r,
            Scrape.scrapeBasic axios_get cheerioLoad u = inr r
            /\ Scrape.notes r
               = Some (slice0 20 (uniq (firstKept page Scrape.noteSelectors)))).
Proof.
  intros page. rewrite pageNotes_firstKept.
  split; [reflexivity|].
  split; [apply NoDup_firstn, uniq_NoDup|].
  split; [apply firstn_le_length|].
  split; [|split].
  - intros t Ht. apply In_firstn in Ht. apply (proj1 (uniq_In _ _)) in Ht.
    destruct (firstKept_from _ _ _ Ht) as [sel [Hsel [Hk Hf]]].
    destruct (keptTexts_kept _ _ Hk) as [H1 [H2 [H3 [e [He Hte]]]]].
    repeat split; try assumption.
    exists sel, e. repeat split; assumption.
  - intros page' pre sel post Hsels Hk Hsame.
    rewrite pageNotes_firstKept. rewrite Hsels.
    now rewrite (firstKept_stops page page' pre sel post post Hk Hsame).
  - intros ag cl u resp html H Hd Hne Hp.
    exists (scrapedPage u resp page).
    split; [now apply (scrapeBasic_success ag cl u resp html)|].
    simpl. now rewrite pageNotes_firstKept.
Qed.

Lemma scrape_notes_first_contributing_selector_witness :
  exists r,
    Scrape.scrapeBasic Examples.shopGet Examples.shopLoad (JStr Examples.roseUrl)
    = inr r
    /\ Scrape.notes r = Some [lit "Rose"; lit "musk"].
Proof.
  destruct (proj2 (proj2 (proj2 (proj2 (proj2
              (scrape_notes_first_contributing_selector Examples.rosePage)))))
              Examples.shopGet Examples.shopLoad (JStr Examples.roseUrl)
              (Scrape.mkResponse (JStr (lit "<html>rose</html>"))
                                 (Some (lit "https://shop.example/rose-edp")))
              (lit "<html>rose</html>")
              eq_refl eq_refl ltac:(discriminate) eq_refl)
    as [r [H1 H2]].
  exists r. split; [exact H1 | exact H2].
Defined.

(** C6, as stated, fails: on a page whose notes container matches the
    third selector with one text of 61 units, while the fifth selector
    matches the items "rose" and "musk", the first selector that matches
    an element contributes nothing, and the notes are those of the fifth
    selector. *)
Lemma scrape_notes_first_matching_selector_counterexample :
  List.length (firstMatching Examples.containerPage Scrape.noteSelectors) = 1%nat
  /\ notesOfFirstMatching Examples.containerPage = []
  /\ Scrape.pageNotes Examples.containerPage = [lit "rose"; lit "musk"]
  /\ Scrape.pageNotes Examples.containerPage
     <> notesOfFirstMatching Examples.containerPage.
Proof.
  repeat split; try reflexivity. vm_compute. discriminate.
Qed.

(* ================================================================== *)
(** * Suggestion assembly *)
(* ================================================================== *)

Section Assembly.

Import Routes.

Variable axios_get : JValue -> result Scrape.Response.
Variable cheerioLoad : jstring -> result Scrape.Page.

Lemma scrapeBasic_settles (u : JValue) :
  Scrape.scrapeBasic axios_get cheerioLoad u
  = inr (scrapeOf axios_get cheerioLoad u).
Proof.
  unfold scrapeOf.
  destruct (scrapeBasic_cases axios_get cheerioLoad u)
    as [[e H]|[H|[resp [page H]]]]; now rewrite H.
Qed.

Lemma Promise_all_scrapes (results : list Query.SearchResult) :
  Promise_all
    (map (fun r => Scrape.scrapeBasic axios_get cheerioLoad (Query.link r))
         results)
  = inr (map (fun r => scrapeOf axios_get cheerioLoad (Query.link r)) results).
Proof.
  induction results as [|r results IH]; [reflexivity|].
  simpl. rewrite scrapeBasic_settles. step. rewrite IH. reflexivity.
Qed.

Lemma suggestionsFor_assemble (results : list Query.SearchResult) :
  suggestionsFor axios_get cheerioLoad results
  = inr (assemble results
           (map (fun r => scrapeOf axios_get cheerioLoad (Query.link r))
                results)).
Proof. unfold suggestionsFor. now rewrite Promise_all_scrapes. Qed.

Lemma mapi_from_length {A B} (k : nat) (f : A -> nat -> B) (l : list A) :
  List.length (mapi_from k f l) = List.length l.
Proof.
  revert k. induction l as [|x l IH]; intros k; simpl; [reflexivity|].
  now rewrite IH.
Qed.

Lemma mapi_from_nth {A B} (k : nat) (f : A -> nat -> B) (l : list A)
                    (i : nat) (x : A) :
  nth_error l i = Some x ->
  nth_error (mapi_from k f l) i = Some (f x (k + i)%nat).
Proof.
  revert k i. induction l as [|y l IH]; intros k i H.
  - destruct i; discriminate.
  - destruct i as [|i]; simpl in *.
    + injection H as ->. now rewrite Nat.add_0_r.
    + rewrite (IH (S k) i H). f_equal. f_equal. lia.
Qed.

Lemma assemble_length (results : list Query.SearchResult)
                      (scraped : list Scrape.ScrapeResult) :
  List.length (assemble results scraped) = List.length results.
Proof. apply mapi_from_length. Qed.

Lemma assemble_nth (results : list Query.SearchResult)
                   (scraped : list Scrape.ScrapeResult)
                   (i : nat) (r : Query.SearchResult) :
  nth_error results i = Some r ->
  nth_error (assemble results scraped) i
  = Some (mkSuggestion (Query.title r) (Query.link r) (Query.snippet r)
                       (orNull scraped i Scrape.price)
                       (orNull scraped i Scrape.title)
                       (notesOrEmpty scraped i)).
Proof.
  intros H. unfold assemble, mapi. now rewrite (mapi_from_nth 0 _ _ i r H).
Qed.

Lemma orNull_at (scraped : list Scrape.ScrapeResult) (i : nat)
                (sc : Scrape.ScrapeResult)
                (field : Scrape.ScrapeResult -> option jstring) :
  nth_error scraped i = Some sc -> orNull scraped i field = truthy (field sc).
Proof. intros H. unfold orNull. now rewrite H. Qed.

Lemma notesOrEmpty_at (scraped : list Scrape.ScrapeResult) (i : nat)
                      (sc : Scrape.ScrapeResult) :
  nth_error scraped i = Some sc ->
  notesOrEmpty scraped i = Query.orEmpty (Scrape.notes sc).
Proof. intros H. unfold notesOrEmpty. now rewrite H. Qed.

(** The suggestion built for the result at position [i]. *)
Lemma suggestionsFor_nth (results : list Query.SearchResult) (i : nat)
                         (r : Query.SearchResult) :
  nth_error results i = Some r ->
  exists suggestions,
    suggestionsFor axios_get cheerioLoad results = inr suggestions
    /\ List.length suggestions = List.length results
    /\ nth_error suggestions i
       = Some (let sc := scrapeOf axios_get cheerioLoad (Query.link r) in
               mkSuggestion (Query.title r) (Query.link r) (Query.snippet r)
                            (truthy (Scrape.price sc))
                            (truthy (Scrape.title sc))
                            (Query.orEmpty (Scrape.notes sc))).
Proof.
  intros H. eexists. split; [apply suggestionsFor_assemble|].
  split; [apply assemble_length|].
  rewrite (assemble_nth _ _ i r H).
  assert (Hs : nth_error
                 (map (fun r => scrapeOf axios_get cheerioLoad (Query.link r))
                      results) i
               = Some (scrapeOf axios_get cheerioLoad (Query.link r)))
    by (rewrite nth_error_map, H; reflexivity).
  now rewrite !(orNull_at _ i _ _ Hs), (notesOrEmpty_at _ i _ Hs).
Qed.

(** The price of a Scrape Result is never the empty string. *)
Lemma scrapeOf_price (u : JValue) :
  truthy (Scrape.price (scrapeOf axios_get cheerioLoad u))
  = Scrape.price (scrapeOf axios_get cheerioLoad u).
Proof.
  unfold scrapeOf.
  destruct (scrapeBasic_cases axios_get cheerioLoad u)
    as [[e H]|[H|[resp [page H]]]]; rewrite H; try reflexivity.
  simpl. rewrite pagePrice_firstPrice.
  destruct (firstPrice (rawCandidates page)) as [p|] eqn:E; [|reflexivity].
  apply firstPrice_Some in E as [b [t [a [_ [_ E]]]]].
  simpl. now rewrite (parsePrice_result_nonEmpty _ _ E).
Qed.

Lemma scrapeOf_failed (u : JValue) :
  Scrape.ok (scrapeOf axios_get cheerioLoad u) = false ->
  Scrape.price (scrapeOf axios_get cheerioLoad u) = None
  /\ Scrape.title (scrapeOf axios_get cheerioLoad u) = None
  /\ Scrape.notes (scrapeOf axios_get cheerioLoad u) = None.
Proof.
  unfold scrapeOf.
  destruct (scrapeBasic_cases axios_get cheerioLoad u)
    as [[e H]|[H|[resp [page H]]]]; rewrite H; simpl; intros Hok;
    try discriminate; repeat split.
Qed.

Lemma scrapeOf_ok (u : JValue) :
  Scrape.ok (scrapeOf axios_get cheerioLoad u) = true ->
  exists ns, Scrape.notes (scrapeOf axios_get cheerioLoad u) = Some ns.
Proof.
  unfold scrapeOf.
  destruct (scrapeBasic_cases axios_get cheerioLoad u)
    as [[e H]|[H|[resp [page H]]]]; rewrite H; simpl; intros Hok;
    try discriminate.
  now eexists.
Qed.

End Assembly.

(** C1. Scraping and assembling a batch of search results always yields a
    list of suggestions, as long as the batch and in its order. The
    suggestion at a position carries the title, the link (as url) and the
    snippet of the search result at that position, and the price, the
    notes and the title (as sourceTitle, an empty title counting as
    absent) of the Scrape Result of that result's link; when that scrape
    failed, price and sourceTitle are absent and notes is empty. A failed
    scrape changes nothing for the other positions. *)
Theorem suggestions_one_per_result :
  forall axios_get cheerioLoad results,
  exists suggestions,
    Routes.suggestionsFor axios_get cheerioLoad results = inr suggestions
    /\ List.length suggestions = List.length results
    /\ forall i r,
         nth_error results i = Some r ->
         exists s sc,
           nth_error suggestions i = Some s
           /\ Scrape.scrapeBasic axios_get cheerioLoad (Query.link r) = inr sc
           /\ Routes.title s = Query.title r
           /\ Routes.url s = Query.link r
           /\ Routes.snippet s = Query.snippet r
           /\ Routes.price s = Scrape.price sc
           /\ Routes.sourceTitle s = truthy (Scrape.title sc)
           /\ Routes.notes s = Query.orEmpty (Scrape.notes sc)
           /\ (Scrape.ok sc = false ->
               Routes.price s = None /\ Routes.sourceTitle s = None
               /\ Routes.notes s = [])
           /\ (Scrape.ok sc = true ->
               Scrape.notes sc = Some (Routes.notes s)).
Proof.
  intros ag cl results. eexists.
  split; [apply suggestionsFor_assemble|].
  split; [apply assemble_length|].
  intros i r H.
  destruct (suggestionsFor_nth ag cl results i r H) as [l [E [_ Hn]]].
  rewrite suggestionsFor_assemble in E. injection E as <-.
  eexists. exists (scrapeOf ag cl (Query.link r)).
  split; [exact Hn|].
  split; [apply scrapeBasic_settles|].
  cbv zeta. simpl.
  split; [reflexivity|]. split; [reflexivity|]. split; [reflexivity|].
  split; [apply scrapeOf_price|].
  split; [reflexivity|]. split; [reflexivity|].
  split.
  - intros Hok. destruct (scrapeOf_failed ag cl _ Hok) as [Hp [Ht Hns]].
    rewrite Hp, Ht, Hns. repeat split.
  - intros Hok. destruct (scrapeOf_ok ag cl _ Hok) as [ns ->]. reflexivity.
Qed.

Lemma suggestions_one_per_result_witness :
  exists l s,
    Routes.suggestionsFor Examples.shopGet Examples.shopLoad Examples.sixResults
    = inr l
    /\ List.length l = 6%nat
    /\ nth_error l 1 = Some s
    /\ Routes.url s = JStr Examples.downUrl
    /\ Routes.price s = None /\ Routes.sourceTitle s = None
    /\ Routes.notes s = [].
Proof.
  destruct (suggestions_one_per_result
              Examples.shopGet Examples.shopLoad Examples.sixResults)
    as [l [H1 [H2 H3]]].
  destruct (H3 1%nat (Examples.hit "Gone" Examples.downUrl) eq_refl)
    as [s [sc [Hn [Hsc [_ [Hu [_ [_ [_ [_ [Hfail _]]]]]]]]]]].
  assert (Hok : Scrape.ok sc = false).
  { assert (E : inr sc
                = inr (A := JError)
                      (erroredScrape (JStr Examples.downUrl) Examples.refused))
      by (rewrite <- Hsc; reflexivity).
    injection E as ->. reflexivity. }
  destruct (Hfail Hok) as [Hp [Ht Hns]].
  exists l, s. repeat split; assumption.
Defined.

(** Six results of which the second and the fourth cannot be scraped: six
    suggestions in the order of the results, the two failed ones without
    price and notes. *)
Example six_results_six_suggestions :
  exists l,
    Routes.suggestionsFor Examples.shopGet Examples.shopLoad Examples.sixResults
    = inr l
    /\ map Routes.title l = map Query.title Examples.sixResults
    /\ map Routes.url l = map Query.link Examples.sixResults
    /\ map Routes.price l
       = [Some (lit "$20"); None; None; None; None; Some (lit "$20")]
    /\ map Routes.sourceTitle l
       = [Some (lit "X"); None; None; None; Some (lit "Notes"); Some (lit "X")]
    /\ map Routes.notes l
       = [[lit "Rose"; lit "musk"]; []; []; []; [lit "rose"; lit "musk"];
          [lit "Rose"; lit "musk"]].
Proof. eexists. split; [vm_compute; reflexivity|]. repeat split. Qed.

(** C5. [scrapeBasic] never raises: its promise is always fulfilled with a
    Scrape Result. When the fetch or the parse throws, the result is the
    url, ok false and the text of the error, which is non-empty for an
    error with a name or a message. When the body of the response is
    absent (falsy) or not a string, the result is the url and ok false,
    without an error. In every other case ok is true. *)
Theorem scrapeBasic_never_raises :
  forall axios_get cheerioLoad u,
    (exists r, Scrape.scrapeBasic axios_get cheerioLoad u = inr r)
    /\ (forall e,
           axios_get u = inl e ->
           Scrape.scrapeBasic axios_get cheerioLoad u
           = inr (Scrape.mkScrapeResult u false None None None None
                                        (Some (errorText e))))
    /\ (forall resp html e,
           axios_get u = inr resp ->
           Scrape.data resp = JStr html -> html <> [] ->
           cheerioLoad html = inl e ->
           Scrape.scrapeBasic axios_get cheerioLoad u
           = inr (Scrape.mkScrapeResult u false None None None None
                                        (Some (errorText e))))
    /\ (forall e,
           err_name e <> [] \/ err_message e <> [] -> errorText e <> [])
    /\ (forall resp,
           axios_get u = inr resp ->
           falsy (Scrape.data resp) = true
           \/ isString (Scrape.data resp) = false ->
           Scrape.scrapeBasic axios_get cheerioLoad u
           = inr (Scrape.mkScrapeResult u false None None None None None))
    /\ (forall resp html page,
           axios_get u = inr resp ->
           Scrape.data resp = JStr html -> html <> [] ->
           cheerioLoad html = inr page ->
           exists r,
             Scrape.scrapeBasic axios_get cheerioLoad u = inr r
             /\ Scrape.ok r = true /\ Scrape.error r = None).
Proof.
  intros ag cl u.
  split; [exists (scrapeOf ag cl u); apply scrapeBasic_settles|].
  split; [intros e H; now apply scrapeBasic_fetch_throws|].
  split; [intros resp html e H Hd Hne Hp;
          now apply (scrapeBasic_parse_throws ag cl u resp html)|].
  split; [|split].
  - intros [name msg]. unfold errorText. simpl. intros [H|H].
    + destruct msg; simpl; [exact H | discriminate].
    + destruct msg; simpl; [contradiction | discriminate].
  - intros resp H Hd. apply (scrapeBasic_no_text ag cl u resp H).
    destruct Hd as [-> | ->]; [reflexivity | apply orb_true_r].
  - intros resp html page H Hd Hne Hp. exists (scrapedPage u resp page).
    split; [now apply (scrapeBasic_success ag cl u resp html)|].
    split; reflexivity.
Qed.

Lemma scrapeBasic_never_raises_witness :
  Scrape.scrapeBasic Examples.shopGet Examples.shopLoad (JStr Examples.downUrl)
  = inr (Scrape.mkScrapeResult (JStr Examples.downUrl) false
                               None None None None
                               (Some (lit "connect ECONNREFUSED")))
  /\ Scrape.scrapeBasic Examples.shopGet Examples.shopLoad (JStr Examples.dataUrl)
     = inr (Scrape.mkScrapeResult (JStr Examples.dataUrl) false
                                  None None None None None).
Proof.
  split.
  - exact (proj1 (proj2 (scrapeBasic_never_raises
                           Examples.shopGet Examples.shopLoad
                           (JStr Examples.downUrl)))
                 Examples.refused eq_refl).
  - exact (proj1 (proj2 (proj2 (proj2 (proj2 (scrapeBasic_never_raises
                           Examples.shopGet Examples.shopLoad
                           (JStr Examples.dataUrl))))))
                 (Scrape.mkResponse (JObj []) None) eq_refl
                 (or_intror eq_refl)).
Defined.

(** C9. A page that is fetched and parsed but has neither a social-preview
    title nor a title element is scraped with ok true and the empty string
    as title, and its suggestion has a null sourceTitle, which is also
    what the suggestion of a failed scrape has. *)
Theorem untitled_page_null_sourceTitle :
  forall axios_get cheerioLoad res resp html page,
    axios_get (Query.link res) = inr resp ->
    Scrape.data resp = JStr html -> html <> [] ->
    cheerioLoad html = inr page ->
    Scrape.contentOf (page Scrape.MetaOgTitle) = None ->
    page Scrape.TitleTag = [] ->
    (exists sc s,
        Scrape.scrapeBasic axios_get cheerioLoad (Query.link res) = inr sc
        /\ Scrape.ok sc = true
        /\ Scrape.title sc = Some []
        /\ Routes.suggestionsFor axios_get cheerioLoad [res] = inr [s]
        /\ Routes.sourceTitle s = None)
    /\ (forall e,
           map Routes.sourceTitle
               (Routes.assemble [res] [erroredScrape (Query.link res) e])
           = [None])
    /\ map Routes.sourceTitle
           (Routes.assemble [res] [failedScrape (Query.link res)])
       = [None].
Proof.
  intros ag cl res resp html page H Hd Hne Hp Hog Htitle.
  pose proof (scrapeBasic_success ag cl _ resp html page H Hd Hne Hp) as Hs.
  assert (Ht : Scrape.pageTitle page = []).
  { unfold Scrape.pageTitle. rewrite Hog, Htitle. reflexivity. }
  split; [|split; [intros e|]; reflexivity].
  exists (scrapedPage (Query.link res) resp page). eexists.
  split; [exact Hs|].
  split; [reflexivity|].
  split; [simpl; now rewrite Ht|].
  split.
  - rewrite suggestionsFor_assemble. simpl map. unfold scrapeOf. rewrite Hs.
    reflexivity.
  - simpl. unfold Routes.orNull. simpl. now rewrite Ht.
Qed.

Lemma untitled_page_null_sourceTitle_witness :
  exists sc s,
    Scrape.scrapeBasic Examples.shopGet Examples.shopLoad (JStr Examples.plainUrl)
    = inr sc
    /\ Scrape.ok sc = true
    /\ Scrape.title sc = Some []
    /\ Routes.suggestionsFor Examples.shopGet Examples.shopLoad
         [Examples.hit "Plain" Examples.plainUrl] = inr [s]
    /\ Routes.sourceTitle s = None.
Proof.
  exact (proj1 (untitled_page_null_sourceTitle
                  Examples.shopGet Examples.shopLoad
                  (Examples.hit "Plain" Examples.plainUrl)
                  (Scrape.mkResponse (JStr (lit "<html>plain</html>")) None)
                  (lit "<html>plain</html>") Examples.plainPage
                  eq_refl eq_refl ltac:(discriminate) eq_refl eq_refl eq_refl)).
Defined.

(* ================================================================== *)
(** * Query synthesis *)
(* ================================================================== *)

Section Queries.

Import Query.

Lemma trim_keeps_end (P K : jstring) (h z : N) (K0 K1 : jstring) :
  K = h :: K1 -> K = K0 ++ [z] ->
  isWhiteSpace h = false -> isWhiteSpace z = false ->
  exists P', trim (P ++ K) = P' ++ K.
Proof.
  intros Hh Hz Wh Wz. unfold trim.
  destruct (trimStart_keeps P h K1 Wh) as [P' HP'].
  exists P'. rewrite Hh, HP', <- Hh, Hz, app_assoc.
  now apply trimEnd_snoc.
Qed.

Lemma join_In (sep : jstring) (l : list jstring) (x : jstring) :
  In x l -> exists a b, join sep l = a ++ x ++ b.
Proof.
  induction l as [|y l IH]; [intros []|].
  intros [->|H].
  - destruct l as [|y' l'].
    + exists [], []. simpl. now rewrite app_nil_r.
    + exists [], (sep ++ join sep (y' :: l')). reflexivity.
  - destruct (IH H) as [a [b E]].
    destruct l as [|y' l']; [destruct H|].
    exists (y ++ sep ++ a), b.
    change (join sep (y :: y' :: l')) with (y ++ sep ++ join sep (y' :: l')).
    rewrite E, <- !app_assoc. reflexivity.
Qed.

(** A text that occurs between two others keeps its collapsed, trimmed
    form when the whole is collapsed and trimmed. *)
Lemma collapsed_note_kept (A note B : jstring) :
  includes (trim (collapseWhitespace (A ++ note ++ B)))
           (collapseWhitespace (trim note)) = true.
Proof.
  destruct (trim_split note) as [P [Q E]].
  destruct (trim note) as [|h k1] eqn:Ek.
  { destruct (trim (collapseWhitespace (A ++ note ++ B))); reflexivity. }
  pose proof (trim_head _ _ _ Ek) as Wh.
  destruct (exists_last (l := h :: k1) ltac:(discriminate)) as [k0 [z Ez]].
  assert (Wz : isWhiteSpace z = false).
  { apply (trim_last note k0 z). now rewrite Ek. }
  assert (EW : A ++ note ++ B = (A ++ P) ++ (h :: k1) ++ (Q ++ B)).
  { rewrite E, <- !app_assoc. reflexivity. }
  rewrite EW. unfold collapseWhitespace.
  rewrite collapse_from_app.
  assert (Eh : forall b, collapse_from b ((h :: k1) ++ Q ++ B)
                         = collapse_from false (h :: k1)
                           ++ collapse_from (endsInSpace false (h :: k1)) (Q ++ B)).
  { intros b. rewrite <- collapse_from_app. simpl. now rewrite Wh. }
  rewrite Eh.
  assert (K1 : exists c1, collapse_from false (h :: k1) = h :: c1).
  { simpl. rewrite Wh. now eexists. }
  assert (K0 : exists c0, collapse_from false (h :: k1) = c0 ++ [z]).
  { rewrite Ez. apply collapse_from_last. exact Wz. }
  destruct K1 as [c1 Hc1]. destruct K0 as [c0 Hc0].
  destruct (trim_keeps (collapse_from false (A ++ P))
                       (collapse_from false (h :: k1))
                       (collapse_from (endsInSpace false (h :: k1)) (Q ++ B))
                       h z c0 c1 Hc1 Hc0 Wh Wz) as [P' [Q' ->]].
  apply includes_infix.
Qed.

Lemma phrase_collapsed (b : bool) :
  collapse_from b (lit " perfume with price")
  = (if b then [] else [SPACE]) ++ lit "perfume with price".
Proof. destruct b; reflexivity. Qed.

Lemma mainQuery_suffix (notes : NotesArg) :
  exists p, mainQuery notes = p ++ lit "perfume with price".
Proof.
  unfold mainQuery. cbv zeta.
  set (top := join [SPACE] (slice0 3 (orEmpty (arg_top notes)))).
  set (mid := join [SPACE] (slice0 3 (orEmpty (arg_middle notes)))).
  set (base := join [SPACE] (slice0 3 (orEmpty (arg_base notes)))).
  replace (top ++ lit " " ++ mid ++ lit " " ++ base ++ lit " perfume with price")
    with ((top ++ lit " " ++ mid ++ lit " " ++ base) ++ lit " perfume with price")
    by (now rewrite <- !app_assoc).
  unfold collapseWhitespace. rewrite collapse_from_app, phrase_collapsed.
  rewrite app_assoc.
  apply (trim_keeps_end _ (lit "perfume with price") 112%N 101%N
           (lit "perfume with pric") (lit "erfume with price"));
    reflexivity.
Qed.

Lemma mainQuery_length (notes : NotesArg) :
  (18 <= List.length (mainQuery notes))%nat.
Proof.
  destruct (mainQuery_suffix notes) as [p ->].
  rewrite length_app. change (List.length (lit "perfume with price")) with 18%nat.
  lia.
Qed.

(** The replacement of line 185 is never used. *)
Lemma buildPerfumeQueryFromNotes_main (notes : NotesArg) :
  buildPerfumeQueryFromNotes notes = mainQuery notes.
Proof.
  unfold buildPerfumeQueryFromNotes. cbv zeta.
  pose proof (mainQuery_length notes) as H.
  destruct (Nat.ltb_spec (List.length (mainQuery notes)) 10); [lia | reflexivity].
Qed.

Lemma mainQuery_note (notes : NotesArg) (note : jstring) :
  In note (queryNotes notes) ->
  includes (mainQuery notes) (collapseWhitespace (trim note)) = true.
Proof.
  unfold queryNotes, mainQuery. cbv zeta. intros H.
  set (top := slice0 3 (orEmpty (arg_top notes))) in *.
  set (mid := slice0 3 (orEmpty (arg_middle notes))) in *.
  set (base := slice0 3 (orEmpty (arg_base notes))) in *.
  apply in_app_or in H as [H|H]; [|apply in_app_or in H as [H|H]];
    destruct (join_In [SPACE] _ _ H) as [a [b E]]; rewrite E.
  - replace ((a ++ note ++ b) ++ lit " " ++ join [SPACE] mid ++ lit " "
             ++ join [SPACE] base ++ lit " perfume with price")
      with (a ++ note ++ (b ++ lit " " ++ join [SPACE] mid ++ lit " "
                          ++ join [SPACE] base ++ lit " perfume with price"))
      by (now rewrite <- !app_assoc).
    apply collapsed_note_kept.
  - replace (join [SPACE] top ++ lit " " ++ (a ++ note ++ b) ++ lit " "
             ++ join [SPACE] base ++ lit " perfume with price")
      with ((join [SPACE] top ++ lit " " ++ a) ++ note
            ++ (b ++ lit " " ++ join [SPACE] base ++ lit " perfume with price"))
      by (now rewrite <- !app_assoc).
    apply collapsed_note_kept.
  - replace (join [SPACE] top ++ lit " " ++ join [SPACE] mid ++ lit " "
             ++ (a ++ note ++ b) ++ lit " perfume with price")
      with ((join [SPACE] top ++ lit " " ++ join [SPACE] mid ++ lit " " ++ a)
            ++ note ++ (b ++ lit " perfume with price"))
      by (now rewrite <- !app_assoc).
    apply collapsed_note_kept.
Qed.

End Queries.

(** C4, as the code has it. [buildPerfumeQueryFromNotes] joins the first
    three entries of top, middle and base with the phrase "perfume with
    price", collapses the white space and trims. The result always ends
    with "perfume with price", so it has at least 18 units, is never
    empty, and the replacement for a string shorter than 10 units is never
    used. The query contains the trimmed, white-space-collapsed form of
    each of the notes it reads, hence the note itself when the note is
    already in that form. *)
Theorem buildQuery_joins_first_three :
  forall notes,
    Query.buildPerfumeQueryFromNotes notes = Query.mainQuery notes
    /\ (exists p,
           Query.buildPerfumeQueryFromNotes notes
           = p ++ lit "perfume with price")
    /\ (18 <= List.length (Query.buildPerfumeQueryFromNotes notes))%nat
    /\ Query.buildPerfumeQueryFromNotes notes <> []
    /\ (forall note,
           In note (queryNotes notes) ->
           includes (Query.buildPerfumeQueryFromNotes notes)
                    (collapseWhitespace (trim note)) = true)
    /\ (forall note,
           In note (queryNotes notes) ->
           collapseWhitespace (trim note) = note ->
           includes (Query.buildPerfumeQueryFromNotes notes) note = true)
    /\ Query.buildPerfumeQueryFromNotes Examples.citrusNotes
       = lit "bergamot lemon musk perfume with price"
    /\ Query.buildPerfumeQueryFromNotes Examples.noNotes
       = lit "perfume with price".
Proof.
  intros notes. rewrite buildPerfumeQueryFromNotes_main.
  split; [reflexivity|].
  split; [apply mainQuery_suffix|].
  split; [apply mainQuery_length|].
  split.
  { pose proof (mainQuery_length notes) as H. intros E. rewrite E in H.
    simpl in H. lia. }
  split; [intros note H; now apply mainQuery_note|].
  split; [|split; reflexivity].
  intros note H E. rewrite <- E. now apply mainQuery_note.
Qed.

Lemma buildQuery_joins_first_three_witness :
  includes (Query.buildPerfumeQueryFromNotes Examples.citrusNotes)
           (lit "lemon") = true.
Proof.
  exact (proj1 (proj2 (proj2 (proj2 (proj2 (proj2
                 (buildQuery_joins_first_three Examples.citrusNotes))))))
               (lit "lemon") (or_intror (or_introl eq_refl)) eq_refl).
Defined.

(** C4, as stated, fails: a Note Set whose only note is "ylang  ylang",
    written with two spaces, has a non-empty bucket, and its query, "ylang
    ylang perfume with price", contains none of its notes. *)
Lemma buildQuery_contains_note_counterexample :
  allNotes Examples.spacedNotes = [lit "ylang  ylang"]
  /\ Query.buildPerfumeQueryFromNotes Examples.spacedNotes
     = lit "ylang ylang perfume with price"
  /\ forall note,
       In note (allNotes Examples.spacedNotes) ->
       includes (Query.buildPerfumeQueryFromNotes Examples.spacedNotes) note
       = false.
Proof.
  split; [reflexivity|]. split; [reflexivity|].
  intros note [<-|[]]. reflexivity.
Qed.

(* ================================================================== *)
(** * The search client *)
(* ================================================================== *)

Section Credentials.

Import Query.

Lemma orDefault_empty (v : option jstring) :
  orDefault v [] = [] <-> v = None \/ v = Some [].
Proof.
  destruct v as [[|c s]|]; simpl; split; intros H;
    try reflexivity; try (now left); try (now right); try discriminate.
  destruct H as [H|H]; discriminate.
Qed.

Lemma googleSearch_missing (env : Env)
                           (customsearch : SearchRequest -> result JValue)
                           (query : jstring) (num : Z) :
  GOOGLE_API_KEY env = [] \/ GOOGLE_CSE_CX env = [] ->
  googleSearch env customsearch query num = ([], inl missingCredentials).
Proof.
  intros H. unfold googleSearch.
  destruct H as [-> | ->]; simpl; [reflexivity|].
  now rewrite orb_true_r.
Qed.

Lemma googleSearch_present (env : Env)
                           (customsearch : SearchRequest -> result JValue)
                           (query : jstring) (num : Z) :
  GOOGLE_API_KEY env <> [] -> GOOGLE_CSE_CX env <> [] ->
  let req := mkSearchRequest (GOOGLE_API_KEY env) (GOOGLE_CSE_CX env)
                             (buildSiteQuery env query) num
                             (lit "active") (lit "lang_en") in
  fst (googleSearch env customsearch query num) = [req]
  /\ (forall e, customsearch req = inl e ->
                snd (googleSearch env customsearch query num) = inl e).
Proof.
  intros Hk Hc req. unfold googleSearch.
  apply nonEmpty_true in Hk, Hc. rewrite Hk, Hc. simpl.
  split; [reflexivity|].
  intros e He. fold req. now rewrite He.
Qed.

End Credentials.

(** C8. When the key or the engine id is missing from the environment
    (unset or empty), [googleSearch] throws the configuration error
    without having issued a request, whatever the query and the limit.
    When both are present it issues its one request, with those
    credentials, the site-restricted query and the limit, and an error
    then is the provider's. *)
Theorem googleSearch_credentials_checked_first :
  forall env customsearch query num,
    (Query.GOOGLE_API_KEY env = [] \/ Query.GOOGLE_CSE_CX env = [] ->
     Query.googleSearch env customsearch query num
     = ([], inl Query.missingCredentials))
    /\ (Query.GOOGLE_API_KEY env <> [] -> Query.GOOGLE_CSE_CX env <> [] ->
        let req := Query.mkSearchRequest
                     (Query.GOOGLE_API_KEY env) (Query.GOOGLE_CSE_CX env)
                     (Query.buildSiteQuery env query) num
                     (lit "active") (lit "lang_en") in
        fst (Query.googleSearch env customsearch query num) = [req]
        /\ (forall e, customsearch req = inl e ->
                      snd (Query.googleSearch env customsearch query num)
                      = inl e))
    /\ (Query.GOOGLE_API_KEY env = [] <->
        Query.env_GOOGLE_API_KEY env = None
        \/ Query.env_GOOGLE_API_KEY env = Some [])
    /\ (Query.GOOGLE_CSE_CX env = [] <->
        Query.env_GOOGLE_CSE_CX env = None
        \/ Query.env_GOOGLE_CSE_CX env = Some [])
    /\ errorText Query.missingCredentials
       = lit "Missing GOOGLE_API_KEY or GOOGLE_CSE_CX in environment.".
Proof.
  intros env cs query num.
  split; [apply googleSearch_missing|].
  split; [apply googleSearch_present|].
  split; [apply orDefault_empty|].
  split; [apply orDefault_empty | reflexivity].
Qed.

Lemma googleSearch_credentials_checked_first_witness :
  Query.googleSearch Examples.keylessEnv Examples.twoItems (lit "rose") 6
  = ([], inl Query.missingCredentials)
  /\ List.length
       (fst (Query.googleSearch Examples.fullEnv Examples.twoItems
                                (lit "rose") 6)) = 1%nat.
Proof.
  split.
  - exact (proj1 (googleSearch_credentials_checked_first
                    Examples.keylessEnv Examples.twoItems (lit "rose") 6)
                 (or_introl eq_refl)).
  - rewrite (proj1 (proj1 (proj2 (googleSearch_credentials_checked_first
                      Examples.fullEnv Examples.twoItems (lit "rose") 6))
                    ltac:(discriminate) ltac:(discriminate))).
    reflexivity.
Defined.

(** With both credentials the search goes through and the route answers
    with one suggestion per item of the provider's reply. *)
Example searchRoute_two_items :
  exists l,
    Routes.searchRoute Examples.fullEnv Examples.twoItems
                       Examples.shopGet Examples.shopLoad Examples.citrusNotes
    = inr (lit "bergamot lemon musk perfume with price", l)
    /\ map Routes.url l = [JStr Examples.roseUrl; JStr Examples.plainUrl]
    /\ map Routes.price l = [Some (lit "$20"); None].
Proof. eexists. split; [vm_compute; reflexivity|]. repeat split. Qed.

(* ================================================================== *)
(** * Further properties of the price extractor *)
(* ================================================================== *)

Section PriceMore.

Local Open Scope N_scope.

Lemma parsePrice_form (text p : jstring) :
  parsePrice text = Some p ->
  exists sym ds dec,
    isCurrency sym = true /\ ds <> [] /\ forallb isDigit ds = true
    /\ p = sym :: ds ++ dec
    /\ (dec = [] \/ exists d1 d2,
           dec = [DOT; d1; d2] /\ isDigit d1 = true /\ isDigit d2 = true).
Proof.
  rewrite parsePrice_unfold. destruct (negb (nonEmpty text)); [discriminate|].
  destruct (matchPrice (collapseWhitespace text)) as [[m1 m2]|] eqn:E;
    [|discriminate].
  intros H. injection H as <-.
  destruct (matchPrice_Some _ _ _ E) as [Hs [ds [dec [Hne [Hd [-> Hdec]]]]]].
  simpl. rewrite (currency_not_comma _ Hs), (replaceFirst_digits _ _ Hd).
  exists m1, ds, (replaceFirst COMMA DOT dec).
  repeat split; try assumption.
  destruct Hdec as [->|[sep [d1 [d2 [-> [H0 [H1 H2]]]]]]]; [now left|].
  right. exists d1, d2. fold (dotted [sep; d1; d2]).
  now rewrite (dotted_decimals _ _ _ H0 H1 H2).
Qed.

Lemma collapse_from_idem (b : bool) (s : jstring) :
  collapse_from b (collapse_from b s) = collapse_from b s.
Proof.
  revert b. induction s as [|c s IH]; intros b; [reflexivity|].
  simpl. destruct (isWhiteSpace c) eqn:Hc.
  - destruct b; [apply IH|]. simpl. now rewrite IH.
  - simpl. now rewrite Hc, IH.
Qed.

Lemma collapse_nonEmpty (s : jstring) :
  nonEmpty (collapseWhitespace s) = nonEmpty s.
Proof.
  destruct s as [|c r]; [reflexivity|].
  unfold collapseWhitespace. simpl. now destruct (isWhiteSpace c).
Qed.

End PriceMore.

(** X1. A price that [parsePrice] returns is read back as itself: the
    extractor is idempotent on its results. *)
Theorem parsePrice_reads_back :
  forall text p, parsePrice text = Some p -> parsePrice p = Some p.
Proof.
  intros text p H.
  destruct (parsePrice_form _ _ H)
    as [sym [ds [dec [Hs [Hne [Hd [-> Hdec]]]]]]].
  destruct Hdec as [->|[d1 [d2 [-> [H1 H2]]]]].
  - exact (parsePrice_at_first [] sym [] ds [] eq_refl Hs eq_refl Hne Hd eq_refl).
  - pose proof (parsePrice_at_first [] sym [] ds [DOT; d1; d2]
                  eq_refl Hs eq_refl Hne Hd eq_refl) as E.
    simpl app in E. rewrite E. do 3 f_equal.
    simpl decimals. rewrite H1, H2. simpl.
    now apply dotted_decimals.
Qed.

Lemma parsePrice_reads_back_witness :
  parsePrice (EURO :: lit "9.99") = Some (EURO :: lit "9.99").
Proof.
  exact (parsePrice_reads_back (lit "only " ++ EURO :: lit " 9,99 today")
                               (EURO :: lit "9.99") eq_refl).
Defined.

(** X2. [parsePrice] only sees a text through its white-space-collapsed
    form: collapsing beforehand changes nothing, and two texts with the
    same collapsed form have the same price. *)
Theorem parsePrice_whitespace_blind :
  (forall text, parsePrice (collapseWhitespace text) = parsePrice text)
  /\ (forall a b,
         collapseWhitespace a = collapseWhitespace b ->
         parsePrice a = parsePrice b).
Proof.
  assert (H : forall text,
             parsePrice text
             = if negb (nonEmpty (collapseWhitespace text)) then None
               else match matchPrice (collapseWhitespace text) with
                    | None => None
                    | Some (m1, m2) => Some (replaceFirst COMMA DOT (m1 :: m2))
                    end).
  { intros text. rewrite parsePrice_unfold. now rewrite collapse_nonEmpty. }
  split.
  - intros text. rewrite (H (collapseWhitespace text)), (H text).
    unfold collapseWhitespace. now rewrite collapse_from_idem.
  - intros a b E. rewrite (H a), (H b). now rewrite E.
Qed.

Lemma parsePrice_whitespace_blind_witness :
  parsePrice (lit "from  $" ++ [9%N; 10%N] ++ lit "5") = parsePrice (lit "from $ 5").
Proof.
  exact (proj2 parsePrice_whitespace_blind
               (lit "from  $" ++ [9%N; 10%N] ++ lit "5") (lit "from $ 5")
               eq_refl).
Defined.

(* ================================================================== *)
(** * Further properties of the note extractor *)
(* ================================================================== *)

Section NormMore.

Import Notes.

Lemma fold_Set_add_fresh (l acc : list jstring) :
  NoDup (acc ++ l) -> fold_left Set_add l acc = acc ++ l.
Proof.
  revert acc. induction l as [|x l IH]; intros acc H; simpl.
  - now rewrite app_nil_r.
  - assert (Hx : Set_has acc x = false).
    { destruct (Set_has acc x) eqn:E; [|reflexivity].
      apply Set_has_In in E. apply NoDup_remove_2 in H.
      exfalso. apply H. apply in_or_app. now left. }
    unfold Set_add at 2. rewrite Hx.
    rewrite IH; rewrite <- app_assoc; [reflexivity | exact H].
Qed.

Lemma uniq_NoDup_id (l : list jstring) : NoDup l -> uniq l = l.
Proof. intros H. unfold uniq. now rewrite fold_Set_add_fresh. Qed.

Lemma normStrings_fixed (toLowerCase : jstring -> jstring) (l : list jstring) :
  normalized toLowerCase l -> normStrings toLowerCase l = l.
Proof.
  intros [Hnd [Hlen Hall]]. unfold normStrings, slice0, filterBoolean.
  assert (Hmap : map (lowered toLowerCase) l = l).
  { clear Hnd Hlen. induction Hall as [|e l [_ [H1 H2]] _ IH]; [reflexivity|].
    simpl. unfold lowered at 1. now rewrite H1, H2, IH. }
  rewrite Hmap, (uniq_NoDup_id _ Hnd).
  assert (Hf : filter nonEmpty l = l).
  { clear Hnd Hlen Hmap. induction Hall as [|e l [H0 _] _ IH]; [reflexivity|].
    simpl. apply nonEmpty_true in H0. now rewrite H0, IH. }
  rewrite Hf. now apply firstn_all2.
Qed.

End NormMore.

(** X3. Normalizing is idempotent: a bucket that [norm] has produced is
    left as it is when [norm] is applied to it again, nothing of it being
    merged, dropped or cut. Of the engine's [toLowerCase] this uses that a
    lower-cased text is still lower-cased once it is trimmed. *)
Theorem norm_idempotent :
  forall toLowerCase,
    LowerCase toLowerCase ->
    forall arr l,
      Notes.norm toLowerCase arr = inr l ->
      Notes.norm toLowerCase (Notes.strings l) = inr l.
Proof.
  intros toLowerCase HL arr l H. rewrite norm_strings. f_equal.
  apply normStrings_fixed. exact (norm_normalized _ _ _ HL H).
Qed.

Lemma norm_idempotent_witness :
  Notes.norm Examples.basicLower
             (Notes.strings [lit "rose"; lit "ylang ylang"])
  = inr [lit "rose"; lit "ylang ylang"].
Proof.
  exact (norm_idempotent
           Examples.basicLower basicLower_LowerCase
           (Notes.strings [lit " Rose"; lit "ROSE "; lit ""; lit "Ylang Ylang"])
           [lit "rose"; lit "ylang ylang"] eq_refl).
Defined.

Section JsonBlock.

Local Open Scope N_scope.
Import Notes Regex.

(** What follows the star in [jsonRegex]: a closing brace and the end. *)
Local Abbreviation closing :=
  (fun (s1 acc1 : jstring) =>
     run (Seq (Cls (fun c => c =? RBRACE)) Eos) s1 acc1 []
         (fun (_ : jstring) acc caps => Some (rev acc :: caps))).

Lemma closing_cases (s acc : jstring) :
  closing s acc
  = match s with
    | [c] => if c =? RBRACE then Some [rev acc ++ [c]] else None
    | _ => None
    end.
Proof.
  destruct s as [|c [|d r]]; simpl; try reflexivity;
    destruct (c =? RBRACE); reflexivity.
Qed.

Lemma lastIs_cons (c x y : N) (r : jstring) :
  lastIs c (x :: y :: r) = lastIs c (y :: r).
Proof. reflexivity. Qed.

Lemma star_any_closing (s acc : jstring) :
  star (fun _ => true) s acc closing
  = if lastIs RBRACE s then Some [rev acc ++ s] else None.
Proof.
  revert acc. induction s as [|c s IH]; intros acc.
  - reflexivity.
  - change (star (fun _ => true) (c :: s) acc closing)
      with (match star (fun _ => true) s (c :: acc) closing with
            | Some x => Some x
            | None => closing (c :: s) acc
            end).
    rewrite IH, closing_cases.
    destruct s as [|d r].
    + simpl. destruct (c =? RBRACE); reflexivity.
    + rewrite lastIs_cons. destruct (lastIs RBRACE (d :: r)); [|reflexivity].
      simpl. now rewrite <- app_assoc.
Qed.

Lemma matchAt_jsonRegex (c : N) (r : jstring) :
  matchAt jsonRegex (c :: r)
  = if (c =? LBRACE) && lastIs RBRACE r then Some [c :: r] else None.
Proof.
  change (matchAt jsonRegex (c :: r))
    with (if c =? LBRACE
          then star (fun _ => true) r [c] closing
          else None).
  destruct (c =? LBRACE); [|reflexivity].
  rewrite star_any_closing. reflexivity.
Qed.

Lemma exec_jsonRegex_no_close (s : jstring) :
  lastIs RBRACE s = false -> exec jsonRegex s = None.
Proof.
  induction s as [|c s IH]; intros H; [reflexivity|].
  change (exec jsonRegex (c :: s))
    with (match matchAt jsonRegex (c :: s) with
          | Some m => Some m
          | None => exec jsonRegex s
          end).
  rewrite matchAt_jsonRegex.
  destruct s as [|d r].
  - simpl lastIs. rewrite andb_false_r. reflexivity.
  - rewrite lastIs_cons in H. rewrite H, andb_false_r. now apply IH.
Qed.

Lemma lastIs_not_first (s : jstring) (c : N) (r : jstring) :
  lastIs RBRACE s = true -> s = c :: r -> (c =? LBRACE) = true ->
  lastIs RBRACE r = true.
Proof.
  intros H -> Hc. destruct r as [|d r]; [|exact H].
  simpl in H. apply N.eqb_eq in H, Hc. subst c. discriminate.
Qed.

Lemma exec_jsonRegex_close (s : jstring) :
  lastIs RBRACE s = true ->
  exec jsonRegex s
  = match fromFirst LBRACE s with
    | Some block => Some [block]
    | None => None
    end.
Proof.
  induction s as [|c s IH]; intros H; [reflexivity|].
  change (exec jsonRegex (c :: s))
    with (match matchAt jsonRegex (c :: s) with
          | Some m => Some m
          | None => exec jsonRegex s
          end).
  rewrite matchAt_jsonRegex. simpl fromFirst.
  destruct (c =? LBRACE) eqn:Hc.
  - now rewrite (lastIs_not_first _ c s H eq_refl Hc).
  - simpl andb. cbv iota. destruct s as [|d r]; [reflexivity|].
    apply IH. exact H.
Qed.

End JsonBlock.

(** X4. The expression that looks for a JSON object in the model's reply
    finds one exactly when the reply ends with a closing brace and holds
    an opening brace, and what it hands to [JSON.parse] is the reply from
    its first opening brace to its end. *)
Theorem jsonMatch_first_brace_to_end :
  forall text, Notes.jsonMatch text = jsonBlock text.
Proof.
  intros text. unfold Notes.jsonMatch, jsonBlock.
  destruct (lastIs Notes.RBRACE text) eqn:H.
  - rewrite (exec_jsonRegex_close _ H).
    now destruct (fromFirst Notes.LBRACE text).
  - now rewrite (exec_jsonRegex_no_close _ H).
Qed.

Section LineScan.

Local Open Scope N_scope.
Import Notes.

Lemma splitUnit_nonempty (sep : N) (s : jstring) : splitUnit sep s <> [].
Proof.
  induction s as [|c s IH]; simpl; [discriminate|].
  destruct (c =? sep); [discriminate|].
  destruct (splitUnit sep s); [contradiction | discriminate].
Qed.

Lemma splitUnit_pieces (sep : N) (s piece : jstring) :
  In piece (splitUnit sep s) ->
  Forall (fun c => In c s /\ (c =? sep) = false) piece.
Proof.
  revert piece. induction s as [|c s IH]; intros piece H; simpl in H.
  - destruct H as [<-|[]]. constructor.
  - assert (W : forall q, Forall (fun x => In x s /\ (x =? sep) = false) q ->
                           Forall (fun x => In x (c :: s) /\ (x =? sep) = false) q).
    { intros q Hq. eapply Forall_impl; [|exact Hq].
      intros x [H1 H2]. split; [now right | exact H2]. }
    destruct (c =? sep) eqn:Hc.
    + destruct H as [<-|H]; [constructor | now apply W, IH].
    + destruct (splitUnit sep s) as [|h t] eqn:E;
        [now destruct (splitUnit_nonempty sep s)|].
      destruct H as [<-|H].
      * constructor; [split; [now left | exact Hc]|].
        apply W, IH. now left.
      * apply W, IH. now right.
Qed.

Lemma afterFirst_None (p : jstring -> bool) (lines : list jstring) :
  (forall l, In l lines -> p l = false) -> afterFirst p lines = None.
Proof.
  induction lines as [|l r IH]; intros H; [reflexivity|].
  simpl. rewrite (H l (or_introl eq_refl)). apply IH.
  intros x Hx. apply H. now right.
Qed.

Lemma kept_not_comma (c : N) :
  keptUnit c = true -> (c =? COMMA) = false -> noteUnit c = true.
Proof.
  unfold keptUnit, noteUnit. intros H Hc. rewrite Hc, orb_false_r in H.
  exact H.
Qed.

Lemma bucket_entries (lines : list jstring) (k : string) (e : jstring) :
  In e (bucket lines k) ->
  e <> [] /\ trim e = e /\ forallb noteUnit e = true.
Proof.
  unfold bucket. destruct (afterFirst _ lines) as [after|]; [|intros []].
  unfold slice0, filterBoolean. intros H.
  apply In_firstn in H. apply filter_In in H as [H Hne].
  apply in_map_iff in H as [piece [<- Hp]].
  split; [now apply nonEmpty_true|]. split; [apply trim_idem|].
  apply forallb_forall. apply Forall_forall. apply trim_Forall.
  apply (Forall_impl _ (P := fun c => In c (filter keptUnit (join [SPACE] after))
                                   /\ (c =? COMMA) = false)).
  - intros c [Hin Hc]. apply filter_In in Hin as [_ Hk].
    now apply kept_not_comma.
  - now apply splitUnit_pieces.
Qed.

Lemma bucket_length (lines : list jstring) (k : string) :
  (List.length (bucket lines k) <= 6)%nat.
Proof.
  unfold bucket. destruct (afterFirst _ lines); [|simpl; lia].
  apply firstn_le_length.
Qed.

Lemma noteUnit_lower (c : N) : noteUnit c = true -> lowerUnit c = c.
Proof.
  unfold noteUnit, lowerUnit, SPACE. intros H.
  destruct ((65 <=? c) && (c <=? 90)) eqn:E; [|reflexivity].
  apply andb_true_iff in E as [E1 E2]. apply N.leb_le in E1, E2.
  apply orb_true_iff in H as [H|H].
  - apply andb_true_iff in H as [H _]. apply N.leb_le in H. lia.
  - apply N.eqb_eq in H. lia.
Qed.

Lemma noteUnit_basicLatin (c : N) : noteUnit c = true -> isBasicLatin c = true.
Proof.
  unfold noteUnit, isBasicLatin, SPACE. intros H. apply N.ltb_lt.
  apply orb_true_iff in H as [H|H].
  - apply andb_true_iff in H as [_ H]. apply N.leb_le in H. lia.
  - apply N.eqb_eq in H. lia.
Qed.

(** [toLowerCase] leaves a text of small letters and spaces as it is. *)
Lemma notes_lower (toLowerCase : jstring -> jstring) (x : jstring) :
  LowerCase toLowerCase -> forallb noteUnit x = true -> toLowerCase x = x.
Proof.
  intros HL Hu. rewrite (lower_basicLatin HL).
  - rewrite forallb_forall in Hu.
    induction x as [|c x IH]; [reflexivity|].
    simpl. rewrite (noteUnit_lower c (Hu c (or_introl eq_refl))), IH;
      [reflexivity|]. intros y Hy. apply Hu. now right.
  - apply forallb_forall. intros c Hc. apply noteUnit_basicLatin.
    rewrite forallb_forall in Hu. now apply Hu.
Qed.

Lemma normStrings_of_notes (toLowerCase : jstring -> jstring)
                           (l : list jstring) :
  LowerCase toLowerCase ->
  (forall e, In e l -> e <> [] /\ trim e = e /\ forallb noteUnit e = true) ->
  (forall e, In e (normStrings toLowerCase l) -> In e l)
  /\ (List.length (normStrings toLowerCase l) <= List.length l)%nat.
Proof.
  intros HL H.
  assert (Hin : forall e, In e (normStrings toLowerCase l) -> In e l).
  { intros e He. destruct (normStrings_from _ _ _ He) as [x [Hx ->]].
    destruct (H x Hx) as [_ [Ht Hu]]. unfold lowered.
    now rewrite (notes_lower toLowerCase x HL Hu), Ht. }
  split; [exact Hin|].
  apply NoDup_incl_length; [|exact Hin].
  destruct (normStrings_normalized toLowerCase l HL) as [Hnd _]. exact Hnd.
Qed.

(** The lines of a text are parts of it. *)
Lemma splitLines_from_infix (b : bool) (s l : jstring) :
  In l (splitLines_from b s) -> exists x y, s = x ++ l ++ y.
Proof.
  revert b l. induction s as [|c s IH]; intros b l H; simpl in H.
  - destruct H as [<-|[]]. now exists [], [].
  - destruct (c =? NEWLINE).
    + assert (G : In l (splitLines_from true s) \/ l = []).
      { destruct b; [now left|]. destruct H as [<-|H]; [now right | now left]. }
      destruct G as [G| ->].
      * destruct (IH _ _ G) as [x [y ->]]. now exists (c :: x), y.
      * now exists [], (c :: s).
    + destruct (splitLines_from false s) as [|h t] eqn:E; simpl in H.
      * destruct H as [<-|[]]. exists [], s. reflexivity.
      * destruct H as [<-|H].
        -- (* [h] is the first line: it starts where [s] starts *)
           assert (Hx : exists y', s = h ++ y').
           { clear -E. revert h t E. induction s as [|d s IHs]; intros h t E.
             - simpl in E. injection E as <- <-. now exists [].
             - simpl in E. destruct (d =? NEWLINE).
               + injection E as <- _. now exists (d :: s).
               + destruct (splitLines_from false s) as [|h' t'] eqn:E'.
                 * injection E as <- _. exists s. reflexivity.
                 * injection E as <- _. destruct (IHs h' t' eq_refl) as [y' ->].
                   now exists y'. }
           destruct Hx as [y' ->]. now exists [], y'.
        -- destruct (IH false l) as [x [y ->]]; [rewrite E; now right|].
           now exists (c :: x), y.
Qed.

Lemma includes_line (s l k : jstring) :
  (exists x y, s = x ++ l ++ y) ->
  includes s k = false -> includes l k = false.
Proof.
  intros [x [y ->]] H. destruct (includes l k) eqn:E; [|reflexivity].
  destruct (includes_true _ _ E) as [a [b ->]].
  rewrite <- H. symmetry.
  replace (x ++ (a ++ k ++ b) ++ y) with ((x ++ a) ++ k ++ (b ++ y))
    by (now rewrite <- !app_assoc).
  apply includes_infix.
Qed.

Lemma bucket_no_label (text : jstring) (k : string) :
  includes text (lit k) = false -> bucket (splitLines text) k = [].
Proof.
  intros H. unfold bucket. rewrite afterFirst_None; [reflexivity|].
  intros l Hl. apply (includes_line text); [|exact H].
  now apply (splitLines_from_infix false).
Qed.

End LineScan.

(** X5. When [JSON.parse] rejects what the reply gives it, the line scan
    gives a Note Set whose buckets have at most six entries each, every
    entry made of small letters and single or several spaces only; a label
    that occurs nowhere in the lower-cased reply gives an empty bucket, so
    a reply without any of the three labels gives the empty Note Set. Of
    the engine's [toLowerCase] this uses what it does on Basic Latin. *)
Theorem line_scan_note_set :
  forall toLowerCase ollama_generate JSON_parse scene data t,
    LowerCase toLowerCase ->
    ollama_generate (Notes.promptFor scene) = inr data ->
    Notes.orValue (Notes.optProp data "response") (JStr []) = JStr t ->
    (exists e, JSON_parse (parsedText (trim t)) = inl e) ->
    exists ns,
      Notes.ollamaNotesFromScene toLowerCase ollama_generate JSON_parse scene
      = inr ns
      /\ (List.length (Notes.top ns) <= 6)%nat
      /\ (List.length (Notes.middle ns) <= 6)%nat
      /\ (List.length (Notes.base ns) <= 6)%nat
      /\ (forall e,
             In e (Notes.top ns ++ Notes.middle ns ++ Notes.base ns) ->
             forallb noteUnit e = true)
      /\ (includes (toLowerCase (trim t)) (lit "top") = false ->
          Notes.top ns = [])
      /\ (includes (toLowerCase (trim t)) (lit "middle") = false ->
          Notes.middle ns = [])
      /\ (includes (toLowerCase (trim t)) (lit "base") = false ->
          Notes.base ns = []).
Proof.
  intros lc og jp scene data t HL Hd Ht HJ.
  eexists.
  split; [exact (ollamaNotesFromScene_fallback lc og jp scene data t Hd Ht HJ)|].
  cbv zeta. simpl Notes.top. simpl Notes.middle. simpl Notes.base.
  set (lines := Notes.splitLines (lc (trim t))).
  assert (B : forall k,
             (forall e, In e (normStrings lc (Notes.bucket lines k)) ->
                        In e (Notes.bucket lines k))
             /\ (List.length (normStrings lc (Notes.bucket lines k))
                 <= List.length (Notes.bucket lines k))%nat).
  { intros k. apply normStrings_of_notes; [exact HL|].
    intros e. apply bucket_entries. }
  assert (L : forall k,
             (List.length (normStrings lc (Notes.bucket lines k)) <= 6)%nat).
  { intros k. destruct (B k) as [_ H]. pose proof (bucket_length lines k). lia. }
  assert (E : forall k, includes (lc (trim t)) (lit k) = false ->
                        normStrings lc (Notes.bucket lines k) = []).
  { intros k H. unfold lines. now rewrite (bucket_no_label _ k H). }
  repeat split; try apply L; try apply E.
  intros e He.
  assert (G : exists k, In e (normStrings lc (Notes.bucket lines k))).
  { apply in_app_or in He as [He|He]; [now exists "top"%string|].
    apply in_app_or in He as [He|He];
      [now exists "middle"%string | now exists "base"%string]. }
  destruct G as [k Hk]. destruct (B k) as [Hin _].
  now destruct (bucket_entries lines k e (Hin e Hk)) as [_ [_ H]].
Qed.

Lemma line_scan_note_set_witness :
  exists ns,
    Notes.ollamaNotesFromScene Examples.basicLower
                               (fun _ => inr Samples.labelledReply)
                               Examples.parseSample (lit "a walk in a garden")
    = inr ns
    /\ (List.length (Notes.top ns) <= 6)%nat.
Proof.
  destruct (line_scan_note_set
              Examples.basicLower
              (fun _ => inr Samples.labelledReply) Examples.parseSample
              (lit "a walk in a garden") Samples.labelledReply
              (lit "Top: " ++ [NEWLINE] ++ lit "Bergamot, Lemon" ++ [NEWLINE]
               ++ lit "Middle:" ++ [NEWLINE] ++ lit "Rose" ++ [NEWLINE]
               ++ lit "Base:" ++ [NEWLINE] ++ lit "Musk, Amber")
              basicLower_LowerCase eq_refl eq_refl
              (ex_intro _ _ eq_refl))
    as [ns [H1 [H2 _]]].
  exists ns. split; [exact H1 | exact H2].
Defined.

(** The label of a bucket stops nothing: the notes of the top bucket are
    read from everything that follows the line of its label, the lines of
    the later labels included. *)
Example line_scan_runs_on :
  Notes.ollamaNotesFromScene Examples.basicLower
                             (fun _ => inr Samples.labelledReply)
                             Examples.noJSON (lit "a walk in a garden")
  = inr (Notes.mkNoteSet
           [lit "bergamot"; lit "lemon middle rose base musk"; lit "amber"]
           [lit "rose base musk"; lit "amber"]
           [lit "musk"; lit "amber"]).
Proof. vm_compute. reflexivity. Qed.

Section BucketTypes.

Import Notes.

Variable toLowerCase : jstring -> jstring.

Local Abbreviation lowerTrim := (Notes.lowerTrim toLowerCase).
Local Abbreviation norm := (Notes.norm toLowerCase).

Lemma mapM_lowerTrim_bad (items : list JValue) :
  forallb isString items = false ->
  exists e, mapM lowerTrim items = inl e /\ err_name e = lit "TypeError".
Proof.
  induction items as [|v items IH]; intros H; [discriminate|].
  simpl in H. destruct v; simpl;
    try (eexists; split; reflexivity).
  simpl in H. destruct (IH H) as [e [-> He]]. now exists e.
Qed.

Lemma mapM_lowerTrim_good (items : list JValue) :
  forallb isString items = true -> exists l, mapM lowerTrim items = inr l.
Proof.
  induction items as [|v items IH]; intros H; [now exists []|].
  simpl in H. apply andb_true_iff in H as [Hv H].
  destruct v; try discriminate. simpl.
  destruct (IH H) as [l ->]. now eexists.
Qed.

Lemma norm_types (v : JValue) :
  if falsy v || stringArray v
  then exists l, norm v = inr l
  else exists e, norm v = inl e /\ err_name e = lit "TypeError".
Proof.
  unfold Notes.norm, orValue.
  destruct (falsy v) eqn:F; [now eexists|]. simpl orb.
  destruct v; simpl in *; try discriminate;
    try (eexists; split; reflexivity).
  destruct (forallb isString items) eqn:E.
  - destruct (mapM_lowerTrim_good _ E) as [l ->]. now eexists.
  - destruct (mapM_lowerTrim_bad _ E) as [e [-> He]]. now exists e.
Qed.

Lemma getProp_optProp (parsed : JValue) (k : Key) :
  parsed <> JUndefined -> parsed <> JNull ->
  getProp parsed k = inr (optProp parsed k).
Proof. destruct parsed; intros H1 H2; try reflexivity; contradiction. Qed.

End BucketTypes.

(** X6. Parsing failures are absorbed, wrong types are not: once the model
    has answered with a text, [ollamaNotesFromScene] returns a Note Set
    when what was parsed is neither [null] nor [undefined] and each of its
    three buckets is falsy or an array of strings, and throws a TypeError
    in every other case. *)
Theorem extractNotes_returns_on_string_arrays :
  forall toLowerCase ollama_generate JSON_parse scene data t,
    ollama_generate (Notes.promptFor scene) = inr data ->
    Notes.orValue (Notes.optProp data "response") (JStr []) = JStr t ->
    let parsed := Notes.parseReply toLowerCase JSON_parse (trim t) in
    if bucketOk parsed "top" && bucketOk parsed "middle" && bucketOk parsed "base"
    then exists ns,
           Notes.ollamaNotesFromScene toLowerCase ollama_generate JSON_parse
                                      scene = inr ns
    else exists e,
           Notes.ollamaNotesFromScene toLowerCase ollama_generate JSON_parse
                                      scene = inl e
           /\ err_name e = lit "TypeError".
Proof.
  intros lc og jp scene data t Hd Ht parsed.
  unfold Notes.ollamaNotesFromScene. rewrite Hd. step. rewrite Ht. step.
  fold parsed.
  destruct parsed as [| |b|z|s|items|props|name arity] eqn:Ep;
    try (simpl; eexists; split; reflexivity);
    unfold bucketOk;
    (rewrite !getProp_optProp by discriminate);
    pose proof (norm_types lc (Notes.optProp parsed "top")) as N1;
    pose proof (norm_types lc (Notes.optProp parsed "middle")) as N2;
    pose proof (norm_types lc (Notes.optProp parsed "base")) as N3;
    rewrite Ep in N1, N2, N3;
    repeat match goal with
    | H : (if ?c then _ else _) |- _ =>
        let E := fresh "E" in destruct c eqn:E
    end;
    simpl andb; cbv iota;
    repeat match goal with
    | H : exists l, _ = inr l |- _ => destruct H as [? ->]
    | H : exists e, _ = inl e /\ _ |- _ =>
        let e := fresh "e" in let He := fresh "He" in
        destruct H as [e [-> He]]
    end;
    step;
    try (eexists; reflexivity);
    try (eexists; split; [reflexivity | assumption]).
Qed.

Lemma extractNotes_returns_on_string_arrays_witness :
  exists e,
    Notes.ollamaNotesFromScene Examples.basicLower
                               (fun _ => inr Samples.looseReply)
                               Samples.parseLoose (lit "a walk in a garden")
    = inl e
    /\ err_name e = lit "TypeError".
Proof.
  exact (extractNotes_returns_on_string_arrays
           Examples.basicLower
           (fun _ => inr Samples.looseReply) Samples.parseLoose
           (lit "a walk in a garden") Samples.looseReply Samples.looseJSON
           eq_refl eq_refl).
Defined.

(* ================================================================== *)
(** * Further properties of the search client *)
(* ================================================================== *)

Section SearchMore.

Import Query.

Lemma toSearchResult_defined (it : JValue) :
  defined it = true -> toSearchResult it = inr (resultOf it).
Proof.
  intros H. unfold toSearchResult, resultOf.
  destruct it; try discriminate; reflexivity.
Qed.

Lemma toSearchResult_undefined (it : JValue) :
  defined it = false ->
  exists e, toSearchResult it = inl e /\ err_name e = lit "TypeError".
Proof.
  intros H. destruct it; try discriminate; eexists; split; reflexivity.
Qed.

Lemma mapM_toSearchResult (its : list JValue) :
  forallb defined its = true ->
  Notes.mapM toSearchResult its = inr (map resultOf its).
Proof.
  induction its as [|it its IH]; intros H; [reflexivity|].
  simpl in H. apply andb_true_iff in H as [H1 H2].
  simpl. rewrite (toSearchResult_defined _ H1). step. rewrite (IH H2).
  reflexivity.
Qed.

Lemma googleSearch_with_credentials (env : Env)
        (customsearch : SearchRequest -> result JValue)
        (query : jstring) (num : Z) :
  GOOGLE_API_KEY env <> [] -> GOOGLE_CSE_CX env <> [] ->
  googleSearch env customsearch query num
  = ([requestFor env query num],
     bind (customsearch (requestFor env query num))
          (fun data =>
             bind (Notes.getProp data "items")
                  (fun items =>
                     match Notes.orValue items (JArr []) with
                     | JArr its => Notes.mapM toSearchResult its
                     | _ => throw (TypeError "map is not a function")
                     end))).
Proof.
  intros Hk Hc. unfold googleSearch.
  apply nonEmpty_true in Hk, Hc. now rewrite Hk, Hc.
Qed.

End SearchMore.

(** X7. With both credentials, [googleSearch] turns the items of the
    provider's reply into Search Results one for one and in their order.
    The fields of a result are what the item answers for [title], [link]
    and [snippet]: its own properties for an object, [undefined] where it
    has none; for a string the method [link] that strings inherit, and
    [undefined] twice; [undefined] three times for a number, a boolean or
    an array. A reply without items gives no results, and an error of the
    provider is the error of the search. *)
Theorem googleSearch_items_in_order :
  forall env customsearch query num,
    Query.GOOGLE_API_KEY env <> [] -> Query.GOOGLE_CSE_CX env <> [] ->
    (forall data its,
        customsearch (requestFor env query num) = inr data ->
        Notes.getProp data "items" = inr (JArr its) ->
        forallb defined its = true ->
        snd (Query.googleSearch env customsearch query num)
        = inr (map resultOf its))
    /\ (forall props,
           resultOf (JObj props)
           = Query.mkSearchResult (Notes.lookupProp props (lit "title"))
                                  (Notes.lookupProp props (lit "link"))
                                  (Notes.lookupProp props (lit "snippet")))
    /\ (forall s,
           resultOf (JStr s)
           = Query.mkSearchResult JUndefined (JFun (lit "link") 1) JUndefined)
    /\ (forall it,
           defined it = true ->
           (forall props, it <> JObj props) -> (forall s, it <> JStr s) ->
           resultOf it = Query.mkSearchResult JUndefined JUndefined JUndefined)
    /\ (forall data v,
           customsearch (requestFor env query num) = inr data ->
           Notes.getProp data "items" = inr v -> falsy v = true ->
           snd (Query.googleSearch env customsearch query num) = inr [])
    /\ (forall e,
           customsearch (requestFor env query num) = inl e ->
           snd (Query.googleSearch env customsearch query num) = inl e).
Proof.
  intros env cs query num Hk Hc.
  rewrite (googleSearch_with_credentials env cs query num Hk Hc). simpl snd.
  split; [|split; [|split; [|split; [|split]]]].
  - intros data its Hd Hi Hdef. rewrite Hd. step. rewrite Hi. step.
    unfold Notes.orValue. simpl falsy. cbv iota.
    now apply mapM_toSearchResult.
  - reflexivity.
  - reflexivity.
  - intros it Hdef Ho Hs.
    destruct it as [| |b|z|s|items|props|name arity];
      try discriminate; try reflexivity.
    + now destruct (Hs s).
    + now destruct (Ho props).
  - intros data v Hd Hi Hf. rewrite Hd. step. rewrite Hi. step.
    unfold Notes.orValue. rewrite Hf. reflexivity.
  - intros e He. now rewrite He.
Qed.

Lemma googleSearch_items_in_order_witness :
  snd (Query.googleSearch Examples.fullEnv Examples.twoItems (lit "rose") 6)
  = inr [ Examples.hit "Rose EdP" Examples.roseUrl;
          Examples.hit "Plain" Examples.plainUrl ].
Proof.
  exact (proj1 (googleSearch_items_in_order
                  Examples.fullEnv Examples.twoItems (lit "rose") 6
                  ltac:(discriminate) ltac:(discriminate))
               _ _ eq_refl eq_refl eq_refl).
Defined.

Section SiteQuery.

Import Query.

Lemma join_sites_includes (sep : jstring) (l : list jstring) (d : jstring) :
  In d l ->
  exists a b, join sep (map (fun x => lit "site:" ++ x) l)
              = a ++ (lit "site:" ++ d) ++ b.
Proof.
  intros H. apply join_In. now apply in_map.
Qed.

Lemma SEARCH_DOMAINS_entries (env : Env) (d : jstring) :
  In d (SEARCH_DOMAINS env) -> d <> [] /\ trim d = d.
Proof.
  unfold SEARCH_DOMAINS, filterBoolean. intros H.
  apply filter_In in H as [H Hne]. apply in_map_iff in H as [x [<- _]].
  split; [now apply nonEmpty_true | apply trim_idem].
Qed.

Lemma buildSiteQuery_cases (env : Env) (query : jstring) :
  buildSiteQuery env query
  = match SEARCH_DOMAINS env with
    | [] => query
    | _ :: _ =>
        query ++ lit " ("
        ++ join (lit " OR ")
                (map (fun d => lit "site:" ++ d) (SEARCH_DOMAINS env))
        ++ lit ")"
    end.
Proof. unfold buildSiteQuery. now destruct (SEARCH_DOMAINS env). Qed.

End SiteQuery.

(** X8. [buildSiteQuery] only appends: the query it returns begins with
    the query it was given, is that query when the allow-list is empty,
    and otherwise names every domain of the list as site:domain. The
    domains of the list are never empty and carry no white space at either
    end; when [SEARCH_DOMAINS] is unset or empty the list is the three
    default domains. *)
Theorem buildSiteQuery_appends_sites :
  forall env query,
    (exists rest, Query.buildSiteQuery env query = query ++ rest)
    /\ (Query.SEARCH_DOMAINS env = [] ->
        Query.buildSiteQuery env query = query)
    /\ (forall d,
           In d (Query.SEARCH_DOMAINS env) ->
           d <> [] /\ trim d = d
           /\ includes (Query.buildSiteQuery env query) (lit "site:" ++ d)
              = true)
    /\ (Query.env_SEARCH_DOMAINS env = None
        \/ Query.env_SEARCH_DOMAINS env = Some [] ->
        Query.SEARCH_DOMAINS env = defaultDomains).
Proof.
  intros env query. rewrite buildSiteQuery_cases.
  split; [|split; [|split]].
  - destruct (Query.SEARCH_DOMAINS env); [exists []; now rewrite app_nil_r|].
    now eexists.
  - now intros ->.
  - intros d Hd. destruct (SEARCH_DOMAINS_entries env d Hd) as [H1 H2].
    split; [exact H1|]. split; [exact H2|].
    destruct (join_sites_includes (lit " OR ") _ d Hd) as [a [b E]].
    destruct (Query.SEARCH_DOMAINS env) as [|d0 ds]; [destruct Hd|].
    rewrite E.
    replace (query ++ lit " (" ++ (a ++ (lit "site:" ++ d) ++ b) ++ lit ")")
      with ((query ++ lit " (" ++ a) ++ (lit "site:" ++ d) ++ (b ++ lit ")"))
      by (now rewrite <- !app_assoc).
    apply includes_infix.
  - unfold Query.SEARCH_DOMAINS. intros [-> | ->]; reflexivity.
Qed.

Lemma buildSiteQuery_appends_sites_witness :
  includes (Query.buildSiteQuery Examples.fullEnv (lit "rose perfume"))
           (lit "site:parfumo.net") = true.
Proof.
  exact (proj2 (proj2 (proj1 (proj2 (proj2
                 (buildSiteQuery_appends_sites Examples.fullEnv
                                               (lit "rose perfume"))))
               (lit "parfumo.net") (or_intror (or_introl eq_refl))))).
Defined.

(* ================================================================== *)
(** * Further properties of the query synthesizer *)
(* ================================================================== *)

Section Collapsed.

Local Open Scope N_scope.

Lemma collapsedFrom_collapse (b : bool) (s : jstring) :
  collapsedFrom b (collapse_from b s) = true.
Proof.
  revert b. induction s as [|c s IH]; intros b; [reflexivity|].
  simpl. destruct (isWhiteSpace c) eqn:Hc.
  - destruct b; [apply IH|]. simpl. apply IH.
  - simpl. rewrite Hc. apply IH.
Qed.

Lemma collapsedFrom_fixed (b : bool) (s : jstring) :
  collapsedFrom b s = true -> collapse_from b s = s.
Proof.
  revert b. induction s as [|c s IH]; intros b H; [reflexivity|].
  simpl in *. destruct (isWhiteSpace c).
  - apply andb_true_iff in H as [H H3]. apply andb_true_iff in H as [H1 H2].
    apply N.eqb_eq in H1. subst c. destruct b; [discriminate|].
    now rewrite (IH true H3).
  - now rewrite (IH false H).
Qed.

Lemma collapsedFrom_weaken (b : bool) (s : jstring) :
  collapsedFrom b s = true -> collapsedFrom false s = true.
Proof.
  destruct b; [|trivial]. destruct s as [|c s]; [trivial|].
  simpl. destruct (isWhiteSpace c); [|trivial].
  rewrite andb_false_r. discriminate.
Qed.

Lemma collapsedFrom_suffix (b : bool) (P m : jstring) :
  collapsedFrom b (P ++ m) = true -> collapsedFrom false m = true.
Proof.
  revert b. induction P as [|c P IH]; intros b H.
  - exact (collapsedFrom_weaken b m H).
  - simpl in H. destruct (isWhiteSpace c).
    + apply andb_true_iff in H as [_ H]. exact (IH true H).
    + exact (IH false H).
Qed.

Lemma collapsedFrom_prefix (b : bool) (m Q : jstring) :
  collapsedFrom b (m ++ Q) = true -> collapsedFrom b m = true.
Proof.
  revert b. induction m as [|c m IH]; intros b H; [reflexivity|].
  simpl in *. destruct (isWhiteSpace c).
  - apply andb_true_iff in H as [H H3]. rewrite H. simpl. exact (IH true H3).
  - exact (IH false H).
Qed.

Lemma trim_collapsed (s : jstring) :
  collapsedFrom false s = true -> collapsedFrom false (trim s) = true.
Proof.
  intros H. destruct (trim_split s) as [P [Q E]]. rewrite E in H.
  apply collapsedFrom_suffix in H. exact (collapsedFrom_prefix _ _ _ H).
Qed.

End Collapsed.

(** X9. The query is in normal form: collapsing its white space or
    trimming it again changes nothing, so it has no white space at either
    end and no white space other than single spaces. *)
Theorem buildQuery_normal_form :
  forall notes,
    collapseWhitespace (Query.buildPerfumeQueryFromNotes notes)
    = Query.buildPerfumeQueryFromNotes notes
    /\ trim (Query.buildPerfumeQueryFromNotes notes)
       = Query.buildPerfumeQueryFromNotes notes
    /\ collapsedFrom false (Query.buildPerfumeQueryFromNotes notes) = true.
Proof.
  intros notes. rewrite buildPerfumeQueryFromNotes_main.
  assert (H : collapsedFrom false (Query.mainQuery notes) = true).
  { unfold Query.mainQuery. cbv zeta. apply trim_collapsed.
    apply collapsedFrom_collapse. }
  split; [exact (collapsedFrom_fixed false _ H)|].
  split; [|exact H].
  unfold Query.mainQuery. cbv zeta. apply trim_idem.
Qed.

(** X10. Only the first three notes of each bucket reach the query, and a
    bucket the object lacks counts as an empty one: two arguments whose
    buckets agree on their first three entries give the same query. *)
Theorem buildQuery_reads_three :
  forall notes notes',
    slice0 3 (Query.orEmpty (Query.arg_top notes))
    = slice0 3 (Query.orEmpty (Query.arg_top notes')) ->
    slice0 3 (Query.orEmpty (Query.arg_middle notes))
    = slice0 3 (Query.orEmpty (Query.arg_middle notes')) ->
    slice0 3 (Query.orEmpty (Query.arg_base notes))
    = slice0 3 (Query.orEmpty (Query.arg_base notes')) ->
    Query.buildPerfumeQueryFromNotes notes
    = Query.buildPerfumeQueryFromNotes notes'.
Proof.
  intros notes notes' Ht Hm Hb. rewrite !buildPerfumeQueryFromNotes_main.
  unfold Query.mainQuery. cbv zeta. now rewrite Ht, Hm, Hb.
Qed.

Lemma buildQuery_reads_three_witness :
  Query.buildPerfumeQueryFromNotes
    (Query.mkNotesArg
       (Some [lit "bergamot"; lit "lemon"; lit "neroli"; lit "mint"])
       None (Some [lit "musk"]))
  = Query.buildPerfumeQueryFromNotes
      (Query.mkNotesArg (Some [lit "bergamot"; lit "lemon"; lit "neroli"])
                        (Some []) (Some [lit "musk"])).
Proof.
  exact (buildQuery_reads_three
           (Query.mkNotesArg
              (Some [lit "bergamot"; lit "lemon"; lit "neroli"; lit "mint"])
              None (Some [lit "musk"]))
           (Query.mkNotesArg (Some [lit "bergamot"; lit "lemon"; lit "neroli"])
                             (Some []) (Some [lit "musk"]))
           eq_refl eq_refl eq_refl).
Defined.

(* ================================================================== *)
(** * The routes *)
(* ================================================================== *)

Section RouteLemmas.

Import Server.

Lemma sceneRejected_iff (scene : JValue) :
  sceneRejected scene = false <-> exists s, sceneAccepted scene s.
Proof.
  unfold sceneRejected, sceneAccepted. split.
  - destruct scene as [| |b|z|s|items|props|name arity]; simpl;
      rewrite ?orb_true_r; try discriminate.
    intros H. apply orb_false_iff in H as [_ H]. apply Nat.ltb_ge in H.
    now exists s.
  - intros [s [-> H]]. simpl.
    destruct s as [|c s]; [simpl in H; lia|]. simpl negb. simpl orb.
    now apply Nat.ltb_ge.
Qed.

Lemma sceneAccepted_text (scene : JValue) (s : jstring) :
  sceneAccepted scene s ->
  sceneRejected scene = false /\ sceneText scene = s.
Proof.
  intros H. split; [apply sceneRejected_iff; now exists s|].
  destruct H as [-> _]. reflexivity.
Qed.

Lemma getProp_notesValue (arg : Query.NotesArg) :
  Notes.getProp (notesValue arg) "top" = inr (bucketValue (Query.arg_top arg))
  /\ Notes.getProp (notesValue arg) "middle"
     = inr (bucketValue (Query.arg_middle arg))
  /\ Notes.getProp (notesValue arg) "base"
     = inr (bucketValue (Query.arg_base arg)).
Proof. destruct arg as [[t|] [m|] [b|]]; repeat split. Qed.

Variable elementText : JValue -> jstring.
Hypothesis elementText_string : forall s, elementText (JStr s) = s.

Lemma map_elementText (l : list jstring) :
  map elementText (map JStr l) = l.
Proof.
  induction l as [|x l IH]; [reflexivity|].
  simpl. now rewrite elementText_string, IH.
Qed.

Lemma firstThree_bucket (b : option (list jstring)) :
  firstThree elementText (bucketValue b)
  = inr (join [SPACE] (slice0 3 (Query.orEmpty b))).
Proof.
  destruct b as [l|]; [|reflexivity].
  unfold firstThree, Notes.orValue, bucketValue, Notes.strings. simpl falsy.
  cbv iota. unfold slice0. rewrite <- firstn_map, map_elementText. reflexivity.
Qed.

(** On the object of a Note Set argument the query of the route is the
    query of the argument. *)
Lemma buildPerfumeQueryFromNotes_value (arg : Query.NotesArg) :
  Server.buildPerfumeQueryFromNotes elementText (notesValue arg)
  = inr (Query.buildPerfumeQueryFromNotes arg).
Proof.
  unfold Server.buildPerfumeQueryFromNotes.
  destruct (getProp_notesValue arg) as [-> [-> ->]].
  step. rewrite !firstThree_bucket. step.
  rewrite buildPerfumeQueryFromNotes_main.
  fold (Query.mainQuery arg).
  pose proof (mainQuery_length arg) as H.
  destruct (Nat.ltb_spec (List.length (Query.mainQuery arg)) 10); [lia|].
  reflexivity.
Qed.

End RouteLemmas.

Lemma assemble_urls (results : list Query.SearchResult)
                    (scraped : list Scrape.ScrapeResult) :
  map Routes.url (Routes.assemble results scraped) = map Query.link results.
Proof.
  unfold Routes.assemble, Routes.mapi. generalize 0%nat.
  induction results as [|r results IH]; intros k; [reflexivity|].
  simpl. f_equal. apply IH.
Qed.

(** X11. [/api/extract-notes] answers 400 exactly when the scene of the
    request is missing, is not a string or has fewer than five units, and
    that whatever the model would reply or throw; for an accepted scene it
    answers with the Note Set of the model's reply, or 500 with the text
    of the error when the extraction throws. *)
Theorem api_extract_notes_contract :
  forall toLowerCase ollama_generate JSON_parse body,
    (Server.sceneRejected (Server.field body "scene") = false <->
     exists s, sceneAccepted (Server.field body "scene") s)
    /\ (Server.sceneRejected (Server.field body "scene") = true ->
        Server.apiExtractNotes toLowerCase ollama_generate JSON_parse body
        = Server.Status 400 Server.sceneMessage)
    /\ (forall s,
           sceneAccepted (Server.field body "scene") s ->
           Server.apiExtractNotes toLowerCase ollama_generate JSON_parse body
           = match Notes.ollamaNotesFromScene toLowerCase ollama_generate
                                                JSON_parse s with
             | inr notes => Server.Json notes
             | inl e => Server.Status 500 (errorText e)
             end).
Proof.
  intros lc og jp body.
  split; [apply sceneRejected_iff|]. split.
  - intros H. unfold Server.apiExtractNotes. cbv zeta. now rewrite H.
  - intros s H. destruct (sceneAccepted_text _ _ H) as [Hr Ht].
    unfold Server.apiExtractNotes. cbv zeta. rewrite Hr, Ht.
    now destruct (Notes.ollamaNotesFromScene lc og jp s).
Qed.

Lemma api_extract_notes_contract_witness :
  Server.apiExtractNotes Examples.basicLower
                         (fun _ => inr Examples.plainReply) Examples.noJSON
                         (JObj [(lit "scene", JStr (lit "rain"))])
  = Server.Status 400 Server.sceneMessage
  /\ Server.apiExtractNotes Examples.basicLower
                            (fun _ => inr Examples.plainReply) Examples.noJSON
                            (JObj [(lit "scene", JStr (lit "rainy garden"))])
     = Server.Json (Notes.mkNoteSet [lit "rose"; lit "jasmine"] [] []).
Proof.
  split.
  - exact (proj1 (proj2 (api_extract_notes_contract
                           Examples.basicLower
                           (fun _ => inr Examples.plainReply) Examples.noJSON
                           (JObj [(lit "scene", JStr (lit "rain"))])))
                 eq_refl).
  - apply (proj2 (proj2 (api_extract_notes_contract
                           Examples.basicLower
                           (fun _ => inr Examples.plainReply) Examples.noJSON
                           (JObj [(lit "scene", JStr (lit "rainy garden"))])))
                 (lit "rainy garden")).
    split; [reflexivity|]. vm_compute. repeat constructor.
Defined.

(** X12. [/api/search] answers 400 when the notes of the request are
    missing or no object. For the object of a Note Set argument it answers
    500 with the configuration message when a credential is missing,
    whatever the pages would answer, and otherwise, when the search gives
    results, 200 with the query of the argument and one suggestion per
    result. *)
Theorem api_search_contract :
  forall env customsearch axios_get cheerioLoad elementText body,
    (Server.notesRejected (Server.field body "notes") = true ->
     Server.apiSearch env customsearch axios_get cheerioLoad elementText body
     = Server.Status 400 Server.notesMessage)
    /\ (forall arg,
           (forall s, elementText (JStr s) = s) ->
           Server.field body "notes" = notesValue arg ->
           (Query.GOOGLE_API_KEY env = [] \/ Query.GOOGLE_CSE_CX env = [] ->
            Server.apiSearch env customsearch axios_get cheerioLoad
                             elementText body
            = Server.Status 500
                (lit "Missing GOOGLE_API_KEY or GOOGLE_CSE_CX in environment."))
           /\ (forall results,
                  snd (Query.googleSearch env customsearch
                         (Query.buildPerfumeQueryFromNotes arg) 6)
                  = inr results ->
                  exists suggestions,
                    Server.apiSearch env customsearch axios_get cheerioLoad
                                     elementText body
                    = Server.Json (Query.buildPerfumeQueryFromNotes arg,
                                   suggestions)
                    /\ List.length suggestions = List.length results
                    /\ map Routes.url suggestions = map Query.link results)).
Proof.
  intros env cs ag cl et body. split.
  - intros H. unfold Server.apiSearch. cbv zeta. now rewrite H.
  - intros arg Het Hn.
    assert (E : forall r,
               snd (Query.googleSearch env cs
                      (Query.buildPerfumeQueryFromNotes arg) 6) = r ->
               Server.apiSearch env cs ag cl et body
               = Server.answer
                   (bind r (fun results =>
                      bind (Routes.suggestionsFor ag cl results)
                           (fun suggestions =>
                              ret (Server.Json
                                     (Query.buildPerfumeQueryFromNotes arg,
                                      suggestions)))))).
    { intros r <-. unfold Server.apiSearch. cbv zeta. rewrite Hn.
      change (Server.notesRejected (notesValue arg)) with false. cbv iota.
      rewrite (buildPerfumeQueryFromNotes_value et Het arg). reflexivity. }
    split.
    + intros Hmiss. rewrite (E _ eq_refl).
      now rewrite (googleSearch_missing env cs _ 6 Hmiss).
    + intros results Hr. rewrite (E _ Hr). step.
      rewrite suggestionsFor_assemble. step. eexists.
      split; [reflexivity|]. split; [apply assemble_length|].
      apply assemble_urls.
Qed.

Lemma api_search_contract_witness :
  Server.apiSearch Examples.keylessEnv Examples.twoItems
                   Examples.shopGet Examples.shopLoad Samples.stringText
                   (JObj [(lit "notes", notesValue Examples.citrusNotes)])
  = Server.Status 500
      (lit "Missing GOOGLE_API_KEY or GOOGLE_CSE_CX in environment.").
Proof.
  exact (proj1 (proj2 (api_search_contract
                         Examples.keylessEnv Examples.twoItems
                         Examples.shopGet Examples.shopLoad Samples.stringText
                         (JObj [(lit "notes", notesValue Examples.citrusNotes)]))
                      Examples.citrusNotes (fun s => eq_refl) eq_refl)
               (or_introl eq_refl)).
Defined.

(** X13. [/api/find] runs its stages in order: a rejected scene is
    answered with 400; an accepted one goes to the model first, so that an
    error of the extraction is answered with 500 and its text whatever the
    credentials and the search provider are; only when the Note Set is
    there is a missing credential answered with 500 and the configuration
    message; and when the search gives results the answer holds the Note
    Set, its query and one suggestion per result. *)
Theorem api_find_contract :
  forall env customsearch axios_get cheerioLoad
         toLowerCase ollama_generate JSON_parse body,
    (Server.sceneRejected (Server.field body "scene") = true ->
     Server.apiFind env customsearch axios_get cheerioLoad
                    toLowerCase ollama_generate JSON_parse body
     = Server.Status 400 Server.sceneMessage)
    /\ (forall s,
           sceneAccepted (Server.field body "scene") s ->
           (forall e,
               Notes.ollamaNotesFromScene toLowerCase ollama_generate
                                          JSON_parse s = inl e ->
               Server.apiFind env customsearch axios_get cheerioLoad
                              toLowerCase ollama_generate JSON_parse body
               = Server.Status 500 (errorText e))
           /\ (forall notes,
                  Notes.ollamaNotesFromScene toLowerCase ollama_generate
                                             JSON_parse s
                  = inr notes ->
                  let query :=
                    Query.buildPerfumeQueryFromNotes (Query.ofNoteSet notes) in
                  (Query.GOOGLE_API_KEY env = [] \/ Query.GOOGLE_CSE_CX env = [] ->
                   Server.apiFind env customsearch axios_get cheerioLoad
                                  toLowerCase ollama_generate JSON_parse body
                   = Server.Status 500
                       (lit "Missing GOOGLE_API_KEY or GOOGLE_CSE_CX in environment."))
                  /\ (forall results,
                         snd (Query.googleSearch env customsearch query 6)
                         = inr results ->
                         exists suggestions,
                           Server.apiFind env customsearch axios_get cheerioLoad
                                          toLowerCase ollama_generate JSON_parse body
                           = Server.Json (notes, query, suggestions)
                           /\ List.length suggestions = List.length results
                           /\ map Routes.url suggestions
                              = map Query.link results))).
Proof.
  intros env cs ag cl lc og jp body. split.
  - intros H. unfold Server.apiFind. cbv zeta. now rewrite H.
  - intros s H. destruct (sceneAccepted_text _ _ H) as [Hr Ht].
    assert (E : Server.apiFind env cs ag cl lc og jp body
                = Server.answer
                    (bind (Routes.findRoute env cs ag cl lc og jp s)
                          (fun found => ret (Server.Json found)))).
    { unfold Server.apiFind. cbv zeta. now rewrite Hr, Ht. }
    rewrite E. unfold Routes.findRoute. split.
    + intros e He. now rewrite He.
    + intros notes Hn. rewrite Hn. step.
      set (query := Query.buildPerfumeQueryFromNotes (Query.ofNoteSet notes)).
      split.
      * intros Hmiss. now rewrite (googleSearch_missing env cs query 6 Hmiss).
      * intros results Hres. rewrite Hres. step.
        rewrite suggestionsFor_assemble. step. eexists.
        split; [reflexivity|]. split; [apply assemble_length|].
        apply assemble_urls.
Qed.

Lemma api_find_contract_witness :
  Server.apiFind Examples.keylessEnv Examples.twoItems
                 Examples.shopGet Examples.shopLoad
                 Examples.basicLower
                 (fun _ => inl Examples.refused) Examples.noJSON
                 (JObj [(lit "scene", JStr (lit "rainy garden"))])
  = Server.Status 500 (lit "connect ECONNREFUSED").
Proof.
  assert (H : sceneAccepted
                (Server.field (JObj [(lit "scene", JStr (lit "rainy garden"))])
                              "scene")
                (lit "rainy garden")).
  { split; [reflexivity|]. vm_compute. repeat constructor. }
  exact (proj1 (proj2 (api_find_contract
                         Examples.keylessEnv Examples.twoItems
                         Examples.shopGet Examples.shopLoad
                         Examples.basicLower
                         (fun _ => inl Examples.refused) Examples.noJSON
                         (JObj [(lit "scene", JStr (lit "rainy garden"))]))
                      (lit "rainy garden") H)
               Examples.refused eq_refl).
Defined.

(* ================================================================== *)
(** * Escaping in the browser *)
(* ================================================================== *)

Section Escaping.

Local Open Scope N_scope.
Import Client.

Lemma entityOf_cases (s : jstring) :
  entityOf s = lit "&amp;" \/ entityOf s = lit "&lt;"
  \/ entityOf s = lit "&gt;" \/ entityOf s = lit "&quot;"
  \/ entityOf s = lit "undefined".
Proof.
  unfold entityOf.
  destruct (jstring_eqb s [AMP]); [now left|].
  destruct (jstring_eqb s [LT]); [right; now left|].
  destruct (jstring_eqb s [GT]); [right; right; now left|].
  destruct (jstring_eqb s [QUOTE]); [right; right; right; now left|].
  right; right; right; now right.
Qed.

Lemma flush_inert (run : jstring) : forallb inert (flush run) = true.
Proof.
  destruct run as [|c r]; [reflexivity|]. unfold flush.
  destruct (entityOf_cases (rev (c :: r))) as [-> | [-> | [-> | [-> | ->]]]];
    reflexivity.
Qed.

Lemma plain_inert (c : N) : isSpecial c = false -> inert c = true.
Proof.
  unfold isSpecial, inert. intros H.
  apply orb_false_iff in H as [H H4]. apply orb_false_iff in H as [H H3].
  apply orb_false_iff in H as [_ H2]. now rewrite H2, H3, H4.
Qed.

Lemma escapeFrom_inert (s run : jstring) :
  forallb inert (escapeFrom run s) = true.
Proof.
  revert run. induction s as [|c s IH]; intros run; simpl.
  - apply flush_inert.
  - destruct (isSpecial c) eqn:Hc; [apply IH|].
    rewrite forallb_app, flush_inert. simpl.
    now rewrite (plain_inert _ Hc), IH.
Qed.

Lemma escapeFrom_isolated (s : jstring) :
  (isolatedFrom false s = true -> escapeFrom [] s = flat_map encodeUnit s)
  /\ (isolatedFrom true s = true ->
      forall x, escapeFrom [x] s = entityOf [x] ++ flat_map encodeUnit s).
Proof.
  induction s as [|c s [IH1 IH2]]; simpl.
  - split; [reflexivity|]. intros _ x. now rewrite app_nil_r.
  - unfold encodeUnit at 1 3. destruct (isSpecial c) eqn:Hc; simpl.
    + split; [|discriminate]. intros H. now apply IH2.
    + split.
      * intros H. now rewrite (IH1 H).
      * intros H x. now rewrite (IH1 H).
Qed.

Lemma escapeFrom_plain_end (a : jstring) (c : N) (run s : jstring) :
  isSpecial c = false ->
  escapeFrom run ((a ++ [c]) ++ s)
  = escapeFrom run (a ++ [c]) ++ escapeFrom [] s.
Proof.
  intros Hc. revert run. induction a as [|x a IH]; intros run; simpl.
  - rewrite Hc. rewrite <- app_assoc. reflexivity.
  - destruct (isSpecial x); [apply IH|].
    rewrite IH, <- app_assoc. reflexivity.
Qed.

Lemma escapeFrom_run (run0 run b : jstring) :
  forallb isSpecial run = true ->
  escapeFrom run0 (run ++ b) = escapeFrom (rev run ++ run0) b.
Proof.
  revert run0. induction run as [|c run IH]; intros run0 H; [reflexivity|].
  simpl in H. apply andb_true_iff in H as [Hc H].
  simpl. rewrite Hc, (IH _ H), <- app_assoc. reflexivity.
Qed.

Lemma escapeFrom_plain_begin (run b : jstring) :
  beginsPlain b -> escapeFrom run b = flush run ++ escapeFrom [] b.
Proof.
  intros [-> | [c [b' [-> Hc]]]]; simpl.
  - now rewrite app_nil_r.
  - now rewrite Hc.
Qed.

Lemma entityOf_long (c d : N) (r : jstring) :
  entityOf (c :: d :: r) = lit "undefined".
Proof.
  unfold entityOf, jstring_eqb.
  repeat match goal with
  | |- context [list_eq_dec ?f ?a ?b] =>
      destruct (list_eq_dec f a b); [discriminate|]
  end.
  reflexivity.
Qed.

End Escaping.

(** X14. What [escapeHtml] returns holds no less-than sign, no
    greater-than sign and no double quote, whatever it is given. *)
Theorem escapeHtml_no_markup :
  forall str, forallb inert (Client.escapeHtml str) = true.
Proof. intros str. apply escapeFrom_inert. Qed.

(** X15. On a text in which no two special units are neighbours,
    [escapeHtml] replaces each ampersand, less-than sign, greater-than
    sign and double quote by its entity and keeps every other unit. *)
Theorem escapeHtml_isolated_units :
  forall str,
    isolatedFrom false str = true ->
    Client.escapeHtml str = flat_map encodeUnit str.
Proof. intros str H. now apply (proj1 (escapeFrom_isolated str)). Qed.

Lemma escapeHtml_isolated_units_witness :
  Client.escapeHtml (lit "Tom & Jerry <3")
  = lit "Tom &amp; Jerry &lt;3".
Proof.
  exact (escapeHtml_isolated_units (lit "Tom & Jerry <3") eq_refl).
Defined.

(** X16. A run of two or more special units is one match of the
    expression and no key of the table of entities: [escapeHtml] puts the
    text undefined in its place, and escapes what comes before the run and
    what comes after it on their own. *)
Theorem escapeHtml_run_undefined :
  forall a run b,
    endsPlain a -> beginsPlain b ->
    forallb Client.isSpecial run = true ->
    (2 <= List.length run)%nat ->
    Client.escapeHtml (a ++ run ++ b)
    = Client.escapeHtml a ++ lit "undefined" ++ Client.escapeHtml b.
Proof.
  intros a run b Ha Hb Hrun Hlen. unfold Client.escapeHtml.
  assert (R : forall run0, run0 = [] ->
                Client.escapeFrom run0 (run ++ b)
                = lit "undefined" ++ Client.escapeFrom [] b).
  { intros run0 ->. rewrite (escapeFrom_run [] run b Hrun), app_nil_r.
    rewrite (escapeFrom_plain_begin _ b Hb). f_equal.
    destruct run as [|c [|d r]]; simpl in Hlen; try lia.
    assert (E : exists x y t, rev (c :: d :: r) = x :: y :: t).
    { destruct (rev (c :: d :: r)) as [|x [|y t]] eqn:E.
      - apply (f_equal (@List.length N)) in E. rewrite length_rev in E.
        discriminate.
      - apply (f_equal (@List.length N)) in E. rewrite length_rev in E.
        simpl in E. lia.
      - now exists x, y, t. }
    destruct E as [x [y [t E]]]. rewrite E. unfold Client.flush.
    rewrite <- E, rev_involutive. apply entityOf_long. }
  destruct Ha as [-> | [a' [c [-> Hc]]]].
  - simpl. now apply R.
  - rewrite (escapeFrom_plain_end a' c [] (run ++ b) Hc).
    f_equal. now apply R.
Qed.

Lemma escapeHtml_run_undefined_witness :
  Client.escapeHtml (lit "a" ++ [Client.LT; Client.LT] ++ lit "b")
  = lit "aundefinedb".
Proof.
  apply (escapeHtml_run_undefined (lit "a") [Client.LT; Client.LT] (lit "b")).
  - right. exists [], 97%N. split; reflexivity.
  - right. exists 98%N, []. split; reflexivity.
  - reflexivity.
  - simpl. lia.
Defined.

(* ================================================================== *)
(** * The page in the browser *)
(* ================================================================== *)

Section ViewLemmas.

Import Client.

Lemma besidesNotes_refl (v : View) : besidesNotes v v.
Proof. repeat split. Qed.

Lemma besidesNotes_trans (a b c : View) :
  besidesNotes a b -> besidesNotes b c -> besidesNotes a c.
Proof.
  unfold besidesNotes. intros H1 H2.
  repeat match goal with H : _ /\ _ |- _ => destruct H end.
  repeat split; congruence.
Qed.

Lemma besidesResults_refl (v : View) : besidesResults v v.
Proof. repeat split. Qed.

Lemma besidesResults_trans (a b c : View) :
  besidesResults a b -> besidesResults b c -> besidesResults a c.
Proof.
  unfold besidesResults. intros H1 H2.
  repeat match goal with H : _ /\ _ |- _ => destruct H end.
  repeat split; congruence.
Qed.

(** A relation that holds from view to view through both parts of a
    sequence holds through the sequence. *)
Lemma andThen_keeps {A B} (R : View -> View -> Prop)
                    (m : act A) (k : A -> act B) :
  (forall a b c, R a b -> R b c -> R a c) ->
  (forall v, R v (fst (m v))) ->
  (forall a v, R v (fst (k a v))) ->
  forall v, R v (fst (andThen m k v)).
Proof.
  intros Ht Hm Hk v. unfold andThen.
  pose proof (Hm v) as H. destruct (m v) as [v' [e|a]]; simpl in *;
    [exact H|].
  exact (Ht _ _ _ H (Hk a v')).
Qed.

Lemma lift_keeps {A} (R : View -> View -> Prop) (r : result A) :
  (forall v, R v v) -> forall v, R v (fst (lift r v)).
Proof. intros H v. apply H. Qed.

Lemma pills_keeps (c : Container) (arr : JValue) (label : string) (v : View) :
  besidesNotes v (fst (pills c arr label v)).
Proof.
  unfold pills, andThen, update, pure, raise.
  destruct arr as [| |b|z|s|items|props|name arity]; simpl;
    try solve [destruct c; repeat split].
  - destruct s; simpl; destruct c; repeat split.
  - destruct items; simpl; destruct c; repeat split.
  - destruct (falsy (Notes.lookupProp props (lit "length"))); simpl;
      destruct c; repeat split.
  - destruct (Z.eqb arity 0); simpl; destruct c; repeat split.
Qed.

Lemma pills_returns (c : Container) (arr : JValue) (label : string) (v : View) :
  pillsThrow arr = false -> snd (pills c arr label v) = inr tt.
Proof.
  unfold pills, andThen, update, pure, raise, pillsThrow.
  destruct arr as [| |b|z|s|items|props|name arity]; simpl; try reflexivity.
  - now destruct s.
  - now destruct items.
  - intros H. apply negb_false_iff in H. now rewrite H.
  - intros H. apply negb_false_iff in H. now rewrite H.
Qed.

Lemma renderNotes_keeps (notes : JValue) (v : View) :
  besidesNotes v (fst (renderNotes notes v)).
Proof.
  revert v. unfold renderNotes.
  repeat (apply andThen_keeps;
          [exact besidesNotes_trans
          | first [ intros v; apply lift_keeps; exact besidesNotes_refl
                  | intros v; apply pills_keeps ]
          | intros ? ]).
  intros v. repeat split.
Qed.

Lemma renderNotes_shows (notes : JValue) (v : View) :
  snd (renderNotes notes v) = inr tt ->
  notes_hidden (fst (renderNotes notes v)) = false.
Proof.
  unfold renderNotes, andThen, lift.
  destruct (Notes.getProp notes "top") as [e|t]; [discriminate|].
  destruct (pills NotesTop t "Top" v) as [v1 [e|[]]]; [discriminate|].
  destruct (Notes.getProp notes "middle") as [e|m]; [discriminate|].
  destruct (pills NotesMiddle m "Middle" v1) as [v2 [e|[]]]; [discriminate|].
  destruct (Notes.getProp notes "base") as [e|b]; [discriminate|].
  destruct (pills NotesBase b "Base" v2) as [v3 [e|[]]]; [discriminate|].
  reflexivity.
Qed.

Lemma renderNotes_returns (notes : JValue) (v : View) :
  renderable notes = true -> snd (renderNotes notes v) = inr tt.
Proof.
  unfold renderable. intros H.
  apply andb_true_iff in H as [H H3]. apply andb_true_iff in H as [H H2].
  apply andb_true_iff in H as [H0 H1].
  apply negb_true_iff in H1, H2, H3.
  assert (D1 : notes <> JUndefined) by (intros ->; discriminate).
  assert (D2 : notes <> JNull) by (intros ->; discriminate).
  unfold renderNotes, andThen, lift.
  rewrite !(getProp_optProp notes _ D1 D2).
  pose proof (pills_returns NotesTop _ "Top" v H1) as P1.
  destruct (pills NotesTop (Notes.optProp notes "top") "Top" v) as [v1 r1].
  simpl in P1. subst r1.
  pose proof (pills_returns NotesMiddle _ "Middle" v1 H2) as P2.
  destruct (pills NotesMiddle (Notes.optProp notes "middle") "Middle" v1)
    as [v2 r2].
  simpl in P2. subst r2.
  pose proof (pills_returns NotesBase _ "Base" v2 H3) as P3.
  destruct (pills NotesBase (Notes.optProp notes "base") "Base" v2) as [v3 r3].
  simpl in P3. subst r3. reflexivity.
Qed.

End ViewLemmas.

Section PageLemmas.

Import Client.

Variable fetch : jstring -> jstring -> result FetchResponse.
Variable JSON_stringify : JValue -> jstring.
Variable toText : JValue -> jstring.

Lemma postJSON_replyTo (url : string) (body : JValue) (v : View) :
  postJSON fetch JSON_stringify url body v
  = (record (lit url) (JSON_stringify body) v,
     replyTo fetch JSON_stringify url body).
Proof. reflexivity. Qed.

Lemma cardOf_defined (s : JValue) :
  defined s = true -> exists html, cardOf toText s = inr html.
Proof.
  intros H. unfold cardOf.
  rewrite !getProp_optProp by (intros ->; discriminate).
  now eexists.
Qed.

Lemma mapM_cardOf_defined (items : list JValue) :
  forallb defined items = true ->
  exists htmls, Notes.mapM (cardOf toText) items = inr htmls
                /\ List.length htmls = List.length items.
Proof.
  induction items as [|s items IH]; intros H; [now exists []|].
  simpl in H. apply andb_true_iff in H as [H1 H2].
  destruct (cardOf_defined s H1) as [html Hs].
  destruct (IH H2) as [htmls [Hm Hl]].
  exists (html :: htmls). simpl. rewrite Hs. step. rewrite Hm. step.
  split; [reflexivity | now rewrite Hl].
Qed.

Lemma appendCards_keeps (items : list JValue) (v : View) :
  besidesResults v (fst (appendCards toText items v)).
Proof.
  revert v. induction items as [|s items IH]; intros v.
  - repeat split.
  - simpl. revert v.
    apply andThen_keeps;
      [exact besidesResults_trans
      | intros v; apply lift_keeps; exact besidesResults_refl
      | intros html].
    apply andThen_keeps;
      [exact besidesResults_trans | intros v; repeat split | intros _; exact IH].
Qed.

Lemma renderResults_keeps (suggestions : JValue) (v : View) :
  besidesResults v (fst (renderResults toText suggestions v)).
Proof.
  revert v. unfold renderResults.
  apply andThen_keeps;
    [exact besidesResults_trans | intros v; repeat split | intros _].
  apply andThen_keeps;
    [exact besidesResults_trans | | intros _ v; repeat split].
  intros v. destruct suggestions; try (repeat split; fail);
    apply appendCards_keeps.
Qed.

Lemma appendCards_all (items : list JValue) (htmls : list jstring) :
  Notes.mapM (cardOf toText) items = inr htmls ->
  forall v, appendCards toText items v = (setCards (cards v ++ htmls) v, inr tt).
Proof.
  revert htmls. induction items as [|s items IH]; intros htmls H v.
  - injection H as <-. destruct v. simpl. unfold pure, setCards. simpl.
    now rewrite app_nil_r.
  - simpl in H. destruct (cardOf toText s) as [e|html] eqn:Es; [discriminate|].
    unfold bind in H.
    destruct (Notes.mapM (cardOf toText) items) as [e|rest] eqn:Em;
      [discriminate|].
    injection H as <-.
    simpl. unfold andThen, lift, update. rewrite Es.
    rewrite (IH rest eq_refl). destruct v. unfold setCards. simpl.
    now rewrite <- app_assoc.
Qed.

Lemma renderResults_all (items : list JValue) (htmls : list jstring) (v : View) :
  Notes.mapM (cardOf toText) items = inr htmls ->
  renderResults toText (JArr items) v
  = (setResultsHidden false (setCards htmls v), inr tt).
Proof.
  intros H. unfold renderResults, andThen, update.
  rewrite (appendCards_all items htmls H). destruct v. reflexivity.
Qed.

(** The search stage always returns; it sends one request and leaves the
    scene, the buttons and the notes as they are. *)
Lemma searchStage_returns (notes : JValue) (w : View) :
  exists w',
    searchStage fetch JSON_stringify toText notes w = (w', inr tt)
    /\ scene w' = scene w
    /\ extract_disabled w' = extract_disabled w
    /\ find_disabled w' = find_disabled w
    /\ notes_hidden w' = notes_hidden w
    /\ sent w' = sent w ++ [searchRequest JSON_stringify notes].
Proof.
  unfold searchStage, catching, andThen. rewrite postJSON_replyTo.
  destruct (replyTo fetch JSON_stringify "/api/search" (notesBody notes))
    as [e|found].
  { eexists. split; [reflexivity|]. repeat split. }
  unfold lift.
  destruct (Notes.getProp found "suggestions") as [e|suggestions].
  { eexists. split; [reflexivity|]. repeat split. }
  pose proof (renderResults_keeps suggestions
                (record (lit "/api/search")
                        (JSON_stringify (notesBody notes)) w)) as K.
  destruct (renderResults toText suggestions
              (record (lit "/api/search") (JSON_stringify (notesBody notes)) w))
    as [w5 [e|[]]]; simpl in K;
    destruct K as [K1 [_ [_ [_ [_ [_ [K7 [K8 [K9 K10]]]]]]]]];
    (eexists; split; [reflexivity|]); simpl; repeat split; assumption.
Qed.

End PageLemmas.

Section ShownNotes.

Import Client.

Lemma pills_shown (c : Container) (arr : JValue) (label : string) (v : View) :
  pillsThrow arr = false ->
  pills c arr label v = (setPills c (pillsShown arr label) v, inr tt).
Proof.
  unfold pills, andThen, update, pure, raise, pillsThrow, pillsShown, pillsFor.
  destruct arr as [| |b|z|s|items|props|name arity]; simpl;
    try solve [intros _; destruct c; destruct v; reflexivity].
  - intros _. destruct s; destruct c; destruct v; reflexivity.
  - intros _. destruct items; destruct c; destruct v; reflexivity.
  - intros H. apply negb_false_iff in H. rewrite H.
    destruct c; destruct v; reflexivity.
  - intros H. apply negb_false_iff in H. rewrite H.
    destruct c; destruct v; reflexivity.
Qed.

(** The three containers after [renderNotes] on notes it can show. *)
Lemma renderNotes_shown (notes : JValue) (v : View) :
  renderable notes = true ->
  renderNotes notes v
  = (setNotesHidden false
       (setPills NotesBase (pillsShown (Notes.optProp notes "base") "Base")
          (setPills NotesMiddle
                    (pillsShown (Notes.optProp notes "middle") "Middle")
             (setPills NotesTop (pillsShown (Notes.optProp notes "top") "Top")
                       v))),
     inr tt).
Proof.
  unfold renderable. intros H.
  apply andb_true_iff in H as [H Hb]. apply andb_true_iff in H as [H Hm].
  apply andb_true_iff in H as [Hd Ht].
  apply negb_true_iff in Ht, Hm, Hb.
  assert (D1 : notes <> JUndefined) by (intros ->; discriminate).
  assert (D2 : notes <> JNull) by (intros ->; discriminate).
  unfold renderNotes, andThen, lift.
  rewrite !(getProp_optProp notes _ D1 D2).
  rewrite (pills_shown _ _ _ _ Ht), (pills_shown _ _ _ _ Hm),
          (pills_shown _ _ _ _ Hb).
  reflexivity.
Qed.

End ShownNotes.

Section FindLemmas.

Import Client.

Variable fetch : jstring -> jstring -> result FetchResponse.
Variable JSON_stringify : JValue -> jstring.
Variable toText : JValue -> jstring.

Lemma onFind_blank (v : View) :
  trim (scene v) = [] ->
  onFind fetch JSON_stringify toText v
  = (setStatus (lit "Enter a scene description.") false v, inr tt).
Proof. intros H. unfold onFind. cbv zeta. rewrite H. reflexivity. Qed.

Lemma onFind_stages (v : View) :
  trim (scene v) <> [] ->
  onFind fetch JSON_stringify toText v
  = (let (v', r) :=
       catching (extractStage fetch JSON_stringify toText (trim (scene v)))
                (fun e => showStatus (lit "Error during note extraction: "
                                      ++ err_message e))
                (setDisabled true true v) in
     (setDisabled false false v', r)).
Proof.
  intros H. unfold onFind. cbv zeta.
  apply nonEmpty_true in H. rewrite H. reflexivity.
Qed.

(** What the extraction stage has done when it hands over to the search
    stage. *)
Lemma extractStage_to_search (s : jstring) (reply notes : JValue) (w : View) :
  replyTo fetch JSON_stringify "/api/extract-notes" (sceneBody s) = inr reply ->
  Notes.getProp reply "notes" = inr notes ->
  renderable notes = true ->
  exists w3,
    extractStage fetch JSON_stringify toText s w
    = searchStage fetch JSON_stringify toText notes
        (setStatus (lit "Searching fragrances...") false w3)
    /\ notes_hidden w3 = false
    /\ besidesNotes
         (record (lit "/api/extract-notes") (JSON_stringify (sceneBody s))
                 (setStatus (lit "Extracting notes locally...") false w))
         w3.
Proof.
  intros Hr Hn Hok.
  unfold extractStage. unfold andThen at 1. unfold showStatus at 1, update.
  unfold andThen at 1. rewrite postJSON_replyTo, Hr.
  unfold andThen at 1. unfold lift. rewrite Hn.
  unfold andThen at 1.
  match goal with
  | |- context [renderNotes notes ?x] => set (w2 := x)
  end.
  pose proof (renderNotes_returns notes w2 Hok) as R1.
  pose proof (renderNotes_shows notes w2 R1) as R2.
  pose proof (renderNotes_keeps notes w2) as R3.
  destruct (renderNotes notes w2) as [w3 r3]. simpl in R1, R2, R3. subst r3.
  exists w3. split; [reflexivity|]. split; assumption.
Qed.

Lemma extractStage_cases (s : jstring) (w : View) :
  exists w' r,
    extractStage fetch JSON_stringify toText s w = (w', r)
    /\ scene w' = scene w
    /\ exists rest,
         sent w' = sent w ++ extractRequest JSON_stringify s :: rest
         /\ (rest = [] \/ exists notes,
                rest = [searchRequest JSON_stringify notes]).
Proof.
  unfold extractStage. unfold andThen at 1. unfold showStatus at 1, update.
  unfold andThen at 1. rewrite postJSON_replyTo.
  destruct (replyTo fetch JSON_stringify "/api/extract-notes" (sceneBody s))
    as [e|reply].
  { eexists. eexists. split; [reflexivity|]. split; [reflexivity|].
    exists []. split; [reflexivity | now left]. }
  unfold andThen at 1. unfold lift.
  destruct (Notes.getProp reply "notes") as [e|notes].
  { eexists. eexists. split; [reflexivity|]. split; [reflexivity|].
    exists []. split; [reflexivity | now left]. }
  unfold andThen at 1.
  pose proof (renderNotes_keeps notes
                (record (lit "/api/extract-notes")
                        (JSON_stringify (sceneBody s))
                        (setStatus (lit "Extracting notes locally...")
                                   (negb (nonEmpty (lit "Extracting notes locally...")))
                                   w))) as K.
  destruct (renderNotes notes _) as [w3 [e|[]]]; simpl in K;
    destruct K as [K1 [_ [_ [_ [_ [_ [_ K8]]]]]]].
  { eexists. eexists. split; [reflexivity|]. split; [exact K1|].
    exists []. split; [exact K8 | now left]. }
  unfold andThen at 1. unfold showStatus at 1, update.
  destruct (searchStage_returns fetch JSON_stringify toText notes
              (setStatus (lit "Searching fragrances...")
                         (negb (nonEmpty (lit "Searching fragrances..."))) w3))
    as [w' [E [S1 [_ [_ [_ S5]]]]]].
  exists w', (inr tt). split; [exact E|]. split.
  - rewrite S1. exact K1.
  - exists [searchRequest JSON_stringify notes]. split.
    + rewrite S5. simpl sent. rewrite K8. simpl. now rewrite <- app_assoc.
    + right. now exists notes.
Qed.

End FindLemmas.

(** X17. [onFind] never throws. With a blank scene it sends nothing and
    only shows the hint. Otherwise it leaves both buttons enabled and the
    scene as typed, and has sent the extraction request for the trimmed
    scene, followed by at most one request, which is a search. *)
Theorem onFind_settles :
  forall fetch JSON_stringify toText v,
    (trim (Client.scene v) = [] ->
     Client.onFind fetch JSON_stringify toText v
     = (Client.setStatus (lit "Enter a scene description.") false v, inr tt))
    /\ (trim (Client.scene v) <> [] ->
        exists v',
          Client.onFind fetch JSON_stringify toText v = (v', inr tt)
          /\ Client.extract_disabled v' = false
          /\ Client.find_disabled v' = false
          /\ Client.scene v' = Client.scene v
          /\ exists rest,
               Client.sent v'
               = Client.sent v
                 ++ extractRequest JSON_stringify (trim (Client.scene v))
                 :: rest
               /\ (rest = [] \/ exists notes,
                      rest = [searchRequest JSON_stringify notes])).
Proof.
  intros fetch js tt0 v. split; [apply onFind_blank|].
  intros H. rewrite (onFind_stages fetch js tt0 v H).
  unfold Client.catching.
  destruct (extractStage_cases fetch js tt0 (trim (Client.scene v))
              (Client.setDisabled true true v))
    as [w' [r [E [Hs [rest [Hsent Hrest]]]]]].
  rewrite E. destruct r as [e|[]].
  - eexists. split; [reflexivity|]. simpl. repeat split; try assumption.
    exists rest. split; assumption.
  - eexists. split; [reflexivity|]. simpl. repeat split; try assumption.
    exists rest. split; assumption.
Qed.

Lemma onFind_settles_witness :
  exists v',
    Client.onFind Samples.fetchNothing Samples.bodyText Samples.stringText
                  Samples.startView = (v', inr tt)
    /\ Client.extract_disabled v' = false
    /\ Client.find_disabled v' = false.
Proof.
  destruct (proj2 (onFind_settles Samples.fetchNothing Samples.bodyText
                                  Samples.stringText Samples.startView)
                  ltac:(discriminate))
    as [v' [H1 [H2 [H3 _]]]].
  exists v'. repeat split; assumption.
Defined.

(** X18. When the extraction request fails, [onFind] shows the message of
    the error after the words for a failed extraction, sends no search
    request, leaves the notes and the results of the page as they were,
    and enables the buttons again. *)
Theorem onFind_extraction_error :
  forall fetch JSON_stringify toText v e,
    trim (Client.scene v) <> [] ->
    replyTo fetch JSON_stringify "/api/extract-notes"
            (Client.sceneBody (trim (Client.scene v))) = inl e ->
    exists v',
      Client.onFind fetch JSON_stringify toText v = (v', inr tt)
      /\ Client.status v'
         = lit "Error during note extraction: " ++ err_message e
      /\ Client.status_hidden v' = false
      /\ Client.sent v'
         = Client.sent v
           ++ [extractRequest JSON_stringify (trim (Client.scene v))]
      /\ Client.notes_top v' = Client.notes_top v
      /\ Client.notes_middle v' = Client.notes_middle v
      /\ Client.notes_base v' = Client.notes_base v
      /\ Client.notes_hidden v' = Client.notes_hidden v
      /\ Client.cards v' = Client.cards v
      /\ Client.results_hidden v' = Client.results_hidden v
      /\ Client.extract_disabled v' = false
      /\ Client.find_disabled v' = false.
Proof.
  intros fetch js tt0 v e H He.
  rewrite (onFind_stages fetch js tt0 v H).
  unfold Client.catching, extractStage.
  unfold Client.andThen at 1. unfold Client.showStatus at 1, Client.update.
  unfold Client.andThen at 1. rewrite postJSON_replyTo, He.
  eexists. split; [reflexivity|]. simpl. repeat split.
Qed.

Lemma onFind_extraction_error_witness :
  exists v',
    Client.onFind Samples.fetchNothing Samples.bodyText Samples.stringText
                  Samples.startView = (v', inr tt)
    /\ Client.status v' = lit "Error during note extraction: Failed to fetch"
    /\ Client.sent v' = [(lit "/api/extract-notes", lit "scene")].
Proof.
  destruct (onFind_extraction_error
              Samples.fetchNothing Samples.bodyText Samples.stringText
              Samples.startView
              (mkError (lit "TypeError") (lit "Failed to fetch"))
              ltac:(discriminate) eq_refl)
    as [v' [H1 [H2 [_ [H4 _]]]]].
  exists v'. repeat split; assumption.
Defined.

(** X19. When the notes have been extracted and the search request fails,
    [onFind] keeps the notes on the page: each container holds the pills of
    its bucket, the label and one pill per note, or nothing for an empty
    bucket, and the notes are shown. It shows the message of the error
    after the words for extracted notes, leaves the results of the page as
    they were, and enables the buttons again. *)
Theorem onFind_search_error :
  forall fetch JSON_stringify toText v reply notes e,
    trim (Client.scene v) <> [] ->
    replyTo fetch JSON_stringify "/api/extract-notes"
            (Client.sceneBody (trim (Client.scene v))) = inr reply ->
    Notes.getProp reply "notes" = inr notes ->
    renderable notes = true ->
    replyTo fetch JSON_stringify "/api/search" (Client.notesBody notes)
    = inl e ->
    exists v',
      Client.onFind fetch JSON_stringify toText v = (v', inr tt)
      /\ Client.status v'
         = lit "Notes extracted. Search error: " ++ err_message e
      /\ Client.status_hidden v' = false
      /\ Client.notes_top v' = pillsShown (Notes.optProp notes "top") "Top"
      /\ Client.notes_middle v'
         = pillsShown (Notes.optProp notes "middle") "Middle"
      /\ Client.notes_base v' = pillsShown (Notes.optProp notes "base") "Base"
      /\ Client.notes_hidden v' = false
      /\ Client.cards v' = Client.cards v
      /\ Client.results_hidden v' = Client.results_hidden v
      /\ Client.sent v'
         = Client.sent v
           ++ [extractRequest JSON_stringify (trim (Client.scene v));
               searchRequest JSON_stringify notes]
      /\ Client.extract_disabled v' = false
      /\ Client.find_disabled v' = false.
Proof.
  intros fetch js tt0 v reply notes e H Hr Hn Hok He.
  rewrite (onFind_stages fetch js tt0 v H).
  unfold Client.catching at 1. unfold extractStage.
  unfold Client.andThen at 1. unfold Client.showStatus at 1, Client.update.
  unfold Client.andThen at 1. rewrite postJSON_replyTo, Hr.
  unfold Client.andThen at 1. unfold Client.lift. rewrite Hn.
  unfold Client.andThen at 1. rewrite (renderNotes_shown notes _ Hok).
  unfold Client.andThen at 1. unfold Client.showStatus at 1, Client.update.
  unfold searchStage, Client.catching, Client.andThen.
  rewrite postJSON_replyTo, He.
  eexists. split; [reflexivity|]. simpl.
  repeat split; try reflexivity.
  now rewrite <- app_assoc.
Qed.

Lemma onFind_search_error_witness :
  exists v',
    Client.onFind Samples.fetchNotesOnly Samples.bodyText Samples.stringText
                  Samples.startView = (v', inr tt)
    /\ Client.status v'
       = lit "Notes extracted. Search error: Internal Server Error"
    /\ Client.notes_top v'
       = [Client.Head (lit "Top"); Client.Item (JStr (lit "bergamot"))]
    /\ Client.notes_hidden v' = false.
Proof.
  destruct (onFind_search_error
              Samples.fetchNotesOnly Samples.bodyText Samples.stringText
              Samples.startView Samples.notesAnswer
              (JObj [(lit "top", Notes.strings [lit "bergamot"]);
                     (lit "middle", Notes.strings []);
                     (lit "base", Notes.strings [lit "musk"])])
              (mkError (lit "Error") (lit "Internal Server Error"))
              ltac:(discriminate) eq_refl eq_refl eq_refl eq_refl)
    as [v' [H1 [H2 [_ [H4 [_ [_ [H7 _]]]]]]]].
  exists v'. repeat split; assumption.
Defined.

(** X20. When both requests succeed and the answer of the search holds an
    array of suggestions, none of them [null], [onFind] replaces the cards
    of the page by one card per suggestion, shows the notes and the
    results, ends on the message for a finished search, and enables the
    buttons again. *)
Theorem onFind_done :
  forall fetch JSON_stringify toText v reply notes found items,
    trim (Client.scene v) <> [] ->
    replyTo fetch JSON_stringify "/api/extract-notes"
            (Client.sceneBody (trim (Client.scene v))) = inr reply ->
    Notes.getProp reply "notes" = inr notes ->
    renderable notes = true ->
    replyTo fetch JSON_stringify "/api/search" (Client.notesBody notes)
    = inr found ->
    Notes.getProp found "suggestions" = inr (JArr items) ->
    forallb defined items = true ->
    exists v' htmls,
      Client.onFind fetch JSON_stringify toText v = (v', inr tt)
      /\ Notes.mapM (Client.cardOf toText) items = inr htmls
      /\ Client.cards v' = htmls
      /\ List.length (Client.cards v') = List.length items
      /\ Client.results_hidden v' = false
      /\ Client.notes_hidden v' = false
      /\ Client.status v' = lit "Done."
      /\ Client.extract_disabled v' = false
      /\ Client.find_disabled v' = false.
Proof.
  intros fetch js tt0 v reply notes found items H Hr Hn Hok Hf Hs Hd.
  rewrite (onFind_stages fetch js tt0 v H).
  destruct (extractStage_to_search fetch js tt0 _ reply notes
              (Client.setDisabled true true v) Hr Hn Hok)
    as [w3 [E [Hshown K]]].
  destruct (mapM_cardOf_defined tt0 items Hd) as [htmls [Hm Hl]].
  unfold Client.catching at 1. rewrite E.
  unfold searchStage, Client.catching.
  unfold Client.andThen at 1. rewrite postJSON_replyTo, Hf.
  unfold Client.andThen at 1. unfold Client.lift. rewrite Hs.
  unfold Client.andThen at 1. rewrite (renderResults_all tt0 items htmls _ Hm).
  exists (Client.setDisabled false false
            (Client.setStatus (lit "Done.") false
               (Client.setResultsHidden false
                  (Client.setCards htmls
                     (Client.record (lit "/api/search")
                        (js (Client.notesBody notes))
                        (Client.setStatus (lit "Searching fragrances...")
                                          false w3)))))),
         htmls.
  split; [reflexivity|]. split; [exact Hm|].
  simpl. repeat split; assumption.
Qed.

Lemma onFind_done_witness :
  exists v',
    Client.onFind Samples.fetchAll Samples.bodyText Samples.stringText
                  Samples.startView = (v', inr tt)
    /\ List.length (Client.cards v') = 1%nat
    /\ Client.status v' = lit "Done.".
Proof.
  destruct (onFind_done
              Samples.fetchAll Samples.bodyText Samples.stringText
              Samples.startView Samples.notesAnswer
              (JObj [(lit "top", Notes.strings [lit "bergamot"]);
                     (lit "middle", Notes.strings []);
                     (lit "base", Notes.strings [lit "musk"])])
              Samples.suggestionsAnswer
              [JObj [(lit "title", JStr (lit "Rose & Musk"));
                     (lit "url", JStr Examples.roseUrl);
                     (lit "snippet", JStr (lit "..."));
                     (lit "price", JStr (lit "$20"))]]
              ltac:(discriminate) eq_refl eq_refl eq_refl eq_refl eq_refl
              eq_refl)
    as [v' [htmls [H1 [_ [_ [H4 [_ [_ [H7 _]]]]]]]]].
  exists v'. repeat split; assumption.
Defined.

Section ExtractLemmas.

Import Client.

Lemma pills_array (c : Container) (items : list JValue) (label : string)
                  (v : View) :
  pills c (JArr items) label v
  = (setPills c (pillsFor items label) v, inr tt).
Proof.
  unfold pills, andThen, update, pure, pillsFor.
  destruct items; destruct c; destruct v; reflexivity.
Qed.

(** The three containers after [renderNotes] on notes whose buckets are
    arrays. *)
Lemma renderNotes_arrays (notes : JValue) (t m b : list JValue) (v : View) :
  Notes.getProp notes "top" = inr (JArr t) ->
  Notes.getProp notes "middle" = inr (JArr m) ->
  Notes.getProp notes "base" = inr (JArr b) ->
  renderNotes notes v
  = (setNotesHidden false
       (setPills NotesBase (pillsFor b "Base")
          (setPills NotesMiddle (pillsFor m "Middle")
             (setPills NotesTop (pillsFor t "Top") v))),
     inr tt).
Proof.
  intros Ht Hm Hb. unfold renderNotes, andThen, lift.
  rewrite Ht, pills_array, Hm, pills_array, Hb, pills_array. reflexivity.
Qed.

(** [onExtract] settles, and touches nothing but the status, the notes
    and the requests. *)
Lemma onExtract_cases (fetch : jstring -> jstring -> result FetchResponse)
                      (JSON_stringify : JValue -> jstring) (v : View) :
  trim (scene v) <> [] ->
  exists v',
    onExtract fetch JSON_stringify v = (v', inr tt)
    /\ (status v' = lit "Enter a scene description."
        \/ status v' = lit "Notes extracted. You can now search."
        \/ exists message, status v' = lit "Error: " ++ message)
    /\ status_hidden v' = false
    /\ scene v' = scene v
    /\ cards v' = cards v
    /\ results_hidden v' = results_hidden v
    /\ extract_disabled v' = extract_disabled v
    /\ find_disabled v' = find_disabled v
    /\ sent v' = sent v ++ [extractRequest JSON_stringify (trim (scene v))].
Proof.
  intros H. unfold onExtract. cbv zeta.
  apply nonEmpty_true in H. rewrite H. simpl negb. cbv iota.
  unfold andThen at 1. unfold showStatus at 1, update.
  unfold catching. unfold andThen at 1.
  rewrite postJSON_replyTo.
  destruct (replyTo fetch JSON_stringify "/api/extract-notes"
                    (sceneBody (trim (scene v)))) as [e|reply].
  { eexists. split; [reflexivity|]. simpl.
    split; [right; right; now eexists|]. repeat split. }
  unfold andThen at 1. unfold lift.
  destruct (Notes.getProp reply "notes") as [e|notes].
  { eexists. split; [reflexivity|]. simpl.
    split; [right; right; now eexists|]. repeat split. }
  unfold andThen at 1.
  match goal with
  | |- context [renderNotes notes ?x] => set (w2 := x)
  end.
  pose proof (renderNotes_keeps notes w2) as K.
  destruct (renderNotes notes w2) as [w3 [e|[]]]; simpl in K;
    destruct K as [K1 [_ [_ [K4 [K5 [K6 [K7 K8]]]]]]];
    (eexists; split; [reflexivity|]); simpl;
    (split; [first [right; left; reflexivity | right; right; now eexists]|]);
    repeat split; assumption.
Qed.

End ExtractLemmas.

(** X21. [onExtract] never throws: whatever the request is answered
    with, it returns, with the status line shown and nothing changed but
    the status, the notes and the requests sent, of which there is none
    for a blank scene and otherwise the one extraction request for the
    trimmed scene. With a blank scene it shows the hint; when the request
    fails it shows the message of the error and leaves the notes of the
    page as they were; when the request is answered with notes whose
    buckets are arrays it shows, in each container, the label followed by
    one pill per note in order, or nothing for an empty bucket, and tells
    that the notes are there. *)
Theorem onExtract_outcomes :
  forall fetch JSON_stringify v,
    (exists v',
        Client.onExtract fetch JSON_stringify v = (v', inr tt)
        /\ (Client.status v' = lit "Enter a scene description."
            \/ Client.status v' = lit "Notes extracted. You can now search."
            \/ exists message, Client.status v' = lit "Error: " ++ message)
        /\ Client.status_hidden v' = false
        /\ Client.scene v' = Client.scene v
        /\ Client.cards v' = Client.cards v
        /\ Client.results_hidden v' = Client.results_hidden v
        /\ Client.extract_disabled v' = Client.extract_disabled v
        /\ Client.find_disabled v' = Client.find_disabled v
        /\ Client.sent v'
           = Client.sent v
             ++ (if nonEmpty (trim (Client.scene v))
                 then [extractRequest JSON_stringify (trim (Client.scene v))]
                 else []))
    /\ (trim (Client.scene v) = [] ->
        Client.onExtract fetch JSON_stringify v
        = (Client.setStatus (lit "Enter a scene description.") false v, inr tt))
    /\ (forall e,
           trim (Client.scene v) <> [] ->
           replyTo fetch JSON_stringify "/api/extract-notes"
                   (Client.sceneBody (trim (Client.scene v))) = inl e ->
           exists v',
             Client.onExtract fetch JSON_stringify v = (v', inr tt)
             /\ Client.status v' = lit "Error: " ++ err_message e
             /\ Client.notes_top v' = Client.notes_top v
             /\ Client.notes_middle v' = Client.notes_middle v
             /\ Client.notes_base v' = Client.notes_base v
             /\ Client.notes_hidden v' = Client.notes_hidden v
             /\ Client.sent v'
                = Client.sent v
                  ++ [extractRequest JSON_stringify (trim (Client.scene v))])
    /\ (forall reply,
           trim (Client.scene v) <> [] ->
           replyTo fetch JSON_stringify "/api/extract-notes"
                   (Client.sceneBody (trim (Client.scene v))) = inr reply ->
           (forall notes,
               Notes.getProp reply "notes" = inr notes ->
               defined notes = false) ->
           exists v' message,
             Client.onExtract fetch JSON_stringify v = (v', inr tt)
             /\ Client.status v' = lit "Error: " ++ message
             /\ Client.notes_top v' = Client.notes_top v
             /\ Client.notes_middle v' = Client.notes_middle v
             /\ Client.notes_base v' = Client.notes_base v
             /\ Client.notes_hidden v' = Client.notes_hidden v)
    /\ (forall reply notes t m b,
           trim (Client.scene v) <> [] ->
           replyTo fetch JSON_stringify "/api/extract-notes"
                   (Client.sceneBody (trim (Client.scene v))) = inr reply ->
           Notes.getProp reply "notes" = inr notes ->
           Notes.getProp notes "top" = inr (JArr t) ->
           Notes.getProp notes "middle" = inr (JArr m) ->
           Notes.getProp notes "base" = inr (JArr b) ->
           exists v',
             Client.onExtract fetch JSON_stringify v = (v', inr tt)
             /\ Client.status v' = lit "Notes extracted. You can now search."
             /\ Client.notes_top v' = pillsFor t "Top"
             /\ Client.notes_middle v' = pillsFor m "Middle"
             /\ Client.notes_base v' = pillsFor b "Base"
             /\ Client.notes_hidden v' = false
             /\ Client.cards v' = Client.cards v
             /\ Client.sent v'
                = Client.sent v
                  ++ [extractRequest JSON_stringify (trim (Client.scene v))]).
Proof.
  intros fetch js v. split; [|split; [|split; [|split]]].
  - destruct (trim (Client.scene v)) as [|c r] eqn:Hs.
    + eexists. unfold Client.onExtract. cbv zeta. rewrite Hs.
      split; [reflexivity|]. simpl. rewrite app_nil_r.
      split; [now left|]. repeat split.
    + assert (Hne : trim (Client.scene v) <> [])
        by (rewrite Hs; discriminate).
      destruct (onExtract_cases fetch js v Hne) as [v' Hv'].
      exists v'. rewrite <- Hs. apply nonEmpty_true in Hne. rewrite Hne.
      exact Hv'.
  - intros H. unfold Client.onExtract. cbv zeta. now rewrite H.
  - intros e H He. unfold Client.onExtract. cbv zeta.
    apply nonEmpty_true in H. rewrite H. simpl negb. cbv iota.
    unfold Client.andThen at 1. unfold Client.showStatus at 1, Client.update.
    unfold Client.catching. unfold Client.andThen at 1.
    rewrite postJSON_replyTo, He.
    eexists. split; [reflexivity|]. simpl. repeat split.
  - intros reply H Hr Hn. unfold Client.onExtract. cbv zeta.
    apply nonEmpty_true in H. rewrite H. simpl negb. cbv iota.
    unfold Client.andThen at 1. unfold Client.showStatus at 1, Client.update.
    unfold Client.catching. unfold Client.andThen at 1.
    rewrite postJSON_replyTo, Hr.
    unfold Client.andThen at 1. unfold Client.lift.
    destruct (Notes.getProp reply "notes") as [e|notes].
    + eexists. eexists. split; [reflexivity|]. simpl. repeat split.
    + specialize (Hn notes eq_refl).
      unfold Client.andThen at 1. unfold Client.renderNotes.
      unfold Client.andThen at 1. unfold Client.lift.
      destruct notes; try discriminate; simpl Notes.getProp;
        (eexists; eexists; split; [reflexivity|]); simpl; repeat split.
  - intros reply notes t m b H Hr Hn Ht Hm Hb. unfold Client.onExtract.
    cbv zeta. apply nonEmpty_true in H. rewrite H. simpl negb. cbv iota.
    unfold Client.andThen at 1. unfold Client.showStatus at 1, Client.update.
    unfold Client.catching. unfold Client.andThen at 1.
    rewrite postJSON_replyTo, Hr.
    unfold Client.andThen at 1. unfold Client.lift. rewrite Hn.
    unfold Client.andThen at 1.
    rewrite (renderNotes_arrays notes t m b _ Ht Hm Hb).
    eexists. split; [reflexivity|]. simpl. repeat split.
Qed.

Lemma onExtract_outcomes_witness :
  exists v',
    Client.onExtract Samples.fetchAll Samples.bodyText Samples.startView
    = (v', inr tt)
    /\ Client.notes_top v'
       = [Client.Head (lit "Top"); Client.Item (JStr (lit "bergamot"))]
    /\ Client.notes_middle v' = []
    /\ Client.notes_hidden v' = false.
Proof.
  destruct (proj2 (proj2 (proj2 (proj2 (onExtract_outcomes
                            Samples.fetchAll Samples.bodyText
                            Samples.startView))))
                  Samples.notesAnswer
                  (JObj [(lit "top", Notes.strings [lit "bergamot"]);
                         (lit "middle", Notes.strings []);
                         (lit "base", Notes.strings [lit "musk"])])
                  [JStr (lit "bergamot")] [] [JStr (lit "musk")]
                  ltac:(discriminate) eq_refl eq_refl eq_refl eq_refl eq_refl)
    as [v' [H1 [_ [H3 [H4 [_ [H6 _]]]]]]].
  exists v'. repeat split; assumption.
Defined.

(* ================================================================== *)
(** * The routes together *)
(* ================================================================== *)

Section RoutesTogether.

Import Server.

Variable env : Query.Env.
Variable customsearch : Query.SearchRequest -> result JValue.
Variable axios_get : JValue -> result Scrape.Response.
Variable cheerioLoad : jstring -> result Scrape.Page.
Variable elementText : JValue -> jstring.

Lemma firstThree_throws (v : JValue) :
  falsy v = false -> (forall items, v <> JArr items) ->
  exists e, firstThree elementText v = inl e.
Proof.
  intros Hf Ha. unfold firstThree, Notes.orValue. rewrite Hf.
  destruct v; try (now eexists). now destruct (Ha items).
Qed.

Lemma apiSearch_on_notes (body : JValue) (arg : Query.NotesArg) :
  (forall s, elementText (JStr s) = s) ->
  field body "notes" = notesValue arg ->
  apiSearch env customsearch axios_get cheerioLoad elementText body
  = answer (bind (Routes.searchRoute env customsearch axios_get cheerioLoad arg)
                 (fun found => ret (Json found))).
Proof.
  intros Het Hn. unfold apiSearch, Routes.searchRoute. cbv zeta. rewrite Hn.
  change (notesRejected (notesValue arg)) with false. cbv iota.
  rewrite (buildPerfumeQueryFromNotes_value elementText Het arg). step.
  destruct (snd (Query.googleSearch env customsearch
                   (Query.buildPerfumeQueryFromNotes arg) 6)) as [e|results];
    [reflexivity|].
  now destruct (Routes.suggestionsFor axios_get cheerioLoad results).
Qed.

End RoutesTogether.

(** X22. [/api/search] answers 500 when the top bucket of the notes is
    neither falsy nor an array, a string of notes for one: such notes pass
    the check of the request and fail when the query is built, before any
    search. *)
Theorem api_search_rejects_loose_bucket :
  forall env customsearch axios_get cheerioLoad elementText body v,
    Server.notesRejected (Server.field body "notes") = false ->
    Notes.getProp (Server.field body "notes") "top" = inr v ->
    falsy v = false -> (forall items, v <> JArr items) ->
    exists error,
      Server.apiSearch env customsearch axios_get cheerioLoad elementText body
      = Server.Status 500 error.
Proof.
  intros env cs ag cl et body v Hr Hp Hf Ha.
  destruct (firstThree_throws et v Hf Ha) as [e He].
  exists (errorText e).
  unfold Server.apiSearch. cbv zeta. rewrite Hr.
  unfold Server.buildPerfumeQueryFromNotes. rewrite Hp. step. rewrite He.
  reflexivity.
Qed.

Lemma api_search_rejects_loose_bucket_witness :
  exists error,
    Server.apiSearch Examples.fullEnv Examples.twoItems
                     Examples.shopGet Examples.shopLoad Samples.stringText
                     (JObj [(lit "notes",
                             JObj [(lit "top", JStr (lit "rose, musk"))])])
    = Server.Status 500 error.
Proof.
  apply (api_search_rejects_loose_bucket
           Examples.fullEnv Examples.twoItems
           Examples.shopGet Examples.shopLoad Samples.stringText
           (JObj [(lit "notes", JObj [(lit "top", JStr (lit "rose, musk"))])])
           (JStr (lit "rose, musk")) eq_refl eq_refl eq_refl).
  intros items. discriminate.
Defined.

(** X23. [/api/find] is [/api/extract-notes] followed by [/api/search]:
    for an accepted scene whose notes are extracted, it answers as
    [/api/search] answers the object of those notes, with the notes added
    to a successful answer. *)
Theorem api_find_is_extract_then_search :
  forall env customsearch axios_get cheerioLoad
         toLowerCase ollama_generate JSON_parse
         elementText body body' notes,
    (forall s, elementText (JStr s) = s) ->
    Server.apiExtractNotes toLowerCase ollama_generate JSON_parse body
    = Server.Json notes ->
    Server.field body' "notes" = notesValue (Query.ofNoteSet notes) ->
    Server.apiFind env customsearch axios_get cheerioLoad
                   toLowerCase ollama_generate JSON_parse body
    = match Server.apiSearch env customsearch axios_get cheerioLoad
                             elementText body' with
      | Server.Json (query, suggestions) =>
          Server.Json (notes, query, suggestions)
      | Server.Status code error => Server.Status code error
      end.
Proof.
  intros env cs ag cl lc og jp et body body' notes Het Hx Hn.
  rewrite (apiSearch_on_notes env cs ag cl et body' _ Het Hn).
  unfold Server.apiExtractNotes in Hx. unfold Server.apiFind.
  cbv zeta in *.
  destruct (Server.sceneRejected (Server.field body "scene"));
    [discriminate|].
  unfold Routes.findRoute, Routes.searchRoute.
  destruct (Notes.ollamaNotesFromScene lc og jp
              (Server.sceneText (Server.field body "scene"))) as [e|ns];
    [discriminate|].
  simpl in Hx. injection Hx as ->. step.
  destruct (snd (Query.googleSearch env cs
                   (Query.buildPerfumeQueryFromNotes (Query.ofNoteSet notes)) 6))
    as [e|results]; [reflexivity|].
  now destruct (Routes.suggestionsFor ag cl results).
Qed.

Lemma api_find_is_extract_then_search_witness :
  exists suggestions,
    Server.apiFind Examples.fullEnv Examples.twoItems
                   Examples.shopGet Examples.shopLoad
                   Examples.basicLower
                   (fun _ => inr Examples.plainReply) Examples.noJSON
                   (JObj [(lit "scene", JStr (lit "rainy garden"))])
    = Server.Json (Notes.mkNoteSet [lit "rose"; lit "jasmine"] [] [],
                   lit "rose jasmine perfume with price", suggestions)
    /\ List.length suggestions = 2%nat.
Proof.
  pose proof (api_find_is_extract_then_search
                Examples.fullEnv Examples.twoItems
                Examples.shopGet Examples.shopLoad
                Examples.basicLower
                (fun _ => inr Examples.plainReply) Examples.noJSON
                Samples.stringText
                (JObj [(lit "scene", JStr (lit "rainy garden"))])
                (JObj [(lit "notes",
                        notesValue
                          (Query.ofNoteSet
                             (Notes.mkNoteSet [lit "rose"; lit "jasmine"] [] [])))])
                (Notes.mkNoteSet [lit "rose"; lit "jasmine"] [] [])
                (fun s => eq_refl) eq_refl eq_refl) as H.
  eexists. split; [rewrite H; vm_compute; reflexivity | reflexivity].
Defined.

(* ================================================================== *)
(** * The shape of a Scrape Result *)
(* ================================================================== *)


